(** * Round-processing service: intake handler, pipeline, generator adapter

    A shallow embedding of [app/main.py], [app/llm_generator.py] and
    [app/github_utils.py], and the properties of the round-processing
    pipeline proved over it.

    Python values that come out of [json.loads] are modelled by [json];
    Python [str] by Rocq strings holding the UTF-8 encoding of the text (a
    lone surrogate, which JSON can carry, in its generalised three-byte
    form); functions that can raise return a [result] inside the monad
    [M], which threads the local file system, of which the ledger file is
    a part, and the trace of calls made to the outside world. Writing to
    the log with [print] is taken to return, and a local file that exists
    to open for reading. *)

From stdpp Require Import base strings list gmap pretty.
From Stdlib Require Import ZArith Ascii String.

Local Open Scope Z_scope.
Local Open Scope string_scope.
Local Open Scope list_scope.

(** ** Python [str] operations used by the sources *)

Module PyStr.

(** [strip_prefix p s] is the rest of [s] after its prefix [p], when [s]
    starts with [p]. *)
Fixpoint strip_prefix (p s : string) : option string :=
  match p, s with
  | EmptyString, _ => Some s
  | String a p', String b s' => if Ascii.eqb a b then strip_prefix p' s' else None
  | String _ _, EmptyString => None
  end.

(** [s.startswith(p)] *)
Definition startswith (s p : string) : bool :=
  match strip_prefix p s with Some _ => true | None => false end.

(** [s.endswith(p)] *)
Definition endswith (s p : string) : bool :=
  startswith (String.rev s) (String.rev p).

(** [s.split(sep, 1)] when [sep] occurs in [s]: the text before the first
    occurrence and the text after it. [None] when [sep] does not occur. *)
Fixpoint partition (sep s : string) : option (string * string) :=
  match strip_prefix sep s with
  | Some rest => Some (EmptyString, rest)
  | None =>
      match s with
      | EmptyString => None
      | String c s' =>
          match partition sep s' with
          | Some (a, b) => Some (String c a, b)
          | None => None
          end
      end
  end.

(** [sub in s] *)
Definition contains (sub s : string) : bool :=
  match partition sub s with Some _ => true | None => false end.

(** [s.split(sep)] for a non-empty [sep]: [skip] counts the characters of
    a separator just matched that are still to be passed over, [cur] is
    the current piece, reversed. *)
Fixpoint split_go (sep : string) (skip : nat) (cur s : string) : list string :=
  match s with
  | EmptyString => [String.rev cur]
  | String c s' =>
      match skip with
      | S k => split_go sep k cur s'
      | O =>
          match strip_prefix sep s with
          | Some _ => String.rev cur :: split_go sep (String.length sep - 1) EmptyString s'
          | None => split_go sep 0 (String c cur) s'
          end
      end
  end.

Definition split (sep s : string) : list string :=
  split_go sep 0 EmptyString s.

(** [s.replace(old, new)] for a non-empty [old]. *)
Fixpoint replace_go (old new : string) (skip : nat) (s : string) : string :=
  match s with
  | EmptyString => EmptyString
  | String c s' =>
      match skip with
      | S k => replace_go old new k s'
      | O =>
          match strip_prefix old s with
          | Some _ => new +:+ replace_go old new (String.length old - 1) s'
          | None => String c (replace_go old new 0 s')
          end
      end
  end.

Definition replace (old new s : string) : string := replace_go old new 0 s.

(** [sep.join(l)] *)
Fixpoint join (sep : string) (l : list string) : string :=
  match l with
  | [] => EmptyString
  | [x] => x
  | x :: l' => x +:+ sep +:+ join sep l'
  end.

Definition utf8 (l : list nat) : string := string_of_list_ascii (map ascii_of_nat l).

(** The characters for which [str.isspace] holds, each as its UTF-8
    encoding: the ASCII ones, then U+0085, U+00A0, U+1680, U+2000 to
    U+200A, U+2028, U+2029, U+202F, U+205F and U+3000. *)
Definition whitespace : list string :=
  Eval cbv in
    map utf8
      [ [9%nat]; [10%nat]; [11%nat]; [12%nat]; [13%nat]; [28%nat]; [29%nat];
        [30%nat]; [31%nat]; [32%nat];
        [194; 133]%nat; [194; 160]%nat; [225; 154; 128]%nat;
        [226; 128; 128]%nat; [226; 128; 129]%nat; [226; 128; 130]%nat;
        [226; 128; 131]%nat; [226; 128; 132]%nat; [226; 128; 133]%nat;
        [226; 128; 134]%nat; [226; 128; 135]%nat; [226; 128; 136]%nat;
        [226; 128; 137]%nat; [226; 128; 138]%nat; [226; 128; 168]%nat;
        [226; 128; 169]%nat; [226; 128; 175]%nat; [226; 129; 159]%nat;
        [227; 128; 128]%nat ].

(** [s] without the whitespace character it starts with, if any. *)
Fixpoint drop_space (ws : list string) (s : string) : option string :=
  match ws with
  | [] => None
  | t :: ws' =>
      match strip_prefix t s with
      | Some rest => Some rest
      | None => drop_space ws' s
      end
  end.

(** [s.lstrip()]: whitespace characters are dropped from the front as long
    as there is one; the length of [s] bounds their number. *)
Fixpoint lstrip_go (fuel : nat) (s : string) : string :=
  match fuel with
  | O => s
  | S n =>
      match drop_space whitespace s with
      | Some rest => lstrip_go n rest
      | None => s
      end
  end.

Definition lstrip (s : string) : string := lstrip_go (String.length s) s.

(** [s.rstrip()]: a suffix made of whitespace only is dropped. *)
Fixpoint rstrip (s : string) : string :=
  match s with
  | EmptyString => EmptyString
  | String c s' =>
      match lstrip s with
      | EmptyString => EmptyString
      | _ => String c (rstrip s')
      end
  end.

(** [s.strip()] *)
Definition strip (s : string) : string := rstrip (lstrip s).

(** [s[:n]]: the first [n] characters of [s]; a UTF-8 continuation byte
    (of the form 10xxxxxx) belongs to the character before it. *)
Definition continuation (c : ascii) : bool :=
  match c with Ascii _ _ _ _ _ _ b6 b7 => b7 && negb b6 end.

(** [len(s)]: the number of characters. *)
Definition char_count (s : string) : nat :=
  List.length (List.filter (fun c => negb (continuation c)) (list_ascii_of_string s)).

Fixpoint take_chars (n : nat) (s : string) : string :=
  match s with
  | EmptyString => EmptyString
  | String c s' =>
      if continuation c then String c (take_chars n s')
      else match n with
           | O => EmptyString
           | S k => String c (take_chars k s')
           end
  end.

(** The characters of [s], each as a string of its own. *)
Fixpoint chars (s : string) : list string :=
  match s with
  | EmptyString => []
  | String c s' =>
      match chars s' with
      | String c' x :: r =>
          if continuation c' then String c (String c' x) :: r
          else String c EmptyString :: String c' x :: r
      | r => String c EmptyString :: r
      end
  end.

(** [os.path.basename(p)]: what follows the last slash. *)
Fixpoint basename (p : string) : string :=
  match p with
  | EmptyString => EmptyString
  | String c p' => if contains "/" p' then basename p' else
                   if Ascii.eqb c "/" then p' else p
  end.

(** A lone surrogate is held as the three bytes of its generalised UTF-8
    form: the byte 237, a byte from 160 to 191, and one more. Well-formed
    UTF-8 has no such pair of bytes, and a [str] that holds one cannot be
    encoded: [s.encode("utf-8")] raises [UnicodeEncodeError]. *)
Definition surrogate_pair (c d : ascii) : bool :=
  Ascii.eqb c "237" && (160 <=? nat_of_ascii d)%nat && (nat_of_ascii d <=? 191)%nat.

Fixpoint surrogate_free (s : string) : bool :=
  match s with
  | EmptyString => true
  | String c s' =>
      match s' with
      | String d _ => negb (surrogate_pair c d)
      | EmptyString => true
      end && surrogate_free s'
  end.

End PyStr.

Import PyStr.

(** The newline character and the double quote. A string literal has no
    escape sequences here: the literal written backslash-n holds the two
    characters of Python's ["\\n"]. *)
Definition nl : string := String "010"%char EmptyString.
Definition dq : string := String "034"%char EmptyString.

(** ** Python values *)

Local Set Warnings "-register-all".

(** What [json.loads] produces: [None], [bool], [int], [float], [str],
    [list] and [dict] with [str] keys. A float is kept as its [repr] (the
    shortest decimal string that reads back as the same float), which decides
    its truth value, its equality with an integer and its [str]. A [dict]
    keeps its keys in insertion order. *)
Inductive json : Type :=
| JNull
| JBool (b : bool)
| JInt (n : Z)
| JFloat (r : string)
| JStr (s : string)
| JArr (l : list json)
| JObj (kv : list (string * json)).

Abbreviation bytes := (list Byte.byte).

(** The exceptions the sources can meet; all of them are subclasses of
    [Exception], [GithubException] carries the HTTP status. *)
Inductive exn : Type :=
| KeyError (key : string)
| TypeError
| AttributeError
| ValueError
| OSError
| IndexError
| UnicodeEncodeError
| UnicodeDecodeError
| GithubException (status : Z)
| OtherError.

Inductive result (A : Type) : Type :=
| Ok (a : A)
| Raise (e : exn).
Arguments Ok {A} a.
Arguments Raise {A} e.

Definition and_then {A B} (r : result A) (k : A -> result B) : result B :=
  match r with
  | Ok a => k a
  | Raise e => Raise e
  end.

Notation "x <~ r ;; k" := (and_then r (fun x => k))
  (at level 100, r at next level, right associativity).

(** How [json.load] ends on a file: it raises an exception other than
    [JSONDecodeError] ([UnicodeDecodeError] when the bytes are no text in
    the default encoding, [RecursionError] on a text nested too deep), it
    raises [JSONDecodeError] because the text is no JSON, or it returns
    the value read. *)
Inductive loaded : Type :=
| Broken (e : exn)
| NotJson
| Loaded (v : json).

(** The functions of Python's own library that the sources call and whose
    definition is not part of the repository. *)
Record runtime : Type := {
  (** [repr(s)] of a [str] *)
  repr_str : string -> string;
  (** [base64.b64decode(s)]; [None] when it raises *)
  b64decode : string -> option bytes;
  (** [base64.b64encode(b).decode("utf-8")] *)
  b64encode : bytes -> string;
  (** [b.decode("utf-8", errors="ignore")] *)
  utf8_ignore : bytes -> string;
  (** what [f.read(1000)] returns on a file of these bytes opened with
      [open(p, "r", encoding="utf-8", errors="ignore")] *)
  read_1000 : bytes -> string;
  (** [str(TMP_DIR / name)] *)
  tmp_path : string -> string;
  (** [str(e)] of the [OSError] raised on opening this path *)
  strerror : string -> string;
  (** what [json.load(open(p))] makes of a file of these bytes *)
  json_load : bytes -> loaded;
  (** the bytes that [json.dump(m, f, indent=2)] writes *)
  json_dump : gmap string json -> bytes;
}.

Module Py.

(** [bool(v)] *)
Definition truthy (v : json) : bool :=
  match v with
  | JNull => false
  | JBool b => b
  | JInt n => negb (Z.eqb n 0)
  | JFloat r => negb (String.eqb r "0.0" || String.eqb r "-0.0")
  | JStr s => negb (String.eqb s EmptyString)
  | JArr l => match l with [] => false | _ => true end
  | JObj kv => match kv with [] => false | _ => true end
  end.

(** [a or b] *)
Definition or_else (a b : json) : json := if truthy a then a else b.

(** [v == n] for an integer [n] of small magnitude: an [int] equal to
    [n], the [bool] that counts as [n], or the float [n.0]. *)
Definition eq_int (v : json) (n : Z) : bool :=
  match v with
  | JInt m => Z.eqb m n
  | JBool b => Z.eqb (if b then 1 else 0) n
  | JFloat r => String.eqb r (pretty n +:+ ".0")
  | _ => false
  end.

(** [v == s] where [s] is [None] or a [str] (an environment variable). *)
Definition eq_optstr (v : json) (s : option string) : bool :=
  match s, v with
  | None, JNull => true
  | Some s, JStr s' => String.eqb s' s
  | _, _ => false
  end.

Fixpoint lookup (kv : list (string * json)) (k : string) : option json :=
  match kv with
  | [] => None
  | (k', v) :: kv' => if String.eqb k' k then Some v else lookup kv' k
  end.

(** [d.get(k, default)]; only a [dict] has the method. *)
Definition get (d : json) (k : string) (default : json) : result json :=
  match d with
  | JObj kv => Ok (match lookup kv k with Some v => v | None => default end)
  | _ => Raise AttributeError
  end.

(** [d[k]] for a [str] key [k]: a [dict] without the key raises
    [KeyError], a [list] or a [str] takes integer indices only, the other
    values are not subscriptable. *)
Definition getitem (d : json) (k : string) : result json :=
  match d with
  | JObj kv => match lookup kv k with Some v => Ok v | None => Raise (KeyError k) end
  | _ => Raise TypeError
  end.

(** [len(v)] *)
Definition len (v : json) : result nat :=
  match v with
  | JStr s => Ok (char_count s)
  | JArr l => Ok (List.length l)
  | JObj kv => Ok (List.length kv)
  | _ => Raise TypeError
  end.

(** [v[i]] for an integer index [i]. *)
Definition index (v : json) (i : nat) : result json :=
  match v with
  | JArr l => match l !! i with Some x => Ok x | None => Raise IndexError end
  | JStr s => match chars s !! i with Some c => Ok (JStr c) | None => Raise IndexError end
  | JObj _ => Raise (KeyError (pretty i))
  | _ => Raise TypeError
  end.

(** [k in v] for a [str] [k]: a key of a [dict], an element of a [list],
    a substring of a [str]. *)
Definition contains (k : string) (v : json) : result bool :=
  match v with
  | JObj kv => Ok (match lookup kv k with Some _ => true | None => false end)
  | JArr l => Ok (existsb (fun x => match x with JStr s => String.eqb s k | _ => false end) l)
  | JStr s => Ok (PyStr.contains k s)
  | _ => Raise TypeError
  end.

Section Repr.
Context (rt : runtime).

(** [repr(v)] and [str(v)] *)
Fixpoint repr (v : json) : string :=
  match v with
  | JNull => "None"
  | JBool true => "True"
  | JBool false => "False"
  | JInt n => pretty n
  | JFloat r => r
  | JStr s => repr_str rt s
  | JArr l => "[" +:+ join ", " (map repr l) +:+ "]"
  | JObj kv =>
      "{" +:+ join ", " (map (fun p => repr_str rt (fst p) +:+ ": " +:+ repr (snd p)) kv) +:+ "}"
  end.

Definition str (v : json) : string :=
  match v with
  | JStr s => s
  | _ => repr v
  end.
End Repr.

End Py.

(** ** The outside world *)

(** How a call to the repository host ends: it returns, it raises
    [GithubException] with a status, or it raises something else. *)
Inductive outcome (A : Type) : Type :=
| Done (a : A)
| Github (status : Z)
| Failed.
Arguments Done {A} a.
Arguments Github {A} status.
Arguments Failed {A}.

(** The repository object of the host's client library. *)
Record repo : Type := { full_name : string; html_url : string }.

Inductive content : Type :=
| Text (s : string)
| Binary (b : bytes).

(** What [load_processed] finds at [PROCESSED_PATH]: no file; a file
    whose text is no JSON; a file on which [json.load] raises another
    exception; a JSON object, as [save_processed] writes it; or another
    JSON value. *)
Inductive ledger_file : Type :=
| Absent
| Undecodable
| Unreadable (e : exn)
| Stored (m : gmap string json)
| Other (v : json).

(** One call to the outside world, with the answer it got. *)
Inductive event : Type :=
| GetRepo (name : json) (r : outcome repo)
| CreateRepo (name : json) (description : string) (r : outcome repo)
| GetContents (path : string) (r : outcome (string * bytes))
| UpdateFile (path message : string) (c : content) (sha : string) (r : outcome unit)
| CreateFile (path message : string) (c : content) (r : outcome unit)
| PagesPost (url : string) (r : option Z)
| GetCommits (r : option string)
| Generate (prompt : string) (r : option json)
| Notify (url payload : json) (delivered : bool)
| LoadProcessed (f : ledger_file)
| SaveProcessed (m : gmap string json)
| AddTask (data : json).

(** The environment variables read at import time. *)
Record config : Type := {
  USER_SECRET : option string;
  USERNAME : option string;
}.

(** The answers of the outside world; each may depend on the calls made
    so far. [w_notify] stands for [app.notify.notify_evaluation_server],
    which either returns or raises. *)
Record world : Type := {
  (** [user.get_repo(name)] *)
  w_get_repo : list event -> json -> outcome repo;
  (** [user.create_repo(name=..., description=..., private=False, auto_init=False)] *)
  w_create_repo : list event -> json -> string -> outcome repo;
  (** [repo.get_contents(path)]: the [sha] and the decoded content *)
  w_get_contents : list event -> repo -> string -> outcome (string * bytes);
  (** [repo.update_file(path, message, content, sha=sha)] *)
  w_update_file : list event -> repo -> string -> string -> content -> string -> outcome unit;
  (** [repo.create_file(path, message, content)] *)
  w_create_file : list event -> repo -> string -> string -> content -> outcome unit;
  (** status code of [httpx.post(url, ...)], [None] when it raises *)
  w_pages_post : list event -> string -> option Z;
  (** [repo.get_commits()[0].sha], [None] when it raises *)
  w_get_commits : list event -> repo -> option string;
  (** [resp.json()] of the generator's answer to the prompt, [None] when the
      request, [raise_for_status] or the JSON decoding raises *)
  w_generate : list event -> string -> option json;
  (** whether the notifier returns ([true]) or raises ([false]) *)
  w_notify : list event -> json -> json -> bool;
  (** whether a local file can be opened for writing *)
  w_writable : string -> bool;
  (** the file that a path names, as the operating system resolves it
      (from the working directory, through [..] and links): two paths name
      the same file exactly when they have the same image *)
  w_file : string -> string;
  (** [datetime.utcnow().year] *)
  w_year : Z;
}.

(** The content of a local file: bytes, or what [save_processed] wrote.
    The latter is kept as the mapping it holds: [json.load] reads back
    the mapping that [json.dump] wrote. *)
Inductive file : Type :=
| Raw (b : bytes)
| Dumped (m : gmap string json).

Definition PROCESSED_PATH : string := "/tmp/processed_requests.json".

(** The state a run threads: the local files, keyed by the file a path
    names (those written under [TMP_DIR] and [./generated_app], and the
    ledger file, which is the file that [PROCESSED_PATH] names), and the
    calls made so far. Messages printed to the log are not part of it. *)
Record state : Type := {
  fs : gmap string file;
  trace : list event;
}.

(** ** The monad of state and exceptions *)

Definition M (A : Type) : Type := state -> result A * state.

Definition ret {A} (a : A) : M A := fun st => (Ok a, st).

Definition raise {A} (e : exn) : M A := fun st => (Raise e, st).

Definition bind {A B} (m : M A) (k : A -> M B) : M B :=
  fun st =>
    match m st with
    | (Ok a, st') => k a st'
    | (Raise e, st') => (Raise e, st')
    end.

Notation "x <- m ;; k" := (bind m (fun x => k))
  (at level 100, m at next level, right associativity).
Notation "m ;;; k" := (bind m (fun _ => k))
  (at level 100, right associativity).

(** A pure computation that may raise. *)
Definition lift {A} (r : result A) : M A := fun st => (r, st).

(** [try: m except Exception: h] *)
Definition catch {A} (m : M A) (h : exn -> M A) : M A :=
  fun st =>
    match m st with
    | (Ok a, st') => (Ok a, st')
    | (Raise e, st') => h e st'
    end.

(** [for x in l: body(x)] *)
Fixpoint for_each {A} (l : list A) (body : A -> M unit) : M unit :=
  match l with
  | [] => ret tt
  | x :: l' => body x ;;; for_each l' body
  end.

(** A call to the outside world: the answer is computed from the calls
    made so far, and the call is recorded with its answer. *)
Definition call {A} (answer : list event -> A) (record : A -> event) : M A :=
  fun st =>
    let a := answer (trace st) in
    (Ok a, {| fs := fs st; trace := trace st ++ [record a] |}).

(** ** Local files *)

Definition utf8_encode (s : string) : bytes := String.list_byte_of_string s.

Section Files.
Context (rt : runtime) (w : world).

(** The bytes of a file. *)
Definition file_bytes (f : file) : bytes :=
  match f with
  | Raw b => b
  | Dumped m => json_dump rt m
  end.

(** The bytes of the file at a path, [None] when there is no such file. *)
Definition read_file (p : string) : M (option bytes) :=
  fun st => (Ok (file_bytes <$> fs st !! w_file w p), st).

(** [with open(p, "wb") as f: f.write(b)] *)
Definition write_file (p : string) (b : bytes) : M unit :=
  fun st =>
    if w_writable w p
    then (Ok tt, {| fs := <[w_file w p := Raw b]> (fs st); trace := trace st |})
    else (Raise OSError, st).

(** [with open(p, "w", encoding="utf-8") as f: f.write(s)]. Opening
    the file empties it; a text that cannot be encoded makes [write] raise
    before anything is written. *)
Definition write_text (p : string) (s : string) : M unit :=
  fun st =>
    if w_writable w p then
      if surrogate_free s
      then (Ok tt, {| fs := <[w_file w p := Raw (utf8_encode s)]> (fs st); trace := trace st |})
      else (Raise UnicodeEncodeError,
            {| fs := <[w_file w p := Raw []]> (fs st); trace := trace st |})
    else (Raise OSError, st).

(** What [load_processed] finds in a file. *)
Definition found (f : option file) : ledger_file :=
  match f with
  | None => Absent
  | Some (Dumped m) => Stored m
  | Some (Raw b) =>
      match json_load rt b with
      | Broken e => Unreadable e
      | NotJson => Undecodable
      | Loaded (JObj kv) => Stored (list_to_map kv)
      | Loaded v => Other v
      end
  end.

(** The ledger file as it is in a state. *)
Definition ledger (st : state) : ledger_file := found (fs st !! w_file w PROCESSED_PATH).
End Files.

(** ** app/llm_generator.py *)

(** An entry of the list [decode_attachments] returns. Its [name] is always
    a [str]: joining [TMP_DIR] with anything else raises inside the [try]. *)
Record saved : Type := {
  att_name : string;
  att_path : string;
  att_mime : string;
  att_size : nat;
}.

(** The dictionary [generate_app_code] returns, with its keys [files] and
    [attachments]; the files keep the order in which they are inserted. *)
Record generated : Type := {
  gen_files : list (string * string);
  gen_attachments : list saved;
}.

(** A text given line by line. *)
Definition lines (l : list string) : string := join nl l.

Section Generator.
Context (rt : runtime) (w : world).

(** The body of the loop of [decode_attachments] for one entry: the
    entries to append to [saved]. *)
Definition decode_attachment (att : json) : M (list saved) :=
  name0 <- lift (Py.get att "name" JNull) ;;
  let name := Py.or_else name0 (JStr "attachment") in
  url <- lift (Py.get att "url" (JStr EmptyString)) ;;
  match url with
  | JStr url =>
      if negb (startswith url "data:") then ret []
      else
        catch
          (match partition "," url with
           | None => raise ValueError
           | Some (header, b64data) =>
               let mime := replace "data:" EmptyString (hd EmptyString (split ";" header)) in
               match b64decode rt b64data with
               | None => raise ValueError
               | Some data =>
                   match name with
                   | JStr name =>
                       let path := tmp_path rt name in
                       write_file w path data ;;;
                       ret [ {| att_name := name; att_path := path;
                                att_mime := mime; att_size := List.length data |} ]
                   | _ => raise TypeError
                   end
               end
           end)
          (fun _ => ret [])
  | _ => raise AttributeError
  end.

Fixpoint decode_loop (l : list json) : M (list saved) :=
  match l with
  | [] => ret []
  | att :: l' =>
      s <- decode_attachment att ;;
      rest <- decode_loop l' ;;
      ret (s ++ rest)%list
  end.

(** [for att in attachments or []]: a [list] gives its elements; the
    elements of a non-empty [str] or [dict] are strings, which have no
    [get]; the other values that count as true are not iterable. *)
Definition decode_attachments (attachments : json) : M (list saved) :=
  match Py.or_else attachments (JArr []) with
  | JArr l => decode_loop l
  | JStr _ | JObj _ => raise AttributeError
  | _ => raise TypeError
  end.

Definition text_like (mime nm : string) : bool :=
  startswith mime "text"
  || endswith nm ".md" || endswith nm ".txt" || endswith nm ".json" || endswith nm ".csv".

Definition summarize_attachment (s : saved) : M string :=
  let nm := att_name s in
  let mime := att_mime s in
  if text_like mime nm then
    f <- read_file rt w (att_path s) ;;
    match f with
    | Some b =>
        let preview := take_chars 1000 (replace nl "\n" (read_1000 rt b)) in
        ret ("- " +:+ nm +:+ " (" +:+ mime +:+ "): preview: " +:+ preview)
    | None =>
        ret ("- " +:+ nm +:+ " (" +:+ mime +:+ "): (could not read preview: "
             +:+ strerror rt (att_path s) +:+ ")")
    end
  else
    ret ("- " +:+ nm +:+ " (" +:+ mime +:+ "): " +:+ pretty (att_size s) +:+ " bytes").

Fixpoint summarize_loop (l : list saved) : M (list string) :=
  match l with
  | [] => ret []
  | s :: l' =>
      x <- summarize_attachment s ;;
      rest <- summarize_loop l' ;;
      ret (x :: rest)
  end.

Definition summarize_attachment_meta (l : list saved) : M string :=
  summaries <- summarize_loop l ;;
  ret (join "\n" summaries).

Definition _strip_code_block (text : string) : string :=
  if contains "```" text then
    match split "```" text with
    | _ :: part :: _ => strip part
    | _ => strip text
    end
  else strip text.

(** ["\\n".join(checks or [])]: the elements of a [list] must all be
    [str]; a [str] is joined character by character and a [dict] key by
    key; nothing else that counts as true is iterable. *)
Fixpoint all_str (l : list json) : option (list string) :=
  match l with
  | [] => Some []
  | JStr s :: l' => match all_str l' with Some r => Some (s :: r) | None => None end
  | _ :: _ => None
  end.

Definition join_checks (checks : json) : result string :=
  match Py.or_else checks (JArr []) with
  | JArr l => match all_str l with Some r => Ok (join "\n" r) | None => Raise TypeError end
  | JStr s => Ok (join "\n" (chars s))
  | JObj kv => Ok (join "\n" (map fst kv))
  | _ => Raise TypeError
  end.

Definition readme_template (round_num brief att_text checks_text : string) : string :=
  lines
    [ "# Auto-generated README (Round " +:+ round_num +:+ ")";
      "";
      "**Project brief:** " +:+ brief;
      "";
      "**Attachments:**";
      att_text;
      "";
      "**Checks to meet:**";
      checks_text;
      "";
      "## Setup";
      "1. Open `index.html` in a browser.";
      "2. No build steps required.";
      "";
      "## Notes";
      "This README was generated as a fallback (AI Pipe did not return an explicit README).";
      "" ].

Definition generate_readme_fallback
    (brief checks : json) (attachments_meta : string) (round_num : json) : result string :=
  checks_text <~ join_checks checks ;;
  let att_text := attachments_meta in
  Ok (readme_template (Py.str rt round_num) (Py.str rt brief) att_text checks_text).

Definition context_note (round_num : json) (prev_readme : option string) : string :=
  match prev_readme with
  | Some r =>
      if Py.eq_int round_num 2 && negb (String.eqb r EmptyString) then
        lines [ ""; "### Previous README.md:"; r; "";
                "Revise and enhance this project according to the new brief below."; "" ]
      else EmptyString
  | None => EmptyString
  end.

Definition prompt_template (round_num brief note attachments_meta checks : string) : string :=
  lines
    [ "";
      "You are a professional web developer assistant.";
      "";
      "### Round";
      round_num;
      "";
      "### Task";
      brief;
      "";
      note;
      "";
      "### Attachments (if any)";
      attachments_meta;
      "";
      "### Evaluation checks";
      checks;
      "";
      "### Output format rules:";
      "1. Produce a complete web app (HTML/JS/CSS inline if needed) satisfying the brief.";
      "2. Output must contain **two parts only**:";
      "   - index.html (main code)";
      "   - README.md (starts after a line containing exactly: ---README.md---)";
      "3. README.md must include:";
      "   - Overview";
      "   - Setup";
      "   - Usage";
      "   - If Round 2, describe improvements made from previous version.";
      "4. Do not include any commentary outside code or README.";
      "" ].

Definition fallback_template (brief readme : string) : string :=
  lines
    [ "";
      "<html>";
      "  <head><title>Fallback App</title></head>";
      "  <body>";
      "    <h1>Hello (fallback)</h1>";
      "    <p>This app was generated as a fallback because AI Pipe failed. Brief: "
        +:+ brief +:+ "</p>";
      "  </body>";
      "</html>";
      "";
      "---README.md---";
      readme;
      "" ].

(** The text that the [except] branch of [generate_app_code] builds. *)
Definition fallback_text
    (brief checks : json) (attachments_meta : string) (round_num : json) : result string :=
  readme <~ generate_readme_fallback brief checks attachments_meta round_num ;;
  Ok (fallback_template (Py.str rt brief) readme).

(** The text found in the generator's answer: the first content item of
    its second output block, or the empty string. *)
Definition extract_text (resp_json : json) : result json :=
  output <~ Py.get resp_json "output" JNull ;;
  if Py.truthy output then
    n <~ Py.len output ;;
    if (1 <? n)%nat then
      message_block <~ Py.index output 1 ;;
      has_content <~ Py.contains "content" message_block ;;
      if has_content then
        content <~ Py.getitem message_block "content" ;;
        m <~ Py.len content ;;
        if (0 <? m)%nat then
          first <~ Py.index content 0 ;;
          Py.get first "text" (JStr EmptyString)
        else Ok (JStr EmptyString)
      else Ok (JStr EmptyString)
    else Ok (JStr EmptyString)
  else Ok (JStr EmptyString).

(** The [try] block around the generator call, with its [except] branch:
    the text to split, still of any type. *)
Definition generated_text
    (brief checks : json) (attachments_meta : string) (round_num : json)
    (prompt : string) : M json :=
  catch
    (resp <- call (fun h => w_generate w h prompt) (Generate prompt) ;;
     match resp with
     | None => raise OtherError
     | Some resp_json =>
         text <- lift (extract_text resp_json) ;;
         if Py.truthy text then ret text else raise ValueError
     end)
    (fun _ =>
       text <- lift (fallback_text brief checks attachments_meta round_num) ;;
       ret (JStr text)).

(** Splitting the text into [code_part] and [readme_part]. On a value
    that is not a [str], [in] raises [TypeError] unless the value is a
    [list] or a [dict], which then have neither [split] nor [strip]. *)
Definition split_text
    (brief checks : json) (attachments_meta : string) (round_num : json)
    (text : json) : M (string * string) :=
  match text with
  | JStr text =>
      match partition "---README.md---" text with
      | Some (code_part, readme_part) =>
          ret (_strip_code_block code_part, _strip_code_block readme_part)
      | None =>
          let code_part := _strip_code_block text in
          readme_part <- lift (generate_readme_fallback brief checks attachments_meta round_num) ;;
          ret (code_part, readme_part)
      end
  | JArr _ | JObj _ => raise AttributeError
  | _ => raise TypeError
  end.

(** [generate_app_code] up to the point where it saves the files: the
    decoded attachments and the two documents, [code_part] and
    [readme_part]. *)
Definition generate_documents
    (brief attachments checks round_num : json) (prev_readme : option string)
  : M (list saved * (string * string)) :=
  saved <- decode_attachments (Py.or_else attachments (JArr [])) ;;
  attachments_meta <- summarize_attachment_meta saved ;;
  let note := context_note round_num prev_readme in
  let prompt :=
    prompt_template (Py.str rt round_num) (Py.str rt brief) note attachments_meta
      (Py.str rt (Py.or_else checks (JArr []))) in
  text <- generated_text brief checks attachments_meta round_num prompt ;;
  parts <- split_text brief checks attachments_meta round_num text ;;
  ret (saved, parts).

Definition generate_app_code
    (brief attachments checks round_num : json) (prev_readme : option string) : M generated :=
  documents <- generate_documents brief attachments checks round_num prev_readme ;;
  let saved := fst documents in
  let code_part := fst (snd documents) in
  let readme_part := snd (snd documents) in
  write_text w "generated_app/index.html" code_part ;;;
  write_text w "generated_app/README.md" readme_part ;;;
  ret {| gen_files := [("index.html", code_part); ("README.md", readme_part)];
         gen_attachments := saved |}.
End Generator.

(** ** app/github_utils.py *)

Section Github.
Context (rt : runtime) (cfg : config) (w : world).

(** What a call that raised lets through to its caller. *)
Definition expect {A} (r : outcome A) : M A :=
  match r with
  | Done a => ret a
  | Github status => raise (GithubException status)
  | Failed => raise OtherError
  end.

Definition create_repo (repo_name : json) (description : string) : M repo :=
  r <- call (fun h => w_get_repo w h repo_name) (GetRepo repo_name) ;;
  match r with
  | Done repo => ret repo
  | Github status =>
      if negb (Z.eqb status 404) then raise (GithubException status)
      else
        r <- call (fun h => w_create_repo w h repo_name description)
                  (CreateRepo repo_name description) ;;
        expect r
  | Failed => raise OtherError
  end.

Definition create_or_update_file (rp : repo) (path : string) (c : content) (message : string)
  : M unit :=
  let on_github status :=
    if Z.eqb status 404 then
      r <- call (fun h => w_create_file w h rp path message c) (CreateFile path message c) ;;
      expect r
    else raise (GithubException status) in
  existing <- call (fun h => w_get_contents w h rp path) (GetContents path) ;;
  match existing with
  | Done (sha, _) =>
      r <- call (fun h => w_update_file w h rp path message c sha)
                (UpdateFile path message c sha) ;;
      match r with
      | Done _ => ret tt
      | Github status => on_github status
      | Failed => raise OtherError
      end
  | Github status => on_github status
  | Failed => raise OtherError
  end.

Definition create_or_update_binary_file
    (rp : repo) (path : string) (binary_content : bytes) (commit_message : string) : M unit :=
  let b64_content := b64encode rt binary_content in
  create_or_update_file rp path (Binary binary_content) commit_message ;;;
  let backup_path := "attachments/" +:+ basename path +:+ ".b64" in
  let message := "Backup " +:+ path in
  let on_github status :=
    if Z.eqb status 404 then
      r <- call (fun h => w_create_file w h rp backup_path message (Text b64_content))
                (CreateFile backup_path message (Text b64_content)) ;;
      expect r
    else ret tt in
  existing_backup <- call (fun h => w_get_contents w h rp backup_path) (GetContents backup_path) ;;
  match existing_backup with
  | Done (sha, _) =>
      r <- call (fun h => w_update_file w h rp backup_path message (Text b64_content) sha)
                (UpdateFile backup_path message (Text b64_content) sha) ;;
      match r with
      | Done _ => ret tt
      | Github status => on_github status
      | Failed => raise OtherError
      end
  | Github status => on_github status
  | Failed => raise OtherError
  end.

(** [f"{v}"] of an environment variable. *)
Definition str_env (v : option string) : string :=
  match v with Some s => s | None => "None" end.

Definition enable_pages (repo_name : json) : M bool :=
  let url :=
    "https://api.github.com/repos/" +:+ str_env (USERNAME cfg) +:+ "/"
      +:+ Py.str rt repo_name +:+ "/pages" in
  r <- call (fun h => w_pages_post w h url) (PagesPost url) ;;
  match r with
  | Some status_code =>
      ret (Z.eqb status_code 201 || Z.eqb status_code 204 || Z.eqb status_code 202)
  | None => ret false
  end.

Definition generate_mit_license : string :=
  let year := w_year w in
  let owner :=
    match USERNAME cfg with
    | Some u => if String.eqb u EmptyString then "Owner" else u
    | None => "Owner"
    end in
  lines
    [ "MIT License";
      "";
      "Copyright (c) " +:+ pretty year +:+ " " +:+ owner;
      "";
      "Permission is hereby granted, free of charge, to any person obtaining a copy";
      "of this software and associated documentation files (the " +:+ dq +:+ "Software"
        +:+ dq +:+ "), to deal";
      "in the Software without restriction, including without limitation the rights";
      "to use, copy, modify, merge, publish, distribute, sublicense, and/or sell";
      "copies of the Software, and to permit persons to whom the Software is";
      "furnished to do so, subject to the following conditions:";
      "";
      "The above copyright notice and this permission notice shall be included in all";
      "copies or substantial portions of the Software.";
      "";
      "THE SOFTWARE IS PROVIDED " +:+ dq +:+ "AS IS" +:+ dq
        +:+ ", WITHOUT WARRANTY OF ANY KIND, EXPRESS OR";
      "IMPLIED, INCLUDING BUT NOT LIMITED TO THE WARRANTIES OF MERCHANTABILITY,";
      "FITNESS FOR A PARTICULAR PURPOSE AND NONINFRINGEMENT. IN NO EVENT SHALL THE";
      "AUTHORS OR COPYRIGHT HOLDERS BE LIABLE FOR ANY CLAIM, DAMAGES OR OTHER";
      "LIABILITY, WHETHER IN AN ACTION OF CONTRACT, TORT OR OTHERWISE, ARISING FROM,";
      "OUT OF OR IN CONNECTION WITH THE SOFTWARE OR THE USE OR OTHER DEALINGS IN THE";
      "SOFTWARE.";
      "" ].
End Github.

(** ** app/main.py *)

(** The mapping that the ledger file holds; it is empty when there is no
    file, and when the file holds no JSON object. *)
Definition stored (f : ledger_file) : gmap string json :=
  match f with
  | Stored m => m
  | Absent | Undecodable | Unreadable _ | Other _ => ∅
  end.

(** What [load_processed] returns: a [dict], or the JSON value of another
    type that the file holds. *)
Inductive processed : Type :=
| Mapping (m : gmap string json)
| Value (v : json).

(** [key in processed] *)
Definition has_key (p : processed) (key : string) : result bool :=
  match p with
  | Mapping m => Ok (match m !! key with Some _ => true | None => false end)
  | Value v => Py.contains key v
  end.

(** [processed[key]] *)
Definition item (p : processed) (key : string) : result json :=
  match p with
  | Mapping m => match m !! key with Some v => Ok v | None => Raise (KeyError key) end
  | Value v => Py.getitem v key
  end.

(** [processed[key] = payload]: only a [dict] takes a [str] key. *)
Definition set_item (p : processed) (key : string) (payload : json)
  : result (gmap string json) :=
  match p with
  | Mapping m => Ok (<[key := payload]> m)
  | Value _ => Raise TypeError
  end.

Section Ledger.
Context (rt : runtime) (w : world).

(** Only [JSONDecodeError] is caught: any other exception of
    [json.load], such as [UnicodeDecodeError] on a file whose bytes are no
    text, is raised. *)
Definition load_processed : M processed :=
  fun st =>
    let f := ledger rt w st in
    let st' := {| fs := fs st; trace := trace st ++ [LoadProcessed f] |} in
    match f with
    | Absent | Undecodable => (Ok (Mapping ∅), st')
    | Stored m => (Ok (Mapping m), st')
    | Other v => (Ok (Value v), st')
    | Unreadable e => (Raise e, st')
    end.

(** [json.dump(data, open(PROCESSED_PATH, "w"), indent=2)] *)
Definition save_processed (data : gmap string json) : M unit :=
  fun st =>
    if w_writable w PROCESSED_PATH
    then (Ok tt, {| fs := <[w_file w PROCESSED_PATH := Dumped data]> (fs st);
                    trace := trace st ++ [SaveProcessed data] |})
    else (Raise OSError, st).
End Ledger.

(** A JSON value that is [None] or the given string. *)
Definition opt_str (s : option string) : json :=
  match s with Some x => JStr x | None => JNull end.

(** The payload sent to the evaluation server and stored in the ledger. *)
Definition round_outcome
    (email task round_num nonce : json) (rp : repo) (commit_sha : option string)
    (pages_url : json) : json :=
  JObj [ ("email", email); ("task", task); ("round", round_num); ("nonce", nonce);
         ("repo_url", JStr (html_url rp)); ("commit_sha", opt_str commit_sha);
         ("pages_url", pages_url) ].

Section Main.
Context (rt : runtime) (cfg : config) (w : world).

(** The key under which a round is stored in the ledger, as both
    [receive_request] and [process_request] write it. *)
Definition ledger_key (email task round_num nonce : json) : string :=
  Py.str rt email +:+ "::" +:+ Py.str rt task +:+ "::round" +:+ Py.str rt round_num
    +:+ "::nonce" +:+ Py.str rt nonce.

Definition pages_address (task_id : json) : json :=
  JStr ("https://" +:+ str_env (USERNAME cfg) +:+ ".github.io/" +:+ Py.str rt task_id +:+ "/").

(** Modelled from the spec: [app/notify.py], which defines
    [notify_evaluation_server], is not among the sources. The notifier
    delivers the payload to the URL, best-effort: the call is recorded and
    either returns or raises, as the world decides. *)
Definition notify_evaluation_server (url payload : json) : M unit :=
  delivered <- call (fun h => w_notify w h url payload) (Notify url payload) ;;
  if delivered then ret tt else raise OtherError.

(** The body of the loop that commits the decoded attachments. *)
Definition commit_attachment (rp : repo) (att : saved) : M unit :=
  catch
    (f <- read_file rt w (att_path att) ;;
     match f with
     | None => raise OSError
     | Some content_bytes =>
         let name := att_name att in
         if startswith (att_mime att) "text"
            || endswith name ".md" || endswith name ".csv"
            || endswith name ".json" || endswith name ".txt"
         then
           let text := utf8_ignore rt content_bytes in
           create_or_update_file w rp ("attachments/" +:+ name) (Text text)
             ("Add attachment " +:+ name)
         else
           create_or_update_binary_file rt w rp ("attachments/" +:+ name) content_bytes
             ("Add binary " +:+ name) ;;;
           let b64 := b64encode rt content_bytes in
           create_or_update_file w rp ("attachments/" +:+ name +:+ ".b64") (Text b64)
             ("Backup " +:+ name +:+ ".b64")
     end)
    (fun _ => ret tt).

(** The body of the loop that commits the generated files. *)
Definition commit_file (rp : repo) (round_num : json) (f : string * string) : M unit :=
  let fname := fst f in
  catch
    (create_or_update_file w rp fname (Text (snd f))
       ("Add/Update " +:+ fname +:+ " for round " +:+ Py.str rt round_num))
    (fun _ => ret tt).

(** Steps 2 to 9 of [process_request], once the repository is there. *)
Definition run_round (data round_num task_id attachments : json) (rp : repo) : M unit :=
  prev_readme <-
    (if Py.eq_int round_num 2 then
       catch
         (readme_file <- call (fun h => w_get_contents w h rp "README.md")
                              (GetContents "README.md") ;;
          r <- expect readme_file ;;
          ret (Some (utf8_ignore rt (snd r))))
         (fun _ => ret None)
     else ret None) ;;
  brief <- lift (Py.getitem data "brief") ;;
  checks <- lift (Py.get data "checks" (JArr [])) ;;
  gen <- generate_app_code rt w brief attachments checks round_num prev_readme ;;
  let files := gen_files gen in
  let saved_info := gen_attachments gen in
  (if Py.eq_int round_num 1 then for_each saved_info (commit_attachment rp) else ret tt) ;;;
  for_each files (commit_file rp round_num) ;;;
  catch
    (create_or_update_file w rp "LICENSE" (Text (generate_mit_license cfg w)) "Add MIT license")
    (fun _ => ret tt) ;;;
  pages_url <-
    catch
      (if Py.eq_int round_num 1 then
         pages_ok <- enable_pages rt cfg w task_id ;;
         ret (if pages_ok then pages_address task_id else JNull)
       else ret (pages_address task_id))
      (fun _ => ret JNull) ;;
  commit_sha <- call (fun h => w_get_commits w h rp) GetCommits ;;
  email <- lift (Py.getitem data "email") ;;
  task <- lift (Py.getitem data "task") ;;
  nonce <- lift (Py.getitem data "nonce") ;;
  let payload := round_outcome email task round_num nonce rp commit_sha pages_url in
  catch
    (url <- lift (Py.get data "evaluation_url" JNull) ;;
     notify_evaluation_server url payload)
    (fun _ => ret tt) ;;;
  processed <- load_processed rt w ;;
  email <- lift (Py.getitem data "email") ;;
  task <- lift (Py.getitem data "task") ;;
  nonce <- lift (Py.getitem data "nonce") ;;
  let key := ledger_key email task round_num nonce in
  processed <- lift (set_item processed key payload) ;;
  save_processed w processed.

Definition process_request (data : json) : M unit :=
  round_num <- lift (Py.get data "round" (JInt 1)) ;;
  task_id <- lift (Py.getitem data "task") ;;
  attachments <- lift (Py.get data "attachments" (JArr [])) ;;
  _ <- decode_attachments rt w attachments ;;
  fun st =>
    match (brief <- lift (Py.getitem data "brief") ;;
           create_repo w task_id ("Auto-generated app for task: " +:+ Py.str rt brief)) st with
    | (Raise _, st') => (Ok tt, st')
    | (Ok rp, st') => run_round data round_num task_id attachments rp st'
    end.

Definition receive_request (data : json) : M json :=
  secret <- lift (Py.get data "secret" JNull) ;;
  if negb (Py.eq_optstr secret (USER_SECRET cfg)) then
    ret (JObj [("error", JStr "Invalid secret")])
  else
    processed <- load_processed rt w ;;
    email <- lift (Py.getitem data "email") ;;
    task <- lift (Py.getitem data "task") ;;
    round_num <- lift (Py.getitem data "round") ;;
    nonce <- lift (Py.getitem data "nonce") ;;
    let key := ledger_key email task round_num nonce in
    known <- lift (has_key processed key) ;;
    if known then
      prev <- lift (item processed key) ;;
      catch
        (url <- lift (Py.get data "evaluation_url" JNull) ;;
         notify_evaluation_server url prev)
        (fun _ => ret tt) ;;;
      ret (JObj [("status", JStr "ok"); ("note", JStr "duplicate handled & re-notified")])
    else
      call (fun _ => tt) (fun _ => AddTask data) ;;;
      round_num <- lift (Py.getitem data "round") ;;
      ret (JObj [("status", JStr "accepted");
                 ("note", JStr ("processing round " +:+ Py.str rt round_num +:+ " started"))]).
End Main.

(** ** A concrete runtime and world for the examples *)

Module Example.

(** A runtime that agrees with Python on the values the examples use:
    strings without quotes or escapes, and the base64 text [aGk=]. The
    only bytes that the examples could read as JSON are those of [hi],
    which are no JSON, and no example reads the bytes of a ledger file. *)
Definition rt : runtime := {|
  repr_str s := "'" +:+ s +:+ "'";
  b64decode s :=
    if String.eqb s "aGk=" then Some (utf8_encode "hi") else None;
  b64encode b :=
    if String.eqb (string_of_list_byte b) "hi" then "aGk=" else EmptyString;
  utf8_ignore b := string_of_list_byte b;
  read_1000 b := string_of_list_byte b;
  tmp_path n := "/tmp/llm_attachments/" +:+ n;
  strerror p := "[Errno 2] No such file or directory: '" +:+ p +:+ "'";
  json_load _ := NotJson;
  json_dump _ := [];
|}.

Definition cfg : config := {| USER_SECRET := Some "s3cret"; USERNAME := Some "alice" |}.

Definition demo1 : repo :=
  {| full_name := "alice/demo1"; html_url := "https://github.com/alice/demo1" |}.

(** A world in which looking the repository up gives [found] and creating
    it fails, the repository holds no file yet (reading a path answers 404)
    and accepts every write, the Pages API answers with the status [pages],
    the generator gives [answer] ([None]: it is down), the notifier raises
    and the local disk is writable; every path names a file of its own. *)
Definition world_with (pages : Z) (found : outcome repo) (answer : option json) : world := {|
  w_get_repo _ _ := found;
  w_create_repo _ _ _ := Failed;
  w_get_contents _ _ _ := Github 404;
  w_update_file _ _ _ _ _ _ := Done tt;
  w_create_file _ _ _ _ _ := Done tt;
  w_pages_post _ _ := Some pages;
  w_get_commits _ _ := Some "abc123";
  w_generate _ _ := answer;
  w_notify _ _ _ := false;
  w_writable _ := true;
  w_file p := p;
  w_year := 2025;
|}.

Definition w : world := world_with 201 (Done demo1) None.

(** An answer of the generator that holds [text] where the adapter looks
    for it. *)
Definition answer (text : json) : json :=
  JObj [("output", JArr [JObj []; JObj [("content", JArr [JObj [("text", text)]])]])].

Definition start : state := {| fs := ∅; trace := [] |}.

Definition request (secret : string) (round_num : Z) : json :=
  JObj [ ("secret", JStr secret); ("email", JStr "a@b.c"); ("task", JStr "demo1");
         ("round", JInt round_num); ("nonce", JStr "abc"); ("brief", JStr "a todo app");
         ("checks", JArr [JStr "has add button"]);
         ("evaluation_url", JStr "http://eval") ].

Definition outcome1 : json :=
  JObj [ ("email", JStr "a@b.c"); ("task", JStr "demo1"); ("round", JInt 1);
         ("nonce", JStr "abc"); ("repo_url", JStr "https://github.com/alice/demo1");
         ("commit_sha", JStr "abc123");
         ("pages_url", JStr "https://alice.github.io/demo1/") ].

(** The request without one of its fields. *)
Definition without (k : string) (data : json) : json :=
  match data with
  | JObj kv => JObj (List.filter (fun p => negb (String.eqb (fst p) k)) kv)
  | _ => data
  end.

Definition fields (data : json) : list (string * json) :=
  match data with
  | JObj kv => kv
  | _ => []
  end.

(** The state after round 1 of [request] was processed. *)
Definition processed1 : state :=
  {| fs := {[ PROCESSED_PATH := Dumped {[ "a@b.c::demo1::round1::nonceabc" := outcome1 ]} ]};
     trace := [] |}.

End Example.

(** ** Vocabulary of the statements *)

(** The two fixed answers of the intake handler. *)
Definition invalid_secret : json := JObj [("error", JStr "Invalid secret")].

Definition duplicate_handled : json :=
  JObj [("status", JStr "ok"); ("note", JStr "duplicate handled & re-notified")].

(** The state after [load_processed] read the ledger, and after one more
    call to the outside world. *)
Definition then_called (st : state) (e : event) : state :=
  {| fs := fs st; trace := trace st ++ [e] |}.

Definition looked_up (rt : runtime) (w : world) (st : state) : state :=
  then_called st (LoadProcessed (ledger rt w st)).

(** A ledger file from which [load_processed] returns a [dict]: there is
    none, or it holds no JSON, or it holds a JSON object. *)
Definition regular (f : ledger_file) : bool :=
  match f with
  | Absent | Undecodable | Stored _ => true
  | Unreadable _ | Other _ => false
  end.

(** The answer to a request that was scheduled. *)
Definition accepted (rt : runtime) (round_num : json) : json :=
  JObj [("status", JStr "accepted");
        ("note", JStr ("processing round " +:+ Py.str rt round_num +:+ " started"))].

(** The first of [keys] that the dictionary lacks. *)
Definition first_absent (kv : list (string * json)) (keys : list string) : option string :=
  List.find (fun k => match Py.lookup kv k with None => true | Some _ => false end) keys.

Definition identity_fields : list string := ["email"; "task"; "round"; "nonce"].

(** A string without the character that the ledger key uses as delimiter. *)
Fixpoint colon_free (s : string) : bool :=
  match s with
  | EmptyString => true
  | String c s' => negb (Ascii.eqb c ":") && colon_free s'
  end.

(** [emits P m]: whatever [m] does, the calls it makes to the outside
    world all satisfy [P]. *)
Definition emits {A} (P : event -> Prop) (m : M A) : Prop :=
  forall st r st',
    m st = (r, st') -> exists evs, trace st' = trace st ++ evs /\ Forall P evs.

(** [keeps q m]: whatever [m] does, it leaves the file [q] as it was. *)
Definition keeps {A} (q : string) (m : M A) : Prop :=
  forall st r st', m st = (r, st') -> fs st' !! q = fs st !! q.

(** The calls that acquire the repository. *)
Definition acquisition (e : event) : Prop :=
  match e with
  | GetRepo _ _ | CreateRepo _ _ _ => True
  | _ => False
  end.

(** The calls that read or write a file of the repository. *)
Definition file_call (e : event) : Prop :=
  match e with
  | GetContents _ _ | UpdateFile _ _ _ _ _ | CreateFile _ _ _ _ => True
  | _ => False
  end.

(** The calls a round makes before it publishes. *)
Definition staging (e : event) : Prop :=
  match e with
  | GetRepo _ _ | CreateRepo _ _ _ | GetContents _ _ | UpdateFile _ _ _ _ _
  | CreateFile _ _ _ _ | Generate _ _ => True
  | _ => False
  end.

(** Whether the calls made include one that returned the repository. *)
Definition repo_acquired (evs : list event) : bool :=
  existsb (fun e => match e with
                    | GetRepo _ (Done _) | CreateRepo _ _ (Done _) => true
                    | _ => false
                    end) evs.


(** A notification or a write of the ledger. *)
Definition dispatch (e : event) : bool :=
  match e with
  | Notify _ _ _ | SaveProcessed _ => true
  | _ => false
  end.

(** The status codes on which [enable_pages] returns [True]. *)
Definition activated (r : option Z) : bool :=
  match r with
  | Some status_code =>
      Z.eqb status_code 201 || Z.eqb status_code 204 || Z.eqb status_code 202
  | None => false
  end.

(** What the publish step did: on round 1 one request to the Pages API,
    whose status decides the address; on any other round no request, and
    the address as it is derived from the task. *)
Definition published (rt : runtime) (cfg : config) (round_num task_id : json)
    (pub : list event) (pages_url : json) : Prop :=
  if Py.eq_int round_num 1 then
    exists api status,
      pub = [PagesPost api status]
      /\ pages_url = (if activated status then pages_address rt cfg task_id else JNull)
  else pub = [] /\ pages_url = pages_address rt cfg task_id.

(** The field [k] of a request, [d] when it is absent. *)
Definition field_or (data : json) (k : string) (d : json) : json :=
  match Py.get data k d with
  | Ok v => v
  | Raise _ => d
  end.

(** The name under which an attachment entry is saved. *)
Definition entry_name (att : json) : json :=
  Py.or_else (field_or att "name" JNull) (JStr "attachment").

(** The paths at which the entries of an attachments value are saved, and
    the paths of the two documents. *)
Definition attachment_paths (rt : runtime) (atts : json) : list string :=
  match Py.or_else atts (JArr []) with
  | JArr l =>
      omap (fun att => match entry_name att with
                       | JStr name => Some (tmp_path rt name)
                       | _ => None
                       end) l
  | _ => []
  end.

Definition document_paths : list string :=
  ["generated_app/index.html"; "generated_app/README.md"].

(** None of the paths names the file [q]. *)
Definition apart (w : world) (q : string) (paths : list string) : Prop :=
  Forall (fun p => w_file w p <> q) paths.

(** None of the paths names the ledger file. *)
Definition off_ledger (w : world) (paths : list string) : Prop :=
  apart w (w_file w PROCESSED_PATH) paths.

(** The local paths at which a round writes before it reads the ledger. *)
Definition round_paths (rt : runtime) (data : json) : list string :=
  attachment_paths rt (field_or data "attachments" (JArr [])) ++ document_paths.

(** The exception that ends a round after the notification, when
    [json.load] raises on the ledger file, when the file holds a JSON
    value that is no object, or when it cannot be opened for writing. *)
Definition ledger_error (f : ledger_file) : exn :=
  match f with
  | Unreadable e => e
  | Other _ => TypeError
  | Absent | Undecodable | Stored _ => OSError
  end.

(** The ways a run of [process_request] ends: before the publish step
    (the repository was not acquired, or something raised); after the
    publish step but before the notification (an identity field is
    absent); or after the notification and the reading of the ledger
    file, found as [f]: the entry is then written when [f] gives a [dict]
    and the file can be opened for writing, and otherwise the run raises.
    When no local path of the round names the ledger file, the file is as
    it was until it is written. *)
Inductive round_end (rt : runtime) (cfg : config) (w : world) (data : json)
    (st : state) (r : result unit) (st' : state) : Prop :=
| Abandoned pre :
    Forall staging pre ->
    trace st' = trace st ++ pre ->
    (off_ledger w (round_paths rt data) -> ledger rt w st' = ledger rt w st) ->
    round_end rt cfg w data st r st'
| Unreported pre pub pages_url sha :
    Forall staging pre ->
    published rt cfg (field_or data "round" (JInt 1)) (field_or data "task" JNull) pub pages_url ->
    trace st' = trace st ++ pre ++ pub ++ [GetCommits sha] ->
    (off_ledger w (round_paths rt data) -> ledger rt w st' = ledger rt w st) ->
    round_end rt cfg w data st r st'
| Dispatched pre pub pages_url sha email task nonce rp delivered f :
    Forall staging pre ->
    published rt cfg (field_or data "round" (JInt 1)) (field_or data "task" JNull) pub pages_url ->
    Py.getitem data "email" = Ok email ->
    Py.getitem data "task" = Ok task ->
    Py.getitem data "nonce" = Ok nonce ->
    let round_num := field_or data "round" (JInt 1) in
    let payload := round_outcome email task round_num nonce rp sha pages_url in
    let m := <[ledger_key rt email task round_num nonce := payload]> (stored f) in
    let written := regular f && w_writable w PROCESSED_PATH in
    trace st' = trace st ++ pre ++ pub
                ++ [GetCommits sha;
                    Notify (field_or data "evaluation_url" JNull) payload delivered;
                    LoadProcessed f]
                ++ (if written then [SaveProcessed m] else []) ->
    (off_ledger w (round_paths rt data) -> f = ledger rt w st) ->
    ledger rt w st' = (if written then Stored m else f) ->
    r = (if written then Ok tt else Raise (ledger_error f)) ->
    round_end rt cfg w data st r st'.

(** [staged C q st0 st1]: from [st0] to [st1] only staging calls were
    made and, when [C] holds, the file [q] is as it was. *)
Definition staged (C : Prop) (q : string) (st0 st1 : state) : Prop :=
  (C -> fs st1 !! q = fs st0 !! q)
  /\ exists pre, trace st1 = trace st0 ++ pre /\ Forall staging pre.

(** The requests to the Pages API among the calls made. *)
Definition publish_calls (evs : list event) : list event :=
  List.filter (fun e => match e with PagesPost _ _ => true | _ => false end) evs.


(** An attachment entry on which [decode_attachments] does not raise: an
    object whose url, when present, is a string. *)
Definition entry_ok (att : json) : bool :=
  match att with
  | JObj kv =>
      match Py.lookup kv "url" with
      | None | Some (JStr _) => true
      | Some _ => false
      end
  | _ => false
  end.

(** An attachments value that is a list of such entries, or counts as
    false. *)
Definition attachments_ok (atts : json) : bool :=
  match Py.or_else atts (JArr []) with
  | JArr l => forallb entry_ok l
  | _ => false
  end.

(** A generator outcome that leads to the fallback: the call raised, or
    the answer holds no text at the expected place, or that text counts as
    false. *)
Definition failed (answer : option json) : bool :=
  match answer with
  | None => true
  | Some resp_json =>
      match extract_text resp_json with
      | Ok text => negb (Py.truthy text)
      | Raise _ => true
      end
  end.

(** A generator outcome that is a failure or whose text is a string. *)
Definition usable (answer : option json) : bool :=
  match answer with
  | None => true
  | Some resp_json =>
      match extract_text resp_json with
      | Ok (JStr _) => true
      | Ok text => negb (Py.truthy text)
      | Raise _ => true
      end
  end.

(** The attachment summary that [generate_app_code] computes from its
    attachments in a given state. *)
Definition attachment_summary (rt : runtime) (w : world) (atts : json) (st : state) : string :=
  match decode_attachments rt w (Py.or_else atts (JArr [])) st with
  | (Ok saved_list, st1) =>
      match summarize_attachment_meta rt w saved_list st1 with
      | (Ok meta, _) => meta
      | (Raise _, _) => EmptyString
      end
  | (Raise _, _) => EmptyString
  end.

(** The part of the fallback text that precedes the README marker. *)
Definition fallback_head (brief : string) : string :=
  lines
    [ "";
      "<html>";
      "  <head><title>Fallback App</title></head>";
      "  <body>";
      "    <h1>Hello (fallback)</h1>";
      "    <p>This app was generated as a fallback because AI Pipe failed. Brief: "
        +:+ brief +:+ "</p>";
      "  </body>";
      "</html>";
      "";
      "" ].

(** A byte that occurs in the encoding of a whitespace character, and a
    string made of such bytes only. *)
Definition space_byte (c : ascii) : bool :=
  existsb (fun t => existsb (Ascii.eqb c) (list_ascii_of_string t)) whitespace.

Fixpoint all_space (s : string) : bool :=
  match s with
  | EmptyString => true
  | String c s' => space_byte c && all_space s'
  end.

(** ** Vocabulary for the repository host *)

(** A request to create the repository. *)
Definition creation (e : event) : bool :=
  match e with
  | CreateRepo _ _ _ => true
  | _ => false
  end.

(** The repository that a call returned, if it returned one. *)
Definition returned_repo (e : event) : option repo :=
  match e with
  | GetRepo _ (Done rp) | CreateRepo _ _ (Done rp) => Some rp
  | _ => None
  end.

(** What a call wrote: the path and the content of an update or a creation
    of a file that the host accepted. *)
Definition written (e : event) : option (string * content) :=
  match e with
  | UpdateFile path _ c _ (Done _) | CreateFile path _ c (Done _) => Some (path, c)
  | _ => None
  end.

(** Whether a call was answered with status 404. *)
Definition not_found (e : event) : bool :=
  match e with
  | GetContents _ (Github status) | UpdateFile _ _ _ _ (Github status) => Z.eqb status 404
  | _ => false
  end.

(** The path a call to the repository is about. *)
Definition call_path (e : event) : option string :=
  match e with
  | GetContents path _ | UpdateFile path _ _ _ _ | CreateFile path _ _ _ => Some path
  | _ => None
  end.

(** A lookup or an update that the host refused with a status other than
    404. *)
Definition refused (e : event) : bool :=
  match e with
  | GetContents _ (Github status) | UpdateFile _ _ _ _ (Github status) =>
      negb (Z.eqb status 404)
  | _ => false
  end.

(** A call to the repository that raised, the answer 404 to a lookup
    apart. *)
Definition failing (e : event) : bool :=
  match e with
  | GetContents _ (Github status) => negb (Z.eqb status 404)
  | GetContents _ Failed => true
  | UpdateFile _ _ _ _ (Github _) | UpdateFile _ _ _ _ Failed => true
  | CreateFile _ _ _ (Github _) | CreateFile _ _ _ Failed => true
  | _ => false
  end.

(** What a call that raised lets through, as a result. *)
Definition answer (x : outcome unit) : result unit :=
  match x with
  | Done _ => Ok tt
  | Github status => Raise (GithubException status)
  | Failed => Raise OtherError
  end.

(** The calls of one lookup-then-write of a file, with the result. The
    write of the base64 backup is [lenient]: a refusal other than 404 is
    passed over. *)
Inductive upsert_calls (path message : string) (c : content) (lenient : bool)
  : list event -> result unit -> Prop :=
| upsert_updated sha b :
    upsert_calls path message c lenient
      [GetContents path (Done (sha, b)); UpdateFile path message c sha (Done tt)] (Ok tt)
| upsert_update_missing sha b x :
    upsert_calls path message c lenient
      [GetContents path (Done (sha, b)); UpdateFile path message c sha (Github 404);
       CreateFile path message c x] (answer x)
| upsert_update_refused sha b status :
    status <> 404 ->
    upsert_calls path message c lenient
      [GetContents path (Done (sha, b)); UpdateFile path message c sha (Github status)]
      (if lenient then Ok tt else Raise (GithubException status))
| upsert_update_failed sha b :
    upsert_calls path message c lenient
      [GetContents path (Done (sha, b)); UpdateFile path message c sha Failed]
      (Raise OtherError)
| upsert_created x :
    upsert_calls path message c lenient
      [GetContents path (Github 404); CreateFile path message c x] (answer x)
| upsert_lookup_refused status :
    status <> 404 ->
    upsert_calls path message c lenient [GetContents path (Github status)]
      (if lenient then Ok tt else Raise (GithubException status))
| upsert_lookup_failed :
    upsert_calls path message c lenient [GetContents path Failed] (Raise OtherError).

(** The accepted writes among the calls, in order. *)
Definition writes (evs : list event) : list (string * content) := omap written evs.

(** ** Vocabulary for the generator adapter *)

(** A string in which the character [c] does not occur. *)
Fixpoint char_free (c : ascii) (s : string) : bool :=
  match s with
  | EmptyString => true
  | String x s' => negb (Ascii.eqb x c) && char_free c s'
  end.

(** The inline form of an attachment: [data:<mime>;base64,<payload>]. *)
Definition data_uri (mime payload : string) : string :=
  "data:" +:+ mime +:+ ";base64," +:+ payload.

(** The text of a generator outcome, when it is a non-empty string. *)
Definition answered_text (answer : option json) : option string :=
  match answer with
  | Some resp_json =>
      match extract_text resp_json with
      | Ok (JStr text) => if String.eqb text EmptyString then None else Some text
      | _ => None
      end
  | None => None
  end.

(** ** Vocabulary for the calls of a round *)

(** [returns m]: from any state [m] returns a value, it does not raise. *)
Definition returns {A} (m : M A) : Prop :=
  forall st, exists a st', m st = (Ok a, st').

(** The paths of the repository that a round may read or write: the two
    generated files and the licence, and on round 1 what is under
    [attachments/]. *)
Definition round_path (round_num : json) (path : string) : bool :=
  String.eqb path "index.html" || String.eqb path "README.md" || String.eqb path "LICENSE"
  || (Py.eq_int round_num 1 && startswith path "attachments/").

(** A call that is about no path of the repository, or about one that
    the round may touch. *)
Definition round_call (round_num : json) (e : event) : Prop :=
  match call_path e with
  | Some path => round_path round_num path = true
  | None => True
  end.

(** A call about the given path. *)
Definition about (path : string) (e : event) : Prop := call_path e = Some path.

(** A call that is about no path of the repository. *)
Definition pathless (e : event) : Prop := call_path e = None.

(** [settles m]: when [m] raises, either a document could not be written
    as UTF-8 or the last call [m] made is the read of the ledger. *)
Definition settles {A} (m : M A) : Prop :=
  forall st e st',
    m st = (Raise e, st') ->
    e = UnicodeEncodeError
    \/ exists pre f, trace st' = trace st ++ pre ++ [LoadProcessed f].

(** [saves m]: when [m] returns, the last thing it did to the outside
    world is a write of the ledger. *)
Definition saves {A} (m : M A) : Prop :=
  forall st a st',
    m st = (Ok a, st') ->
    exists pre data, trace st' = trace st ++ pre ++ [SaveProcessed data].

(** ** A host that remembers what was written *)

Module Scenario.

(** The text of a JSON object that holds an entry under the ledger key of
    the example request, and its base64 form. *)
Definition forged_text : string :=
  "{" +:+ dq +:+ "a@b.c::demo1::round1::nonceabc" +:+ dq +:+ ": " +:+ dq +:+ "forged" +:+ dq
    +:+ "}".

Definition forged_payload : string :=
  "eyJhQGIuYzo6ZGVtbzE6OnJvdW5kMTo6bm9uY2VhYmMiOiAiZm9yZ2VkIn0=".

(** A runtime that agrees with Python on the values the scenarios use:
    the base64 texts of [hi], [ho], [[]] and of the forged object, and the
    reading of these four as JSON. *)
Definition rt : runtime := {|
  repr_str s := "'" +:+ s +:+ "'";
  b64decode s :=
    if String.eqb s "aGk=" then Some (utf8_encode "hi")
    else if String.eqb s "aG8=" then Some (utf8_encode "ho")
    else if String.eqb s "W10=" then Some (utf8_encode "[]")
    else if String.eqb s forged_payload then Some (utf8_encode forged_text)
    else None;
  b64encode b :=
    if String.eqb (string_of_list_byte b) "hi" then "aGk="
    else if String.eqb (string_of_list_byte b) "ho" then "aG8="
    else if String.eqb (string_of_list_byte b) "[]" then "W10="
    else if String.eqb (string_of_list_byte b) forged_text then forged_payload
    else EmptyString;
  utf8_ignore b := string_of_list_byte b;
  read_1000 b := string_of_list_byte b;
  tmp_path n := "/tmp/llm_attachments/" +:+ n;
  strerror p := "[Errno 2] No such file or directory: '" +:+ p +:+ "'";
  json_load b :=
    if String.eqb (string_of_list_byte b) "[]" then Loaded (JArr [])
    else if String.eqb (string_of_list_byte b) forged_text
         then Loaded (JObj [("a@b.c::demo1::round1::nonceabc", JStr "forged")])
    else NotJson;
  json_dump _ := [];
|}.

(** The file that a path of the scenarios names: the ledger file is
    reached from [TMP_DIR] through [..]; every other path names a file of
    its own. *)
Definition resolve (p : string) : string :=
  if String.eqb p "/tmp/llm_attachments/../processed_requests.json" then PROCESSED_PATH
  else p.

(** Whether a write of [path] was accepted among the calls made. *)
Definition holds (h : list event) (path : string) : bool :=
  existsb (fun e => match written e with
                    | Some (p, _) => String.eqb p path
                    | None => false
                    end) h.

(** A host on which the repository does not exist until it is created,
    and a file exists once a write of it was accepted; the host accepts
    every creation and every write. The generator gives [answer] and the
    notifier returns. *)
Definition fresh_host (answer : option json) : world := {|
  w_get_repo h _ :=
    if existsb (fun e => match returned_repo e with Some _ => true | None => false end) h
    then Done Example.demo1 else Github 404;
  w_create_repo _ _ _ := Done Example.demo1;
  w_get_contents h _ path :=
    if holds h path then Done ("sha1", utf8_encode "old") else Github 404;
  w_update_file _ _ _ _ _ _ := Done tt;
  w_create_file _ _ _ _ _ := Done tt;
  w_pages_post _ _ := Some 201;
  w_get_commits _ _ := Some "abc123";
  w_generate _ _ := answer;
  w_notify _ _ _ := true;
  w_writable _ := true;
  w_file := resolve;
  w_year := 2025;
|}.

(** The same host, refusing every lookup of a base64 backup with status
    500. *)
Definition no_backups : world := {|
  w_get_repo _ _ := Done Example.demo1;
  w_create_repo _ _ _ := Failed;
  w_get_contents h _ path :=
    if endswith path ".b64" then Github 500
    else if holds h path then Done ("sha1", utf8_encode "old") else Github 404;
  w_update_file _ _ _ _ _ _ := Done tt;
  w_create_file _ _ _ _ _ := Done tt;
  w_pages_post _ _ := Some 201;
  w_get_commits _ _ := Some "abc123";
  w_generate _ _ := None;
  w_notify _ _ _ := true;
  w_writable _ := true;
  w_file := resolve;
  w_year := 2025;
|}.

(** Two inline attachments: a picture and a note. *)
Definition logo : json :=
  JObj [("name", JStr "logo.png"); ("url", JStr "data:image/png;base64,aGk=")].

Definition note (payload : string) : json :=
  JObj [("name", JStr "note.txt"); ("url", JStr ("data:text/plain;base64," +:+ payload))].

(** What decoding leaves of the picture, and the state after it. *)
Definition saved_logo : saved :=
  {| att_name := "logo.png"; att_path := "/tmp/llm_attachments/logo.png";
     att_mime := "image/png"; att_size := 2 |}.

Definition saved_note : saved :=
  {| att_name := "note.txt"; att_path := "/tmp/llm_attachments/note.txt";
     att_mime := "text/plain"; att_size := 2 |}.

Definition decoded : state :=
  {| fs := {[ "/tmp/llm_attachments/logo.png" := Raw (utf8_encode "hi");
              "/tmp/llm_attachments/note.txt" := Raw (utf8_encode "hi") ]};
     trace := [] |}.

(** An attachment whose name leads from [TMP_DIR] to the ledger file. *)
Definition onto_ledger (payload : string) : json :=
  JObj [("name", JStr "../processed_requests.json");
        ("url", JStr ("data:application/json;base64," +:+ payload))].

(** The example request with such an attachment. *)
Definition request_onto_ledger (payload : string) : json :=
  JObj [ ("secret", JStr "s3cret"); ("email", JStr "a@b.c"); ("task", JStr "demo1");
         ("round", JInt 1); ("nonce", JStr "abc"); ("brief", JStr "a todo app");
         ("checks", JArr [JStr "has add button"]);
         ("evaluation_url", JStr "http://eval");
         ("attachments", JArr [onto_ledger payload]) ].


(** The example request with the picture attached. *)
Definition request (round_num : Z) : json :=
  JObj [ ("secret", JStr "s3cret"); ("email", JStr "a@b.c"); ("task", JStr "demo1");
         ("round", JInt round_num); ("nonce", JStr "abc"); ("brief", JStr "a todo app");
         ("checks", JArr [JStr "has add button"]);
         ("evaluation_url", JStr "http://eval");
         ("attachments", JArr [logo]) ].

End Scenario.

(** * Properties *)

(** ** The string operations on examples *)

Example split_fences : split "```" "a```b```c" = ["a"; "b"; "c"].
Proof. reflexivity. Qed.

Example split_trailing : split "," "a," = ["a"; EmptyString].
Proof. reflexivity. Qed.

Example partition_first : partition "--" "ab--cd--e" = Some ("ab", "cd--e").
Proof. reflexivity. Qed.

Example replace_all : replace "data:" EmptyString "data:text/data:plain" = "text/plain".
Proof. reflexivity. Qed.

Example strip_both_ends :
  strip (" " +:+ utf8 [226; 128; 128]%nat +:+ "a b" +:+ utf8 [194; 160; 10]%nat) = "a b".
Proof. reflexivity. Qed.

Example strip_blank : strip (nl +:+ "  " +:+ nl) = EmptyString.
Proof. reflexivity. Qed.

Example take_chars_multibyte :
  take_chars 2 ("a" +:+ utf8 [226; 128; 128]%nat +:+ "bc") = "a" +:+ utf8 [226; 128; 128]%nat.
Proof. reflexivity. Qed.

Example basename_nested : basename "attachments/a/b.png" = "b.png".
Proof. reflexivity. Qed.

Example strip_code_block_fenced :
  _strip_code_block ("intro ```html" +:+ nl +:+ "<p>hi</p>" +:+ nl +:+ "``` outro")
  = "html" +:+ nl +:+ "<p>hi</p>".
Proof. reflexivity. Qed.

(** ** The intake handler *)

Section Intake.
Context (rt : runtime) (cfg : config) (w : world).

(** What [load_processed] does on a ledger file that gives a [dict]. *)
Lemma load_processed_regular st :
  regular (ledger rt w st) = true ->
  load_processed rt w st = (Ok (Mapping (stored (ledger rt w st))), looked_up rt w st).
Proof.
  unfold load_processed, looked_up, then_called. cbv zeta.
  by destruct (ledger rt w st).
Qed.

(** What the handler does with a request that carries the configured
    secret, on a ledger file that gives a [dict]. *)
Lemma receive_request_authorised kv secret st :
  Py.get (JObj kv) "secret" JNull = Ok secret ->
  Py.eq_optstr secret (USER_SECRET cfg) = true ->
  regular (ledger rt w st) = true ->
  receive_request rt cfg w (JObj kv) st
  = match Py.lookup kv "email", Py.lookup kv "task", Py.lookup kv "round",
          Py.lookup kv "nonce" with
    | None, _, _, _ => (Raise (KeyError "email"), looked_up rt w st)
    | Some _, None, _, _ => (Raise (KeyError "task"), looked_up rt w st)
    | Some _, Some _, None, _ => (Raise (KeyError "round"), looked_up rt w st)
    | Some _, Some _, Some _, None => (Raise (KeyError "nonce"), looked_up rt w st)
    | Some email, Some task, Some round_num, Some nonce =>
        let url := match Py.lookup kv "evaluation_url" with Some u => u | None => JNull end in
        match stored (ledger rt w st) !! ledger_key rt email task round_num nonce with
        | Some prev =>
            (Ok duplicate_handled,
             then_called (looked_up rt w st)
               (Notify url prev (w_notify w (trace (looked_up rt w st)) url prev)))
        | None =>
            (Ok (accepted rt round_num), then_called (looked_up rt w st) (AddTask (JObj kv)))
        end
    end.
Proof.
  intros Hs Heq Hreg. unfold receive_request. unfold bind at 1, lift at 1.
  rewrite Hs, Heq. cbn [negb]. unfold bind at 1.
  rewrite (load_processed_regular st Hreg). unfold bind, lift. cbn.
  destruct (Py.lookup kv "email") as [email|]; [|reflexivity].
  destruct (Py.lookup kv "task") as [task|]; [|reflexivity].
  destruct (Py.lookup kv "round") as [round_num|]; [|reflexivity].
  destruct (Py.lookup kv "nonce") as [nonce|]; [|reflexivity].
  cbn. destruct (stored (ledger rt w st) !! _) as [prev|]; [|reflexivity].
  unfold catch, bind, lift, notify_evaluation_server, bind, call. cbn.
  destruct (w_notify w _ _ prev); reflexivity.
Qed.

(** A request with a missing identity field: the ledger is read first,
    which raises when the file is not UTF-8 text. *)
Lemma receive_request_incomplete kv secret k st :
  Py.get (JObj kv) "secret" JNull = Ok secret ->
  Py.eq_optstr secret (USER_SECRET cfg) = true ->
  first_absent kv identity_fields = Some k ->
  receive_request rt cfg w (JObj kv) st
  = (Raise (match ledger rt w st with
            | Unreadable e => e
            | _ => KeyError k
            end),
     looked_up rt w st).
Proof.
  intros Hs Heq Hk. unfold receive_request. unfold bind at 1, lift at 1.
  rewrite Hs, Heq. cbn [negb]. unfold bind at 1, load_processed, looked_up, then_called.
  cbv zeta. unfold first_absent, identity_fields in Hk. cbn in Hk.
  destruct (ledger rt w st); try reflexivity; unfold bind, lift; cbn;
    (destruct (Py.lookup kv "email"); [|by inversion Hk]);
    (destruct (Py.lookup kv "task"); [|by inversion Hk]);
    (destruct (Py.lookup kv "round"); [|by inversion Hk]);
    (destruct (Py.lookup kv "nonce"); [discriminate | by inversion Hk]).
Qed.

Lemma getitem_Ok data k v :
  Py.getitem data k = Ok v -> exists kv, data = JObj kv /\ Py.lookup kv k = Some v.
Proof.
  destruct data as [| | | | | |kv]; try discriminate. cbn.
  destruct (Py.lookup kv k) eqn:E; [|discriminate].
  intros [= <-]. eauto.
Qed.

Lemma stored_regular f k v : stored f !! k = Some v -> regular f = true.
Proof. destruct f; cbn; try done; by rewrite lookup_empty. Qed.

(** C7. A request whose secret differs from the configured one gets the
    payload [{"error": "Invalid secret"}] and leaves no trace: the ledger
    is neither read nor written, no call goes to the repository host or to
    the notifier, and no background task is added. *)
Theorem invalid_secret_dropped data secret st :
  Py.get data "secret" JNull = Ok secret ->
  Py.eq_optstr secret (USER_SECRET cfg) = false ->
  receive_request rt cfg w data st = (Ok invalid_secret, st).
Proof.
  intros Hget Hne. unfold receive_request, bind, lift.
  rewrite Hget, Hne. reflexivity.
Qed.

(** C1. A request that passed the secret check and whose identity key is
    in the ledger adds no background task; the ledger is read, the
    notifier is called once with the stored outcome, and the answer is the
    duplicate note whether or not the notifier raised. *)
Theorem duplicate_renotified data secret email task round_num nonce prev url st :
  Py.get data "secret" JNull = Ok secret ->
  Py.eq_optstr secret (USER_SECRET cfg) = true ->
  Py.getitem data "email" = Ok email ->
  Py.getitem data "task" = Ok task ->
  Py.getitem data "round" = Ok round_num ->
  Py.getitem data "nonce" = Ok nonce ->
  Py.get data "evaluation_url" JNull = Ok url ->
  stored (ledger rt w st) !! ledger_key rt email task round_num nonce = Some prev ->
  receive_request rt cfg w data st
  = (Ok duplicate_handled,
     then_called (looked_up rt w st)
       (Notify url prev (w_notify w (trace (looked_up rt w st)) url prev))).
Proof.
  intros Hsec Heq He Ht Hr Hn Hu Hk.
  apply getitem_Ok in He as (kv & -> & He).
  apply getitem_Ok in Ht as (? & [= <-] & Ht).
  apply getitem_Ok in Hr as (? & [= <-] & Hr).
  apply getitem_Ok in Hn as (? & [= <-] & Hn).
  rewrite (receive_request_authorised kv secret st Hsec Heq (stored_regular _ _ _ Hk)),
    He, Ht, Hr, Hn.
  cbn in Hu. injection Hu as <-. cbn. rewrite Hk. reflexivity.
Qed.

(** C2, amended. The handler has no validation step. A request without a
    secret is answered with the error payload when a secret is configured.
    With the right secret, the first of email, task, round and nonce that
    is absent makes the handler raise [KeyError] after it read the ledger,
    before any call to the notifier and before any task is added; the read
    itself raises when [json.load] fails on the ledger file otherwise than
    by [JSONDecodeError], as it does with [UnicodeDecodeError] on a file
    that is not UTF-8 text. When the four are there and the ledger file is
    as the service leaves it (absent, without JSON, or holding a JSON
    object), the request is answered as a duplicate or accepted and
    scheduled, whether or not it has a brief. *)
Theorem missing_fields_at_intake kv st :
  (Py.lookup kv "secret" = None -> USER_SECRET cfg <> None ->
   receive_request rt cfg w (JObj kv) st = (Ok invalid_secret, st))
  /\ (forall secret k,
        Py.get (JObj kv) "secret" JNull = Ok secret ->
        Py.eq_optstr secret (USER_SECRET cfg) = true ->
        first_absent kv identity_fields = Some k ->
        receive_request rt cfg w (JObj kv) st
        = (Raise (match ledger rt w st with
                  | Unreadable e => e
                  | _ => KeyError k
                  end),
           looked_up rt w st))
  /\ (forall secret,
        Py.get (JObj kv) "secret" JNull = Ok secret ->
        Py.eq_optstr secret (USER_SECRET cfg) = true ->
        regular (ledger rt w st) = true ->
        first_absent kv identity_fields = None ->
        exists email task round_num nonce url,
          Py.lookup kv "email" = Some email /\ Py.lookup kv "task" = Some task
          /\ Py.lookup kv "round" = Some round_num /\ Py.lookup kv "nonce" = Some nonce
          /\ Py.get (JObj kv) "evaluation_url" JNull = Ok url
          /\ receive_request rt cfg w (JObj kv) st
             = match stored (ledger rt w st) !! ledger_key rt email task round_num nonce with
               | Some prev =>
                   (Ok duplicate_handled,
                    then_called (looked_up rt w st)
                      (Notify url prev (w_notify w (trace (looked_up rt w st)) url prev)))
               | None =>
                   (Ok (accepted rt round_num),
                    then_called (looked_up rt w st) (AddTask (JObj kv)))
               end).
Proof.
  split; [|split].
  - intros Hs Hc. unfold receive_request, bind, lift. cbn. rewrite Hs.
    destruct (USER_SECRET cfg); [reflexivity | congruence].
  - intros secret k Hs Heq Hk. by eapply receive_request_incomplete.
  - intros secret Hs Heq Hreg Hk.
    rewrite (receive_request_authorised kv secret st Hs Heq Hreg).
    unfold first_absent, identity_fields in Hk. cbn in Hk.
    destruct (Py.lookup kv "email") as [email|]; [|discriminate].
    destruct (Py.lookup kv "task") as [task|]; [|discriminate].
    destruct (Py.lookup kv "round") as [round_num|]; [|discriminate].
    destruct (Py.lookup kv "nonce") as [nonce|]; [|discriminate].
    exists email, task, round_num, nonce. eexists.
    do 5 (split; [reflexivity|]). reflexivity.
Qed.
End Intake.

(** C7 at a request with a wrong secret. *)
Lemma invalid_secret_dropped_witness :
  receive_request Example.rt Example.cfg Example.w (Example.request "guess" 1) Example.start
  = (Ok invalid_secret, Example.start).
Proof.
  apply (invalid_secret_dropped Example.rt Example.cfg Example.w
           (Example.request "guess" 1) (JStr "guess") Example.start);
    reflexivity.
Defined.

(** C1 at the resubmission of a processed request; the notifier of the
    example world raises. *)
Lemma duplicate_renotified_witness :
  receive_request Example.rt Example.cfg Example.w (Example.request "s3cret" 1)
    Example.processed1
  = (Ok duplicate_handled,
     then_called (looked_up Example.rt Example.w Example.processed1)
       (Notify (JStr "http://eval") Example.outcome1 false)).
Proof.
  apply (duplicate_renotified Example.rt Example.cfg Example.w
           (Example.request "s3cret" 1) (JStr "s3cret") (JStr "a@b.c") (JStr "demo1")
           (JInt 1) (JStr "abc") Example.outcome1 (JStr "http://eval") Example.processed1);
    reflexivity.
Defined.

(** C2 as stated fails: with the right secret, a request without an email
    makes the handler raise, and a request without a brief is accepted and
    scheduled. *)
Lemma missing_field_not_rejected :
  receive_request Example.rt Example.cfg Example.w
    (Example.without "email" (Example.request "s3cret" 1)) Example.start
  = (Raise (KeyError "email"), looked_up Example.rt Example.w Example.start)
  /\ receive_request Example.rt Example.cfg Example.w
       (Example.without "brief" (Example.request "s3cret" 1)) Example.start
     = (Ok (JObj [("status", JStr "accepted"); ("note", JStr "processing round 1 started")]),
        then_called (looked_up Example.rt Example.w Example.start)
          (AddTask (Example.without "brief" (Example.request "s3cret" 1)))).
Proof. split; vm_compute; reflexivity. Qed.

(** C2, amended, at the example request without its secret, without its
    task, and without its brief. *)
Lemma missing_fields_at_intake_witness :
  receive_request Example.rt Example.cfg Example.w
    (Example.without "secret" (Example.request "s3cret" 1)) Example.start
  = (Ok invalid_secret, Example.start)
  /\ receive_request Example.rt Example.cfg Example.w
       (Example.without "task" (Example.request "s3cret" 1)) Example.start
     = (Raise (KeyError "task"), looked_up Example.rt Example.w Example.start)
  /\ exists url,
       receive_request Example.rt Example.cfg Example.w
         (Example.without "brief" (Example.request "s3cret" 1)) Example.processed1
       = (Ok duplicate_handled,
          then_called (looked_up Example.rt Example.w Example.processed1)
            (Notify url Example.outcome1 false)).
Proof.
  split; [|split].
  - apply (proj1 (missing_fields_at_intake Example.rt Example.cfg Example.w
                    (Example.fields (Example.without "secret" (Example.request "s3cret" 1)))
                    Example.start));
      [reflexivity | discriminate].
  - apply (proj1 (proj2 (missing_fields_at_intake Example.rt Example.cfg Example.w
                    (Example.fields (Example.without "task" (Example.request "s3cret" 1)))
                    Example.start)) (JStr "s3cret") "task");
      [reflexivity | reflexivity | reflexivity].
  - destruct (proj2 (proj2 (missing_fields_at_intake Example.rt Example.cfg Example.w
                    (Example.fields (Example.without "brief" (Example.request "s3cret" 1)))
                    Example.processed1)) (JStr "s3cret") eq_refl eq_refl eq_refl eq_refl)
      as (email & task & round_num & nonce & url & He & Ht & Hr & Hn & Hu & Hrun).
    exists url. injection He as <-. injection Ht as <-. injection Hr as <-. injection Hn as <-.
    revert Hrun. vm_compute. exact (fun H => H).
Defined.

(** ** The ledger key *)

Lemma split_at_colon a b x y :
  colon_free a = true -> colon_free b = true ->
  a +:+ String ":" x = b +:+ String ":" y -> a = b /\ x = y.
Proof.
  revert b. induction a as [|c a IH]; intros [|d b]; cbn; intros Ha Hb Heq.
  - by injection Heq.
  - injection Heq as <- _. by rewrite Ascii.eqb_refl in Hb.
  - injection Heq as -> _. by rewrite Ascii.eqb_refl in Ha.
  - injection Heq as <- Heq.
    apply andb_prop in Ha as [_ Ha]. apply andb_prop in Hb as [_ Hb].
    destruct (IH b Ha Hb Heq) as [-> ->]. done.
Qed.

Lemma digit_colon_free x : Ascii.eqb (pretty_N_char x) ":" = false.
Proof. unfold pretty_N_char. by repeat case_match. Qed.

Lemma pretty_N_go_colon_free x s :
  colon_free s = true -> colon_free (pretty_N_go x s) = true.
Proof.
  revert s. induction (N.lt_wf_0 x) as [x _ IH]; intros s Hs.
  destruct (decide (x = 0%N)) as [->|Hx]; [by rewrite pretty_N_go_0|].
  rewrite pretty_N_go_step by lia.
  apply IH; [apply N.div_lt; lia|].
  cbn. by rewrite digit_colon_free.
Qed.

(** [str(n)] of an integer holds no colon. *)
Lemma pretty_Z_colon_free (n : Z) : colon_free (pretty n) = true.
Proof.
  destruct n as [|p|p]; [done| |].
  - unfold pretty, pretty_Z, pretty, pretty_positive, pretty, pretty_N.
    case_decide; [done|]. by apply pretty_N_go_colon_free.
  - unfold pretty, pretty_Z. cbn.
    unfold pretty, pretty_positive, pretty, pretty_N.
    case_decide; [done|]. by apply pretty_N_go_colon_free.
Qed.

(** C5, amended. The key is injective on the identity tuples whose email
    and task are strings without a colon, whose round is an integer and
    whose nonce is a string: two such tuples with the same key are the same
    tuple. *)
Theorem ledger_key_injective rt
    (email1 task1 nonce1 email2 task2 nonce2 : string) (round1 round2 : Z) :
  colon_free email1 = true -> colon_free task1 = true ->
  colon_free email2 = true -> colon_free task2 = true ->
  ledger_key rt (JStr email1) (JStr task1) (JInt round1) (JStr nonce1)
  = ledger_key rt (JStr email2) (JStr task2) (JInt round2) (JStr nonce2) ->
  email1 = email2 /\ task1 = task2 /\ round1 = round2 /\ nonce1 = nonce2.
Proof.
  intros He1 Ht1 He2 Ht2. unfold ledger_key. cbn.
  intros H.
  apply split_at_colon in H as [-> H]; [|done..].
  injection H as H.
  apply split_at_colon in H as [-> H]; [|done..].
  injection H as H.
  apply split_at_colon in H as [Hr H]; [|apply pretty_Z_colon_free..].
  apply (inj pretty) in Hr as ->.
  by injection H as ->.
Qed.

(** C5 as stated fails: the key is a plain concatenation, so a delimiter
    inside a field moves the boundary between email and task; the handler
    rejects neither request. *)
Lemma ledger_key_collision :
  (JStr "a::b", JStr "c") <> (JStr "a", JStr "b::c")
  /\ ledger_key Example.rt (JStr "a::b") (JStr "c") (JInt 1) (JStr "n")
     = ledger_key Example.rt (JStr "a") (JStr "b::c") (JInt 1) (JStr "n").
Proof. split; [discriminate | reflexivity]. Qed.

(** C5, amended, at the identity tuple of the example request. *)
Lemma ledger_key_injective_witness :
  colon_free "a@b.c" = true /\ colon_free "demo1" = true
  /\ ("a@b.c" = "a@b.c" /\ "demo1" = "demo1" /\ 1 = 1 /\ "abc" = "abc").
Proof.
  split; [reflexivity|]. split; [reflexivity|].
  apply (ledger_key_injective Example.rt "a@b.c" "demo1" "abc" "a@b.c" "demo1" "abc" 1 1);
    reflexivity.
Defined.

(** ** Calls made by the parts of the pipeline *)

Section Emits.
Context {A B : Type} (P : event -> Prop).

Lemma emits_ret (a : A) : emits P (ret a).
Proof. intros st r st' [= <- <-]. exists []. by rewrite app_nil_r. Qed.

Lemma emits_raise (e : exn) : emits P (@raise A e).
Proof. intros st r st' [= <- <-]. exists []. by rewrite app_nil_r. Qed.

Lemma emits_lift (x : result A) : emits P (lift x).
Proof. intros st r st' [= <- <-]. exists []. by rewrite app_nil_r. Qed.

Lemma emits_call (answer : list event -> A) (record : A -> event) :
  (forall a, P (record a)) -> emits P (call answer record).
Proof.
  intros HP st r st' [= <- <-]. cbn. eexists. split; [done|].
  by constructor.
Qed.

Lemma emits_bind (m : M A) (k : A -> M B) :
  emits P m -> (forall a, emits P (k a)) -> emits P (bind m k).
Proof.
  intros Hm Hk st r st'. unfold bind.
  destruct (m st) as [[a|e] st1] eqn:E1; intros E2.
  - destruct (Hm _ _ _ E1) as (evs1 & Ht1 & HP1).
    destruct (Hk a _ _ _ E2) as (evs2 & Ht2 & HP2).
    exists (evs1 ++ evs2).
    split; [by rewrite Ht2, Ht1, app_assoc | by apply Forall_app].
  - injection E2 as <- <-. eapply Hm, E1.
Qed.

Lemma emits_catch (m : M A) (h : exn -> M A) :
  emits P m -> (forall e, emits P (h e)) -> emits P (catch m h).
Proof.
  intros Hm Hh st r st'. unfold catch.
  destruct (m st) as [[a|e] st1] eqn:E1; intros E2.
  - injection E2 as <- <-. eapply Hm, E1.
  - destruct (Hm _ _ _ E1) as (evs1 & Ht1 & HP1).
    destruct (Hh e _ _ _ E2) as (evs2 & Ht2 & HP2).
    exists (evs1 ++ evs2).
    split; [by rewrite Ht2, Ht1, app_assoc | by apply Forall_app].
Qed.
End Emits.

Lemma emits_weaken {A} (P Q : event -> Prop) (m : M A) :
  (forall e, P e -> Q e) -> emits P m -> emits Q m.
Proof.
  intros HPQ Hm st r st' E. destruct (Hm _ _ _ E) as (evs & Ht & HP).
  exists evs. split; [done|]. eapply Forall_impl; eauto.
Qed.

Lemma emits_for_each {A} (P : event -> Prop) (l : list A) (body : A -> M unit) :
  (forall x, emits P (body x)) -> emits P (for_each l body).
Proof.
  intros Hb. induction l as [|x l IH]; cbn.
  - apply emits_ret.
  - apply emits_bind; auto.
Qed.

Lemma emits_read_file (P : event -> Prop) rt w p : emits P (read_file rt w p).
Proof. intros st r st' [= <- <-]. exists []. by rewrite app_nil_r. Qed.

Lemma emits_write_file (P : event -> Prop) w p b : emits P (write_file w p b).
Proof.
  intros st r st'. unfold write_file.
  destruct (w_writable w p); intros [= <- <-]; exists [];
    by rewrite app_nil_r.
Qed.

Lemma emits_write_text (P : event -> Prop) w p s : emits P (write_text w p s).
Proof.
  intros st r st'. unfold write_text.
  destruct (w_writable w p); [destruct (surrogate_free s)|]; intros [= <- <-]; exists [];
    by rewrite app_nil_r.
Qed.

(** Tactic for the routine cases: take the computation apart along its
    binds, handlers and case distinctions. *)
Ltac emits_step :=
  first
    [ apply emits_ret | apply emits_raise | apply emits_lift
    | apply emits_read_file | apply emits_write_file | apply emits_write_text
    | apply emits_bind; [|intros ?]
    | apply emits_catch; [|intros ?]
    | apply emits_for_each; intros ?
    | apply emits_call; intros ?; exact I ].

Ltac emits_auto :=
  repeat (emits_step
          || match goal with
             | |- emits _ (match ?x with _ => _ end) => destruct x
             | |- emits _ (if ?x then _ else _) => destruct x
             | |- emits _ (let _ := _ in _) => cbv zeta
             end).

(** ** The files a computation leaves alone *)

Section Keeps.
Context {A B : Type} (q : string).

Lemma keeps_ret (a : A) : keeps q (ret a).
Proof. by intros st r st' [= <- <-]. Qed.

Lemma keeps_raise (e : exn) : keeps q (@raise A e).
Proof. by intros st r st' [= <- <-]. Qed.

Lemma keeps_lift (x : result A) : keeps q (lift x).
Proof. by intros st r st' [= <- <-]. Qed.

Lemma keeps_call (answer : list event -> A) (record : A -> event) :
  keeps q (call answer record).
Proof. by intros st r st' [= <- <-]. Qed.

Lemma keeps_bind (m : M A) (k : A -> M B) :
  keeps q m -> (forall a, keeps q (k a)) -> keeps q (bind m k).
Proof.
  intros Hm Hk st r st'. unfold bind.
  destruct (m st) as [[a|e] st1] eqn:E1; intros E2.
  - rewrite (Hk a _ _ _ E2). eapply Hm, E1.
  - injection E2 as <- <-. eapply Hm, E1.
Qed.

Lemma keeps_catch (m : M A) (h : exn -> M A) :
  keeps q m -> (forall e, keeps q (h e)) -> keeps q (catch m h).
Proof.
  intros Hm Hh st r st'. unfold catch.
  destruct (m st) as [[a|e] st1] eqn:E1; intros E2.
  - injection E2 as <- <-. eapply Hm, E1.
  - rewrite (Hh e _ _ _ E2). eapply Hm, E1.
Qed.
End Keeps.

Lemma keeps_for_each {A} q (l : list A) (body : A -> M unit) :
  (forall x, keeps q (body x)) -> keeps q (for_each l body).
Proof.
  intros Hb. induction l as [|x l IH]; cbn.
  - apply keeps_ret.
  - apply keeps_bind; auto.
Qed.

Lemma keeps_read_file q rt w p : keeps q (read_file rt w p).
Proof. by intros st r st' [= <- <-]. Qed.

Lemma keeps_write_file q w p b : w_file w p <> q -> keeps q (write_file w p b).
Proof.
  intros Hne st r st'. unfold write_file.
  destruct (w_writable w p); intros [= <- <-]; [|done].
  cbn. by rewrite lookup_insert_ne.
Qed.

Lemma keeps_write_text q w p s : w_file w p <> q -> keeps q (write_text w p s).
Proof.
  intros Hne st r st'. unfold write_text.
  destruct (w_writable w p); [destruct (surrogate_free s)|]; intros [= <- <-];
    [| |done]; cbn; by rewrite lookup_insert_ne.
Qed.

Lemma keeps_load_processed q rt w : keeps q (load_processed rt w).
Proof.
  intros st r st'. unfold load_processed. cbv zeta.
  destruct (ledger rt w st); by intros [= <- <-].
Qed.

Ltac keeps_step :=
  first
    [ apply keeps_ret | apply keeps_raise | apply keeps_lift
    | apply keeps_read_file | apply keeps_call | apply keeps_load_processed
    | apply keeps_bind; [|intros ?]
    | apply keeps_catch; [|intros ?]
    | apply keeps_for_each; intros ? ].

Ltac keeps_auto :=
  repeat (keeps_step
          || match goal with
             | |- keeps _ (match ?x with _ => _ end) => destruct x
             | |- keeps _ (if ?x then _ else _) => destruct x
             | |- keeps _ (let _ := _ in _) => cbv zeta
             end).

Section Parts.
Context (rt : runtime) (cfg : config) (w : world).

Lemma decode_attachment_emits P att : emits P (decode_attachment rt w att).
Proof. unfold decode_attachment. emits_auto. Qed.

Lemma decode_attachments_emits P atts : emits P (decode_attachments rt w atts).
Proof.
  unfold decode_attachments.
  destruct (Py.or_else atts (JArr [])) as [| | | | |l|]; try apply emits_raise.
  induction l as [|att l IH]; cbn; [apply emits_ret|].
  apply emits_bind; [apply decode_attachment_emits|intros s].
  apply emits_bind; [exact IH|intros rest]. apply emits_ret.
Qed.

Lemma summarize_attachment_meta_emits P l : emits P (summarize_attachment_meta rt w l).
Proof.
  unfold summarize_attachment_meta.
  apply emits_bind; [|intros; apply emits_ret].
  induction l as [|s l IH]; cbn; [apply emits_ret|].
  apply emits_bind; [unfold summarize_attachment; emits_auto|intros x].
  apply emits_bind; [exact IH|intros rest]. apply emits_ret.
Qed.

Lemma generate_documents_emits brief atts checks round_num prev_readme :
  emits staging (generate_documents rt w brief atts checks round_num prev_readme).
Proof.
  unfold generate_documents.
  apply emits_bind; [apply decode_attachments_emits|intros saved].
  apply emits_bind; [apply summarize_attachment_meta_emits|intros meta].
  cbv zeta. unfold generated_text, split_text. emits_auto.
Qed.

Lemma generate_app_code_emits brief atts checks round_num prev_readme :
  emits staging (generate_app_code rt w brief atts checks round_num prev_readme).
Proof.
  unfold generate_app_code.
  apply emits_bind; [apply generate_documents_emits|intros documents].
  cbv zeta. emits_auto.
Qed.

Lemma create_repo_emits name description :
  emits acquisition (create_repo w name description).
Proof. unfold create_repo, expect. emits_auto. Qed.

Lemma create_or_update_file_emits rp path c message :
  emits file_call (create_or_update_file w rp path c message).
Proof. unfold create_or_update_file, expect. emits_auto. Qed.

Lemma create_or_update_binary_file_emits rp path b message :
  emits file_call (create_or_update_binary_file rt w rp path b message).
Proof.
  unfold create_or_update_binary_file.
  apply emits_bind; [apply create_or_update_file_emits|intros _].
  unfold expect. emits_auto.
Qed.

Lemma commit_attachment_emits rp att : emits file_call (commit_attachment rt w rp att).
Proof.
  unfold commit_attachment.
  apply emits_catch; [|intros; apply emits_ret].
  apply emits_bind; [apply emits_read_file|intros [b|]]; [|apply emits_raise].
  cbv zeta. destruct (_ || _).
  - apply create_or_update_file_emits.
  - apply emits_bind; [apply create_or_update_binary_file_emits|intros _].
    apply create_or_update_file_emits.
Qed.

Lemma commit_file_emits rp round_num f : emits file_call (commit_file rt w rp round_num f).
Proof.
  unfold commit_file. cbv zeta.
  apply emits_catch; [apply create_or_update_file_emits|intros; apply emits_ret].
Qed.

(** The local files: an entry is saved at the path of its name only, and
    the calls to the repository host write no local file. *)
Lemma decode_attachment_keeps q att :
  (forall name, entry_name att = JStr name -> w_file w (tmp_path rt name) <> q) ->
  keeps q (decode_attachment rt w att).
Proof.
  intros Hq. unfold decode_attachment.
  destruct att as [| | | | | |kv];
    try (intros st0 r0 st0'; unfold bind, lift; cbn; by intros [= <- <-]).
  unfold entry_name, field_or in Hq. cbn [Py.get] in Hq.
  unfold bind at 1, lift at 1. cbn [Py.get]. cbv beta iota zeta.
  set (name := Py.or_else _ _) in *.
  unfold bind, lift. cbv beta iota zeta.
  destruct (match Py.lookup kv "url" with Some v => v | None => JStr EmptyString end)
    as [| | | |url| |]; try apply keeps_raise.
  destruct (negb (startswith url "data:")); [apply keeps_ret|].
  apply keeps_catch; [|intros; apply keeps_ret].
  destruct (partition "," url) as [[header b64data]|]; [|apply keeps_raise].
  cbv zeta. destruct (b64decode rt b64data) as [data|]; [|apply keeps_raise].
  destruct name as [| | | |n| |]; try apply keeps_raise.
  apply keeps_bind; [|intros; apply keeps_ret].
  apply keeps_write_file. by apply Hq.
Qed.

Lemma apart_cons_name q att l :
  apart w q (attachment_paths rt (JArr (att :: l))) ->
  (forall name, entry_name att = JStr name -> w_file w (tmp_path rt name) <> q)
  /\ apart w q (attachment_paths rt (JArr l)).
Proof.
  unfold apart, attachment_paths. cbn [Py.or_else Py.truthy omap list_omap].
  destruct l as [|att' l]; cbn [Py.or_else Py.truthy omap list_omap];
    destruct (entry_name att) as [| | | |n| |] eqn:E; intros H; split;
    try done; try (by constructor);
    try (intros name [= <-]; by apply Forall_cons_1 in H as [? _]);
    try (by apply Forall_cons_1 in H as [_ ?]).
Qed.

Lemma decode_loop_keeps q l :
  apart w q (attachment_paths rt (JArr l)) -> keeps q (decode_loop rt w l).
Proof.
  induction l as [|att l IH]; intros Hq; cbn [decode_loop]; [apply keeps_ret|].
  apply apart_cons_name in Hq as [Hatt Hl].
  apply keeps_bind; [by apply decode_attachment_keeps|intros s].
  apply keeps_bind; [by apply IH|intros rest]. apply keeps_ret.
Qed.

Lemma attachment_paths_list atts l :
  Py.or_else atts (JArr []) = JArr l ->
  attachment_paths rt atts = attachment_paths rt (JArr l).
Proof.
  intros H. unfold attachment_paths. rewrite H.
  destruct l; [done|]. done.
Qed.

Lemma decode_attachments_keeps q atts :
  apart w q (attachment_paths rt atts) -> keeps q (decode_attachments rt w atts).
Proof.
  intros Hq. unfold decode_attachments.
  destruct (Py.or_else atts (JArr [])) as [| | | | |l|] eqn:E; try apply keeps_raise.
  rewrite (attachment_paths_list atts l E) in Hq. by apply decode_loop_keeps.
Qed.

Lemma summarize_attachment_meta_keeps q l : keeps q (summarize_attachment_meta rt w l).
Proof.
  unfold summarize_attachment_meta.
  apply keeps_bind; [|intros; apply keeps_ret].
  induction l as [|s l IH]; cbn; [apply keeps_ret|].
  apply keeps_bind; [unfold summarize_attachment; keeps_auto|intros x].
  apply keeps_bind; [exact IH|intros rest]. apply keeps_ret.
Qed.

Lemma or_else_idem a :
  Py.or_else (Py.or_else a (JArr [])) (JArr []) = Py.or_else a (JArr []).
Proof. unfold Py.or_else. destruct (Py.truthy a) eqn:E; [by rewrite E|done]. Qed.

Lemma generate_documents_keeps q brief atts checks round_num prev_readme :
  apart w q (attachment_paths rt atts) ->
  keeps q (generate_documents rt w brief atts checks round_num prev_readme).
Proof.
  intros Hq. unfold generate_documents.
  apply keeps_bind; [|intros saved].
  { apply decode_attachments_keeps. unfold attachment_paths in *.
    by rewrite or_else_idem. }
  apply keeps_bind; [apply summarize_attachment_meta_keeps|intros meta].
  cbv zeta. unfold generated_text, split_text. keeps_auto.
Qed.

Lemma generate_app_code_keeps q brief atts checks round_num prev_readme :
  apart w q (attachment_paths rt atts ++ document_paths) ->
  keeps q (generate_app_code rt w brief atts checks round_num prev_readme).
Proof.
  intros Hq. apply Forall_app in Hq as [Hatts Hdocs].
  apply Forall_cons_1 in Hdocs as [Hindex Hdocs].
  apply Forall_cons_1 in Hdocs as [Hreadme _].
  unfold generate_app_code.
  apply keeps_bind; [by apply generate_documents_keeps|intros documents].
  cbv zeta.
  apply keeps_bind; [by apply keeps_write_text|intros _].
  apply keeps_bind; [by apply keeps_write_text|intros _]. apply keeps_ret.
Qed.

Lemma create_repo_keeps q name description : keeps q (create_repo w name description).
Proof. unfold create_repo, expect. keeps_auto. Qed.

Lemma create_or_update_file_keeps q rp path c message :
  keeps q (create_or_update_file w rp path c message).
Proof. unfold create_or_update_file, expect. keeps_auto. Qed.

Lemma create_or_update_binary_file_keeps q rp path b message :
  keeps q (create_or_update_binary_file rt w rp path b message).
Proof.
  unfold create_or_update_binary_file.
  apply keeps_bind; [apply create_or_update_file_keeps|intros _].
  unfold expect. keeps_auto.
Qed.

Lemma commit_attachment_keeps q rp att : keeps q (commit_attachment rt w rp att).
Proof.
  unfold commit_attachment.
  apply keeps_catch; [|intros; apply keeps_ret].
  apply keeps_bind; [apply keeps_read_file|intros [b|]]; [|apply keeps_raise].
  cbv zeta. destruct (_ || _).
  - apply create_or_update_file_keeps.
  - apply keeps_bind; [apply create_or_update_binary_file_keeps|intros _].
    apply create_or_update_file_keeps.
Qed.

Lemma commit_file_keeps q rp round_num f : keeps q (commit_file rt w rp round_num f).
Proof.
  unfold commit_file. cbv zeta.
  apply keeps_catch; [apply create_or_update_file_keeps|intros; apply keeps_ret].
Qed.
End Parts.

(** ** How a round ends *)

Lemma bind_inv {A B} (m : M A) (k : A -> M B) st r st' :
  bind m k st = (r, st') ->
  (exists a st1, m st = (Ok a, st1) /\ k a st1 = (r, st'))
  \/ (exists e, m st = (Raise e, st') /\ r = Raise e).
Proof.
  unfold bind. destruct (m st) as [[a|e] st1]; intros E.
  - left. eauto.
  - right. injection E as <- <-. eauto.
Qed.

Lemma staged_refl C q st : staged C q st st.
Proof. split; [done|]. exists []. by rewrite app_nil_r. Qed.

Lemma staged_step {A} C q (m : M A) st0 st1 r st2 :
  emits staging m -> (C -> keeps q m) -> staged C q st0 st1 -> m st1 = (r, st2) ->
  staged C q st0 st2.
Proof.
  intros Hm Hk (Hf & pre & Ht & Hp) E.
  destruct (Hm _ _ _ E) as (evs & Ht' & Hp').
  split.
  - intros HC. rewrite (Hk HC _ _ _ E). by apply Hf.
  - exists (pre ++ evs). split; [by rewrite Ht', Ht, app_assoc | by apply Forall_app].
Qed.

Lemma file_call_staging e : file_call e -> staging e.
Proof. by destruct e. Qed.

Lemma acquisition_staging e : acquisition e -> staging e.
Proof. by destruct e. Qed.

Lemma ledger_kept rt w st st' :
  fs st' !! w_file w PROCESSED_PATH = fs st !! w_file w PROCESSED_PATH ->
  ledger rt w st' = ledger rt w st.
Proof. unfold ledger. by intros ->. Qed.

Section Rounds.
Context (rt : runtime) (cfg : config) (w : world).

Lemma staged_abandoned data st r st' :
  staged (off_ledger w (round_paths rt data)) (w_file w PROCESSED_PATH) st st' ->
  round_end rt cfg w data st r st'.
Proof.
  intros (Hf & pre & Ht & Hp). eapply Abandoned; [exact Hp|exact Ht|].
  intros HC. by apply ledger_kept, Hf.
Qed.

Lemma enable_pages_run task_id st :
  exists api,
    enable_pages rt cfg w task_id st
    = (Ok (activated (w_pages_post w (trace st) api)),
       then_called st (PagesPost api (w_pages_post w (trace st) api))).
Proof.
  exists ("https://api.github.com/repos/" +:+ str_env (USERNAME cfg) +:+ "/"
            +:+ Py.str rt task_id +:+ "/pages").
  unfold enable_pages, bind, call, ret, then_called, activated. cbv zeta beta.
  destruct (w_pages_post w (trace st) _); reflexivity.
Qed.

(** The publish step never raises; it makes the calls [published]
    describes and writes no file. *)
Lemma publish_step round_num task_id st r st' :
  catch
    (if Py.eq_int round_num 1 then
       pages_ok <- enable_pages rt cfg w task_id ;;
       ret (if pages_ok then pages_address rt cfg task_id else JNull)
     else ret (pages_address rt cfg task_id))
    (fun _ => ret JNull) st = (r, st') ->
  exists pub pages_url,
    r = Ok pages_url /\ published rt cfg round_num task_id pub pages_url
    /\ trace st' = trace st ++ pub /\ fs st' = fs st.
Proof.
  unfold published, catch.
  destruct (Py.eq_int round_num 1).
  - unfold bind. destruct (enable_pages_run task_id st) as [api ->]. unfold ret.
    intros [= <- <-]. eexists _, _. split; [reflexivity|].
    split; [eexists _, _; split; reflexivity | done].
  - intros [= <- <-]. exists [], (pages_address rt cfg task_id).
    by rewrite app_nil_r.
Qed.

Lemma lift_inv {A} (x : result A) st r st' : lift x st = (r, st') -> r = x /\ st' = st.
Proof. by intros [= <- <-]. Qed.

(** The notification step never raises and calls the notifier once. *)
Lemma notify_step kv payload st r st' :
  catch
    (url <- lift (Py.get (JObj kv) "evaluation_url" JNull) ;;
     notify_evaluation_server w url payload)
    (fun _ => ret tt) st = (r, st') ->
  r = Ok tt
  /\ exists delivered,
       st' = then_called st (Notify (field_or (JObj kv) "evaluation_url" JNull) payload delivered).
Proof.
  unfold catch, bind, lift, notify_evaluation_server, bind, call, field_or, Py.get.
  cbv beta iota zeta.
  set (url := match Py.lookup kv "evaluation_url" with Some v => v | None => JNull end).
  generalize (w_notify w (trace st) url payload).
  intros [|]; cbv beta iota zeta; intros [= <- <-]; (split; [done|]); by eexists.
Qed.

(** The last step of a round: the ledger file is read, the entry is set
    in what was read and the result is written. *)
Lemma record_step key payload st r st' :
  (processed <- load_processed rt w ;;
   processed <- lift (set_item processed key payload) ;;
   save_processed w processed) st = (r, st') ->
  let f := ledger rt w st in
  let m := <[key := payload]> (stored f) in
  let written := regular f && w_writable w PROCESSED_PATH in
  trace st' = trace st ++ [LoadProcessed f] ++ (if written then [SaveProcessed m] else [])
  /\ ledger rt w st' = (if written then Stored m else f)
  /\ r = (if written then Ok tt else Raise (ledger_error f)).
Proof.
  cbv zeta. unfold load_processed, save_processed, bind, lift, set_item, call, ret, raise.
  cbv zeta.
  assert (Hsame : forall evs,
            ledger rt w {| fs := fs st; trace := evs |} = ledger rt w st) by done.
  assert (Hput : forall m evs,
            ledger rt w {| fs := <[w_file w PROCESSED_PATH := Dumped m]> (fs st);
                           trace := evs |} = Stored m).
  { intros m evs. unfold ledger, found. cbn. by rewrite lookup_insert_eq. }
  destruct (ledger rt w st) as [| | |m|v] eqn:Hf;
    destruct (w_writable w PROCESSED_PATH) eqn:Hw;
    cbn; intros [= <- <-]; cbn;
    rewrite ?Hput, ?Hsame, ?Hf, <- ?app_assoc; done.
Qed.

Lemma field_or_get data k d v : Py.get data k d = Ok v -> v = field_or data k d.
Proof. unfold field_or. by intros ->. Qed.

Lemma field_or_round data round_num :
  Py.get data "round" (JInt 1) = Ok round_num -> round_num = field_or data "round" (JInt 1).
Proof. apply field_or_get. Qed.

Lemma field_or_task data task_id :
  Py.getitem data "task" = Ok task_id -> task_id = field_or data "task" JNull.
Proof.
  intros H. destruct (getitem_Ok _ _ _ H) as (kv & -> & Hk).
  unfold field_or. cbn. by rewrite Hk.
Qed.

Lemma round_paths_attachments q data :
  apart w q (round_paths rt data) ->
  apart w q (attachment_paths rt (field_or data "attachments" (JArr []))).
Proof. unfold apart, round_paths. rewrite Forall_app. by intros [? _]. Qed.

Lemma run_round_ends data rp st0 st r st' :
  staged (off_ledger w (round_paths rt data)) (w_file w PROCESSED_PATH) st0 st ->
  run_round rt cfg w data (field_or data "round" (JInt 1)) (field_or data "task" JNull)
    (field_or data "attachments" (JArr [])) rp st = (r, st') ->
  round_end rt cfg w data st0 r st'.
Proof.
  intros Hst H. unfold run_round in H.
  set (round_num := field_or data "round" (JInt 1)) in *.
  set (task_id := field_or data "task" JNull) in *.
  set (C := off_ledger w (round_paths rt data)) in *.
  set (q := w_file w PROCESSED_PATH) in *.
  (* previous README *)
  apply bind_inv in H as [(prev & st1 & E & H) | (e & E & ->)];
    (eapply (staged_step C q) in E;
     [|unfold expect; emits_auto|intros _; unfold expect; keeps_auto|exact Hst]);
    [|by apply staged_abandoned].
  clear Hst; rename E into Hst.
  (* brief, checks *)
  apply bind_inv in H as [(brief & st2 & E & H) | (e & E & ->)];
    apply lift_inv in E as [E ->]; [|by apply staged_abandoned].
  apply bind_inv in H as [(checks & st2 & E' & H) | (e & E' & ->)];
    apply lift_inv in E' as [E' ->]; [|by apply staged_abandoned].
  (* generation *)
  apply bind_inv in H as [(gen & st2 & E2 & H) | (e & E2 & ->)];
    (eapply (staged_step C q) in E2;
     [|apply generate_app_code_emits
      |intros HC; apply generate_app_code_keeps; exact HC
      |exact Hst]);
    [|by apply staged_abandoned].
  clear Hst; rename E2 into Hst. cbv zeta in H.
  (* commits of the attachments, of the files and of the license *)
  apply bind_inv in H as [(? & st3 & E3 & H) | (e & E3 & ->)];
    (eapply (staged_step C q) in E3;
     [|destruct (Py.eq_int round_num 1);
       [apply emits_for_each; intros; eapply emits_weaken;
        [apply file_call_staging|apply commit_attachment_emits]
       |apply emits_ret]
      |intros _; destruct (Py.eq_int round_num 1);
       [apply keeps_for_each; intros; apply commit_attachment_keeps|apply keeps_ret]
      |exact Hst]);
    [|by apply staged_abandoned].
  clear Hst; rename E3 into Hst.
  apply bind_inv in H as [(? & st4 & E4 & H) | (e & E4 & ->)];
    (eapply (staged_step C q) in E4;
     [|apply emits_for_each; intros; eapply emits_weaken;
       [apply file_call_staging|apply commit_file_emits]
      |intros _; apply keeps_for_each; intros; apply commit_file_keeps
      |exact Hst]);
    [|by apply staged_abandoned].
  clear Hst; rename E4 into Hst.
  apply bind_inv in H as [(? & st5 & E5 & H) | (e & E5 & ->)];
    (eapply (staged_step C q) in E5;
     [|apply emits_catch;
       [eapply emits_weaken; [apply file_call_staging|apply create_or_update_file_emits]
       |intros; apply emits_ret]
      |intros _; apply keeps_catch;
       [apply create_or_update_file_keeps|intros; apply keeps_ret]
      |exact Hst]);
    [|by apply staged_abandoned].
  clear Hst; rename E5 into Hst.
  destruct Hst as (Hf & pre & Ht & Hpre).
  (* publish *)
  apply bind_inv in H as [(pages_url & st6 & E6 & H) | (e & E6 & ->)];
    apply publish_step in E6 as (pub & url' & Hr & Hpub & Ht6 & Hf6); [|discriminate].
  injection Hr as <-.
  (* latest commit *)
  apply bind_inv in H as [(sha & st7 & E7 & H) | (e & E7 & ->)]; [|discriminate].
  injection E7 as <- <-.
  match type of H with context [round_outcome _ _ _ _ _ ?x] => set (commit_sha := x) in * end.
  assert (Hun : forall r, round_end rt cfg w data st0 r
                  {| fs := fs st6; trace := trace st6 ++ [GetCommits commit_sha] |}).
  { intros r0. eapply Unreported; [exact Hpre|exact Hpub| |].
    - cbn. by rewrite Ht6, Ht, <- !app_assoc.
    - intros HC. apply ledger_kept. cbn. rewrite Hf6. by apply Hf. }
  (* identity fields *)
  apply bind_inv in H as [(email & st8 & E8 & H) | (e & E8 & ->)];
    apply lift_inv in E8 as [He ->]; [|apply Hun].
  apply bind_inv in H as [(task & st8 & E8 & H) | (e & E8 & ->)];
    apply lift_inv in E8 as [Htk ->]; [|apply Hun].
  apply bind_inv in H as [(nonce & st8 & E8 & H) | (e & E8 & ->)];
    apply lift_inv in E8 as [Hn ->]; [|apply Hun].
  clear Hun. cbv zeta in H.
  destruct (getitem_Ok _ _ _ (eq_sym He)) as (kv & Hdata & _).
  (* notification and ledger *)
  apply bind_inv in H as [(? & st9 & E9 & H) | (e & E9 & ->)];
    rewrite Hdata in E9; apply notify_step in E9 as (Hr9 & delivered & ->);
    [|discriminate].
  rewrite <- Hdata in *.
  match type of H with
  | _ ?s = _ => set (st9 := s) in *
  end.
  assert (H' : (processed <- load_processed rt w ;;
                processed <- lift (set_item processed
                                     (ledger_key rt email task round_num nonce)
                                     (round_outcome email task round_num nonce rp
                                        commit_sha pages_url)) ;;
                save_processed w processed) st9 = (r, st')).
  { rewrite <- H. unfold bind at 1 3. destruct (load_processed rt w st9) as [[p|e] s]; [|done].
    unfold bind, lift. by rewrite <- He, <- Htk, <- Hn. }
  clear H. apply record_step in H' as (Ht9 & Hl9 & Hr9'). cbv zeta in Ht9, Hl9, Hr9'.
  eapply Dispatched with (pre := pre) (pub := pub) (f := ledger rt w st9); eauto.
  - cbv zeta. rewrite Ht9. subst st9. cbn. by rewrite Ht6, Ht, <- !app_assoc.
  - intros HC. apply ledger_kept. subst st9. cbn. rewrite Hf6. by apply Hf.
Qed.

Lemma process_request_ends data st r st' :
  process_request rt cfg w data st = (r, st') -> round_end rt cfg w data st r st'.
Proof.
  intros H. unfold process_request in H.
  set (C := off_ledger w (round_paths rt data)).
  set (q := w_file w PROCESSED_PATH).
  pose proof (staged_refl C q st) as Hst.
  apply bind_inv in H as [(round_num & st1 & E & H) | (e & E & ->)];
    apply lift_inv in E as [Hround ->]; [|by apply staged_abandoned].
  apply bind_inv in H as [(task_id & st1 & E & H) | (e & E & ->)];
    apply lift_inv in E as [Htask ->]; [|by apply staged_abandoned].
  apply bind_inv in H as [(atts & st1 & E & H) | (e & E & ->)];
    apply lift_inv in E as [Hatts ->]; [|by apply staged_abandoned].
  apply eq_sym, field_or_get in Hatts as ->.
  apply bind_inv in H as [(? & st1 & E & H) | (e & E & ->)];
    (eapply (staged_step C q) in E;
     [|apply decode_attachments_emits
      |intros HC; apply decode_attachments_keeps, round_paths_attachments, HC
      |exact Hst]);
    [|by apply staged_abandoned].
  clear Hst; rename E into Hst.
  match type of H with
  | match ?m st1 with _ => _ end = _ => destruct (m st1) as [[rp|e] st2] eqn:E
  end;
    (eapply (staged_step C q) in E;
     [|apply emits_bind; [apply emits_lift|intros; eapply emits_weaken;
                          [apply acquisition_staging|apply create_repo_emits]]
      |intros _; apply keeps_bind; [apply keeps_lift|intros; apply create_repo_keeps]
      |exact Hst]).
  - rewrite (field_or_round _ _ (eq_sym Hround)), (field_or_task _ _ (eq_sym Htask)) in H.
    eapply run_round_ends; eauto.
  - injection H as <- <-. by apply staged_abandoned.
Qed.

(** A repository that [create_repo] returned was returned by one of its
    calls. *)
Lemma create_repo_acquired name description st rp st' :
  create_repo w name description st = (Ok rp, st') ->
  exists evs, trace st' = trace st ++ evs /\ repo_acquired evs = true.
Proof.
  unfold create_repo, bind, call, expect, ret, raise. cbv beta iota zeta.
  destruct (w_get_repo w (trace st) name) as [rp0|status|] eqn:E1; cbv beta iota zeta.
  - intros [= <- <-]. eexists. split; [reflexivity|]. done.
  - destruct (negb (status =? 404)%Z); [discriminate|]. cbv beta iota zeta.
    match goal with
    | |- context [w_create_repo w ?h name description] =>
        destruct (w_create_repo w h name description) as [rp1|status1|] eqn:E2
    end; cbv beta iota zeta; try discriminate.
    intros [= <- <-]. cbn. eexists. rewrite <- app_assoc. split; [reflexivity|].
    done.
  - discriminate.
Qed.

Lemma round_end_extends data st r st' :
  round_end rt cfg w data st r st' -> exists evs, trace st' = trace st ++ evs.
Proof. intros [| |]; eauto. Qed.




Lemma staging_no_dispatch e : staging e -> dispatch e = false.
Proof. by destruct e. Qed.

Lemma published_no_dispatch round_num task_id pub pages_url :
  published rt cfg round_num task_id pub pages_url ->
  Forall (fun e => dispatch e = false) pub.
Proof.
  unfold published. destruct (Py.eq_int round_num 1).
  - intros (api & status & -> & _). by repeat constructor.
  - intros [-> _]. constructor.
Qed.

(** C8, amended. A run of process_request either makes no notification and
    no call on the ledger, or it ends with the notifier, the read of the
    ledger file and, last, its write, in this order; nothing before them is
    a notification or a call on the ledger, and the read happens whether
    the notifier returned or raised. The write adds the entry of the
    identity tuple to what was read, and it happens when the file was found
    absent, not decodable as JSON or holding a JSON object, and can be
    opened for writing; otherwise the run raises after the notification
    and writes nothing. What is read is the file as it was when the request
    arrived, provided no local path of the round (an attachment's or a
    generated document's) names the ledger file. *)
Theorem ledger_written_after_notification data st r st' evs :
  process_request rt cfg w data st = (r, st') ->
  trace st' = trace st ++ evs ->
  (Forall (fun e => dispatch e = false) evs
   /\ (off_ledger w (round_paths rt data) -> ledger rt w st' = ledger rt w st))
  \/ (exists pre url payload delivered email task nonce f,
        Forall (fun e => dispatch e = false) pre
        /\ Py.getitem data "email" = Ok email
        /\ Py.getitem data "task" = Ok task
        /\ Py.getitem data "nonce" = Ok nonce
        /\ let key := ledger_key rt email task (field_or data "round" (JInt 1)) nonce in
           let m := <[key := payload]> (stored f) in
           let written := regular f && w_writable w PROCESSED_PATH in
           evs = pre ++ [Notify url payload delivered; LoadProcessed f]
                     ++ (if written then [SaveProcessed m] else [])
           /\ (off_ledger w (round_paths rt data) -> f = ledger rt w st)
           /\ ledger rt w st' = (if written then Stored m else f)
           /\ r = (if written then Ok tt else Raise (ledger_error f))).
Proof.
  intros H Ht. apply process_request_ends in H.
  destruct H as [pre Hpre Ht' Hl | pre pub pages_url sha Hpre Hpub Ht' Hl
                 | pre pub pages_url sha email task nonce rp delivered f Hpre Hpub
                     He Htk Hn round_num payload m written Ht' Hf Hl Hr];
    rewrite Ht in Ht'; apply app_inv_head in Ht' as ->.
  - left. split; [|done]. eapply Forall_impl; [exact Hpre|apply staging_no_dispatch].
  - left. split; [|done]. repeat apply Forall_app_2.
    + eapply Forall_impl; [exact Hpre|apply staging_no_dispatch].
    + eapply published_no_dispatch, Hpub.
    + by repeat constructor.
  - right. exists (pre ++ pub ++ [GetCommits sha]).
    exists (field_or data "evaluation_url" JNull), payload, delivered, email, task, nonce, f.
    split; [|do 3 (split; [done|]); cbv zeta; split; [|done]].
    + repeat apply Forall_app_2.
      * eapply Forall_impl; [exact Hpre|apply staging_no_dispatch].
      * eapply published_no_dispatch, Hpub.
      * by repeat constructor.
    + by rewrite <- !app_assoc.
Qed.

Lemma publish_calls_staging pre : Forall staging pre -> publish_calls pre = [].
Proof.
  unfold publish_calls. induction 1 as [|e l He Hl IH]; [done|].
  cbn. rewrite IH. by destruct e.
Qed.

(** C6, amended. In a run that notifies, the outcome's pages_url is: on
    round 1, the address derived from the task if the one request to the
    Pages API was answered 201, 204 or 202, and null otherwise; on any
    other round, the address derived from the task, without any request to
    the Pages API and whatever round 1 had stored. *)
Theorem pages_url_of_round data st r st' evs url payload delivered :
  process_request rt cfg w data st = (r, st') ->
  trace st' = trace st ++ evs ->
  Notify url payload delivered ∈ evs ->
  let address := pages_address rt cfg (field_or data "task" JNull) in
  if Py.eq_int (field_or data "round" (JInt 1)) 1 then
    exists api status,
      publish_calls evs = [PagesPost api status]
      /\ Py.getitem payload "pages_url" = Ok (if activated status then address else JNull)
  else
    publish_calls evs = [] /\ Py.getitem payload "pages_url" = Ok address.
Proof.
  intros H Ht Hin. apply process_request_ends in H.
  destruct H as [pre Hpre Ht' Hl | pre pub pages_url sha Hpre Hpub Ht' Hl
                 | pre pub pages_url sha email task nonce rp delivered' f Hpre Hpub
                     He Htk Hn round_num payload' m written Ht' Hf Hl Hr];
    rewrite Ht in Ht'; apply app_inv_head in Ht' as ->.
  - exfalso. rewrite Forall_forall in Hpre. by apply Hpre in Hin.
  - exfalso. rewrite !elem_of_app in Hin. destruct Hin as [Hin|[Hin|Hin]].
    + rewrite Forall_forall in Hpre. by apply Hpre in Hin.
    + apply published_no_dispatch in Hpub. rewrite Forall_forall in Hpub.
      by apply Hpub in Hin.
    + by apply list_elem_of_singleton in Hin.
  - assert (payload = payload') as ->.
    { rewrite !elem_of_app in Hin. destruct Hin as [Hin|[Hin|[Hin|Hin]]].
      - rewrite Forall_forall in Hpre. by apply Hpre in Hin.
      - apply published_no_dispatch in Hpub. rewrite Forall_forall in Hpub.
        by apply Hpub in Hin.
      - rewrite !elem_of_cons in Hin.
        destruct Hin as [?|[Hin|[?|Hin]]]; try discriminate.
        + by injection Hin.
        + by apply elem_of_nil in Hin.
      - destruct written; [|by apply elem_of_nil in Hin].
        by apply list_elem_of_singleton in Hin. }
    cbv zeta. unfold publish_calls. rewrite !List.filter_app.
    fold (publish_calls pre). rewrite (publish_calls_staging pre Hpre).
    assert (Hw : List.filter (fun e => match e with PagesPost _ _ => true | _ => false end)
                   (if written then [SaveProcessed m] else []) = [])
      by (by destruct written).
    rewrite Hw. clear Hw.
    unfold published in Hpub. fold round_num in Hpub |- *.
    destruct (Py.eq_int round_num 1).
    + destruct Hpub as (api & status & -> & ->). by exists api, status.
    + by destruct Hpub as [-> ->].
Qed.

End Rounds.



(** C8, amended, at the example request, in a world whose notifier raises:
    the ledger is written all the same, after the notification. *)
Lemma ledger_written_after_notification_witness :
  let data := Example.request "s3cret" 1 in
  let w := Example.w in
  let st' := snd (process_request Example.rt Example.cfg w data Example.start) in
  exists pre url payload delivered email task nonce f,
    Forall (fun e => dispatch e = false) pre
    /\ Py.getitem data "email" = Ok email
    /\ Py.getitem data "task" = Ok task
    /\ Py.getitem data "nonce" = Ok nonce
    /\ let key := ledger_key Example.rt email task (field_or data "round" (JInt 1)) nonce in
       let m := <[key := payload]> (stored f) in
       let written := regular f && w_writable w PROCESSED_PATH in
       trace st' = pre ++ [Notify url payload delivered; LoadProcessed f]
                       ++ (if written then [SaveProcessed m] else [])
       /\ (off_ledger w (round_paths Example.rt data) ->
           f = ledger Example.rt w Example.start)
       /\ ledger Example.rt w st' = (if written then Stored m else f)
       /\ fst (process_request Example.rt Example.cfg w data Example.start)
          = (if written then Ok tt else Raise (ledger_error f)).
Proof.
  cbv zeta.
  set (X := process_request _ _ _ _ _).
  destruct (ledger_written_after_notification Example.rt Example.cfg Example.w
              (Example.request "s3cret" 1) Example.start (fst X) (snd X) (trace (snd X))
              (surjective_pairing X) eq_refl)
    as [[Hq _] | H].
  - exfalso. revert Hq. vm_compute. intros Hq.
    repeat match goal with
           | H : Forall _ (_ :: _) |- _ => apply Forall_cons in H as [? H]
           end; discriminate.
  - exact H.
Defined.

(** C8 as stated fails: an attachment whose name leads to the ledger file
    and whose content is the JSON text of an empty list is saved onto the
    file before anything else. The round notifies, reads a list from the
    ledger file, raises when it sets the entry, and writes nothing: the
    notification is not followed by a write of the ledger, and the file
    was changed before the notification. *)
Lemma ledger_overwritten_then_not_saved :
  let w := Scenario.fresh_host None in
  let data := Scenario.request_onto_ledger "W10=" in
  let X := process_request Scenario.rt Example.cfg w data Example.start in
  fst X = Raise TypeError
  /\ (exists payload,
        List.filter dispatch (trace (snd X)) = [Notify (JStr "http://eval") payload true])
  /\ last (trace (snd X)) = Some (LoadProcessed (Other (JArr [])))
  /\ ledger Scenario.rt w Example.start = Absent
  /\ ledger Scenario.rt w (snd X) = Other (JArr []).
Proof.
  cbv zeta. split; [vm_compute; reflexivity|].
  split; [eexists; vm_compute; reflexivity|].
  repeat split; vm_compute; reflexivity.
Qed.

(** C6, amended, at round 1 of the example request: the Pages API answers
    201 and the outcome holds the derived address. *)
Lemma pages_url_of_round_witness :
  let st' := snd (process_request Example.rt Example.cfg Example.w (Example.request "s3cret" 1)
                    Example.start) in
  exists api status,
    publish_calls (trace st') = [PagesPost api status]
    /\ Py.getitem Example.outcome1 "pages_url"
       = Ok (if activated status then JStr "https://alice.github.io/demo1/" else JNull).
Proof.
  cbv zeta.
  set (X := process_request _ _ _ _ _).
  assert (Hin : Notify (JStr "http://eval") Example.outcome1 false ∈ trace (snd X)).
  { apply (list_elem_of_lookup_2 _ 10%nat). vm_compute. reflexivity. }
  generalize (pages_url_of_round Example.rt Example.cfg Example.w (Example.request "s3cret" 1)
           Example.start (fst X) (snd X) (trace (snd X)) (JStr "http://eval")
           Example.outcome1 false (surjective_pairing X) eq_refl Hin).
  vm_compute. exact (fun H => H).
Defined.

(** C6 as stated fails: when the Pages API refuses round 1, the outcome of
    round 1 holds no address, and the outcome of round 2 for the same task
    holds the derived address all the same. *)
Lemma round2_pages_url_differs :
  let w := Example.world_with 500 (Done Example.demo1) None in
  let st1 := snd (process_request Example.rt Example.cfg w (Example.request "s3cret" 1)
                    Example.start) in
  let st2 := snd (process_request Example.rt Example.cfg w (Example.request "s3cret" 2) st1) in
  exists outcome1 outcome2,
    stored (ledger Example.rt w st2) !! "a@b.c::demo1::round1::nonceabc" = Some outcome1
    /\ stored (ledger Example.rt w st2) !! "a@b.c::demo1::round2::nonceabc" = Some outcome2
    /\ Py.getitem outcome1 "pages_url" = Ok JNull
    /\ Py.getitem outcome2 "pages_url" = Ok (JStr "https://alice.github.io/demo1/")
    /\ publish_calls (trace st1)
       = [PagesPost "https://api.github.com/repos/alice/demo1/pages" (Some 500)]
    /\ publish_calls (trace st2) = publish_calls (trace st1).
Proof.
  cbv zeta. eexists _, _.
  split; [vm_compute; reflexivity|].
  split; [vm_compute; reflexivity|].
  repeat split; vm_compute; reflexivity.
Qed.


(** ** The generator adapter *)

Section Adapter.
Context (rt : runtime) (w : world).


Lemma or_else_list l : Py.or_else (JArr l) (JArr []) = JArr l.
Proof. by destruct l. Qed.




(** C9. Whenever generate_app_code returns, the files of its result are
    index.html and README.md, in this order, and nothing else. *)
Theorem generated_files_keys brief atts checks round_num prev_readme st g st' :
  generate_app_code rt w brief atts checks round_num prev_readme st = (Ok g, st') ->
  map fst (gen_files g) = ["index.html"; "README.md"].
Proof.
  unfold generate_app_code. intros H.
  repeat (apply bind_inv in H as [(? & ? & _ & H) | (? & _ & ?)]; [|discriminate]).
  cbv zeta in H.
  repeat (apply bind_inv in H as [(? & ? & _ & H) | (? & _ & ?)]; [|discriminate]).
  by injection H as <- _.
Qed.
End Adapter.



(** C9 at the example request, with the generator down. *)
Lemma generated_files_keys_witness :
  exists g st',
    generate_app_code Example.rt Example.w (JStr "a todo app") (JArr [])
      (JArr [JStr "has add button"]) (JInt 1) None Example.start = (Ok g, st')
    /\ map fst (gen_files g) = ["index.html"; "README.md"].
Proof.
  eexists _, _. split; [vm_compute; reflexivity|].
  eapply (generated_files_keys Example.rt Example.w (JStr "a todo app") (JArr [])
            (JArr [JStr "has add button"]) (JInt 1) None Example.start).
  vm_compute. reflexivity.
Defined.


(** ** Facts on strings *)

Lemma append_cons c a b : String c a +:+ b = String c (a +:+ b).
Proof. reflexivity. Qed.

Lemma append_assoc a b c : (a +:+ b) +:+ c = a +:+ (b +:+ c).
Proof. induction a as [|x a IH]; [done|]. by rewrite !append_cons, IH. Qed.

Lemma append_length a b : String.length (a +:+ b) = (String.length a + String.length b)%nat.
Proof. induction a as [|x a IH]; [done|]. rewrite append_cons. cbn. by rewrite IH. Qed.

Lemma strip_prefix_spec p s r : strip_prefix p s = Some r -> s = p +:+ r.
Proof.
  revert s. induction p as [|a p IH]; intros s; cbn.
  - by intros [= ->].
  - destruct s as [|b s]; [done|].
    destruct (Ascii.eqb_spec a b) as [->|]; [|done].
    intros H. rewrite append_cons. by rewrite (IH _ H).
Qed.

Lemma strip_prefix_append p r : strip_prefix p (p +:+ r) = Some r.
Proof.
  induction p as [|a p IH]; [done|]. rewrite append_cons. cbn.
  by rewrite Ascii.eqb_refl.
Qed.

(** A prefix that a string does not start with is not a prefix of its
    beginning either. *)
Lemma strip_prefix_none_l p a b : strip_prefix p (a +:+ b) = None -> strip_prefix p a = None.
Proof.
  revert a. induction p as [|x p IH]; intros a; [done|].
  destruct a as [|y a]; [done|]. rewrite append_cons. cbn.
  destruct (Ascii.eqb x y); [apply IH|done].
Qed.

Lemma partition_unfold sep c s :
  partition sep (String c s)
  = match strip_prefix sep (String c s) with
    | Some rest => Some (EmptyString, rest)
    | None =>
        match partition sep s with
        | Some (a, b) => Some (String c a, b)
        | None => None
        end
    end.
Proof. reflexivity. Qed.

Lemma partition_spec sep s a b : partition sep s = Some (a, b) -> s = a +:+ sep +:+ b.
Proof.
  revert a. induction s as [|c s IH]; intros a.
  - cbn. destruct (strip_prefix sep "") as [rest|] eqn:E; [|done].
    intros [= <- <-]. by apply strip_prefix_spec in E.
  - rewrite partition_unfold.
    destruct (strip_prefix sep (String c s)) as [rest|] eqn:E.
    + intros [= <- <-]. by apply strip_prefix_spec in E.
    + destruct (partition sep s) as [[a' b']|]; [|done].
      intros [= <- <-]. rewrite append_cons. by rewrite <- (IH a').
Qed.

(** Where two ways of cutting a string end: the shorter tail is a suffix
    of the longer one. *)
Lemma append_suffix u v p q :
  u +:+ v = p +:+ q -> (String.length q <= String.length v)%nat -> exists z, v = z +:+ q.
Proof.
  revert p. induction u as [|c u IH]; intros p H Hlen.
  - exists p. exact H.
  - destruct p as [|d p].
    + exfalso. change ("" +:+ q) with q in H. subst q.
      rewrite append_cons in Hlen. cbn in Hlen. rewrite append_length in Hlen. lia.
    + rewrite !append_cons in H. injection H as _ H. by eapply IH.
Qed.

(** The text after the first occurrence of a separator ends with the text
    after any of its occurrences. *)
Lemma partition_suffix sep x y a b :
  partition sep (x +:+ sep +:+ y) = Some (a, b) -> exists z, b = z +:+ y.
Proof.
  intros H. pose proof (partition_spec _ _ _ _ H) as Heq.
  assert (Hlen : (String.length a <= String.length x)%nat).
  { clear Heq. revert a b H. induction x as [|c x IH]; intros a b.
    - change ("" +:+ sep +:+ y) with (sep +:+ y).
      destruct (sep +:+ y) as [|c s] eqn:E.
      + cbn. destruct (strip_prefix sep ""); [|done]. by intros [= <- _].
      + rewrite partition_unfold, <- E, strip_prefix_append. by intros [= <- _].
    - rewrite append_cons, partition_unfold.
      destruct (strip_prefix sep _); [by intros [= <- _]; cbn; lia|].
      destruct (partition sep (x +:+ sep +:+ y)) as [[a' b']|] eqn:E; [|done].
      intros [= <- _]. cbn. specialize (IH a' b' eq_refl). lia. }
  rewrite <- !append_assoc in Heq. symmetry in Heq.
  apply append_suffix in Heq; [done|].
  apply (f_equal String.length) in Heq. rewrite !append_length in Heq. lia.
Qed.

Lemma partition_found sep x y : partition sep (x +:+ sep +:+ y) <> None.
Proof.
  induction x as [|c x IH].
  - change ("" +:+ sep +:+ y) with (sep +:+ y).
    destruct (sep +:+ y) as [|c s] eqn:E.
    + destruct sep; [done|discriminate].
    + rewrite partition_unfold, <- E, strip_prefix_append. done.
  - rewrite append_cons, partition_unfold.
    destruct (strip_prefix sep _); [done|].
    by destruct (partition sep (x +:+ sep +:+ y)) as [[a' b']|].
Qed.

Lemma partition_none_r t a b : partition t (a +:+ b) = None -> partition t b = None.
Proof.
  induction a as [|c a IH]; [done|]. rewrite append_cons, partition_unfold.
  destruct (strip_prefix t _); [done|].
  destruct (partition t (a +:+ b)) as [[x y]|]; [done|]. auto.
Qed.

Lemma partition_none_l t a b : partition t (a +:+ b) = None -> partition t a = None.
Proof.
  induction a as [|c a IH].
  - change ("" +:+ b) with b. intros H. cbn.
    destruct t as [|x t]; [|done]. by destruct b.
  - rewrite append_cons, !partition_unfold.
    destruct (strip_prefix t (String c (a +:+ b))) eqn:E; [done|].
    rewrite <- append_cons in E. rewrite (strip_prefix_none_l _ _ _ E).
    destruct (partition t (a +:+ b)) as [[x y]|]; [done|]. intros _. by rewrite IH.
Qed.

(** A string without a code fence has none in its parts. *)
Lemma contains_parts t a m b :
  contains t (a +:+ m +:+ b) = false -> contains t a = false /\ contains t b = false.
Proof.
  unfold contains. intros H.
  destruct (partition t (a +:+ m +:+ b)) eqn:E; [done|].
  rewrite (partition_none_l _ _ _ E).
  apply partition_none_r, partition_none_r in E. by rewrite E.
Qed.

Lemma all_space_append a b : all_space (a +:+ b) = all_space a && all_space b.
Proof.
  induction a as [|c a IH]; [done|]. rewrite append_cons. cbn.
  by rewrite IH, andb_assoc.
Qed.

Lemma whitespace_all_space t : In t whitespace -> all_space t = true.
Proof.
  unfold whitespace. cbn [In]. intros H.
  repeat (destruct H as [<-|H]; [vm_compute; reflexivity|]). done.
Qed.

Lemma drop_space_spec ws s r :
  drop_space ws s = Some r -> exists t, In t ws /\ s = t +:+ r.
Proof.
  induction ws as [|t ws IH]; [done|]. cbn.
  destruct (strip_prefix t s) as [rest|] eqn:E.
  - intros [= <-]. exists t. split; [by left|]. by apply strip_prefix_spec.
  - intros H. destruct (IH H) as (t' & Hin & Heq). exists t'. split; [by right|done].
Qed.

Lemma lstrip_go_all_space n s : all_space (lstrip_go n s) = true -> all_space s = true.
Proof.
  revert s. induction n as [|n IH]; intros s; [done|]. cbn [lstrip_go].
  destruct (drop_space whitespace s) as [r|] eqn:E; [|done].
  intros H. apply IH in H. apply drop_space_spec in E as (t & Hin & ->).
  by rewrite all_space_append, (whitespace_all_space t Hin), H.
Qed.

Lemma rstrip_empty s : rstrip s = EmptyString -> all_space s = true.
Proof.
  destruct s as [|c s]; [done|]. cbn [rstrip].
  destruct (lstrip (String c s)) eqn:E; [|done].
  intros _. apply (lstrip_go_all_space (String.length (String c s))).
  unfold lstrip in E. by rewrite E.
Qed.

(** What [strip] leaves is not empty when the string holds a byte that is
    no part of a whitespace character. *)
Lemma strip_not_empty s : all_space s = false -> strip s <> EmptyString.
Proof.
  intros H Hs. unfold strip in Hs. apply rstrip_empty in Hs.
  apply lstrip_go_all_space in Hs. congruence.
Qed.

(** ** Totality of the generator adapter *)

Section Fallback.
Context (rt : runtime) (w : world).

Lemma fallback_template_split brief readme :
  fallback_template brief readme
  = fallback_head brief +:+ "---README.md---" +:+ (nl +:+ readme +:+ nl).
Proof.
  unfold fallback_template, fallback_head, lines. cbn [join].
  rewrite !append_assoc. reflexivity.
Qed.

Lemma strip_code_block_plain text :
  contains "```" text = false -> _strip_code_block text = strip text.
Proof. unfold _strip_code_block. by intros ->. Qed.

(** The two documents cut out of a fallback text without code fence are
    not empty. *)
Lemma fallback_documents brief round_num att_text checks_text a b :
  let doc := fallback_template brief (readme_template round_num brief att_text checks_text) in
  contains "```" doc = false ->
  partition "---README.md---" doc = Some (a, b) ->
  _strip_code_block a <> EmptyString /\ _strip_code_block b <> EmptyString.
Proof.
  intros doc Hfence Hpart.
  pose proof (partition_spec _ _ _ _ Hpart) as Hdoc.
  rewrite Hdoc in Hfence. apply contains_parts in Hfence as [Ha Hb].
  rewrite !strip_code_block_plain by done.
  split; apply strip_not_empty.
  - (* the text starts with a newline and an angle bracket *)
    unfold doc, fallback_template, lines in Hpart. cbn [join] in Hpart.
    change ("" +:+ nl +:+ "<html>" +:+ ?x) with (String "010" (String "<" ("html>" +:+ x)))
      in Hpart.
    rewrite !partition_unfold in Hpart. cbn [strip_prefix Ascii.eqb] in Hpart.
    cbn in Hpart.
    destruct (partition _ _) as [[a' b']|]; [|done].
    injection Hpart as <- _. reflexivity.
  - (* the text ends with the README, which starts with a hash sign *)
    unfold doc in Hpart. rewrite fallback_template_split in Hpart.
    apply partition_suffix in Hpart as [z ->].
    rewrite all_space_append. apply andb_false_intro2. reflexivity.
Qed.
Lemma decode_attachment_total att st :
  entry_ok att = true -> exists s st1, decode_attachment rt w att st = (Ok s, st1).
Proof.
  unfold entry_ok, decode_attachment, bind, lift.
  destruct att as [| | | | | |kv]; try discriminate. cbn.
  destruct (Py.lookup kv "url") as [[| | | |url| |]|]; try discriminate; intros _.
  - destruct (negb (startswith url "data:")); [by eexists _, _|].
    unfold catch. destruct (_ st) as [[s|e] st1]; by eexists _, _.
  - by eexists _, _.
Qed.

Lemma decode_loop_total l st :
  forallb entry_ok l = true -> exists saved_list st1, decode_loop rt w l st = (Ok saved_list, st1).
Proof.
  revert st. induction l as [|att l IH]; intros st; cbn; [by eexists _, _|].
  intros [Hatt Hl]%andb_prop.
  destruct (decode_attachment_total att st Hatt) as (s & st1 & E1).
  destruct (IH st1 Hl) as (rest & st2 & E2).
  unfold bind. rewrite E1, E2. by eexists _, _.
Qed.

Lemma decode_attachments_total atts st :
  attachments_ok atts = true ->
  exists saved_list st1,
    decode_attachments rt w (Py.or_else atts (JArr [])) st = (Ok saved_list, st1).
Proof.
  unfold attachments_ok, decode_attachments. rewrite or_else_idem.
  destruct (Py.or_else atts (JArr [])); try discriminate. apply decode_loop_total.
Qed.

Lemma summarize_total l st :
  exists meta, summarize_attachment_meta rt w l st = (Ok meta, st).
Proof.
  unfold summarize_attachment_meta, bind.
  assert (H : exists x, summarize_loop rt w l st = (Ok x, st)).
  { induction l as [|s l [x IH]]; cbn; [by eexists|].
    unfold bind, summarize_attachment, bind, read_file.
    destruct (text_like _ _); cbn; [destruct (fs st !! _); cbn|];
      rewrite IH; by eexists. }
  destruct H as [x ->]. by eexists.
Qed.

Lemma all_str_strs cs : all_str (map JStr cs) = Some cs.
Proof. induction cs as [|c cs IH]; [done|]. cbn. by rewrite IH. Qed.

Lemma join_checks_strs cs : join_checks (JArr (map JStr cs)) = Ok (join "\n" cs).
Proof. unfold join_checks. by rewrite or_else_list, all_str_strs. Qed.

Lemma fallback_text_strs brief cs meta round_num :
  fallback_text rt brief (JArr (map JStr cs)) meta round_num
  = Ok (fallback_template (Py.str rt brief)
          (readme_template (Py.str rt round_num) (Py.str rt brief) meta (join "\n" cs))).
Proof.
  unfold fallback_text, generate_readme_fallback. by rewrite join_checks_strs.
Qed.

(** What the [try] block and its handler give, for checks that are
    strings. *)
Lemma generated_text_run brief cs meta round_num prompt st :
  generated_text rt w brief (JArr (map JStr cs)) meta round_num prompt st
  = (Ok (match w_generate w (trace st) prompt with
         | Some resp_json =>
             match extract_text resp_json with
             | Ok text =>
                 if Py.truthy text then text
                 else JStr (fallback_template (Py.str rt brief)
                              (readme_template (Py.str rt round_num) (Py.str rt brief) meta
                                 (join "\n" cs)))
             | Raise _ =>
                 JStr (fallback_template (Py.str rt brief)
                         (readme_template (Py.str rt round_num) (Py.str rt brief) meta
                            (join "\n" cs)))
             end
         | None =>
             JStr (fallback_template (Py.str rt brief)
                     (readme_template (Py.str rt round_num) (Py.str rt brief) meta
                        (join "\n" cs)))
         end),
     then_called st (Generate prompt (w_generate w (trace st) prompt))).
Proof.
  unfold generated_text, catch, bind, call, lift, then_called.
  rewrite fallback_text_strs. cbv beta iota zeta.
  destruct (w_generate w (trace st) prompt) as [resp_json|]; [|reflexivity].
  cbv beta iota zeta.
  destruct (extract_text resp_json) as [text|e]; [|reflexivity].
  cbv beta iota zeta. destruct (Py.truthy text); reflexivity.
Qed.

(** From a text that is a string to the returned dictionary. *)
Lemma split_text_run brief cs meta round_num text st :
  exists code_part readme_part,
    split_text rt brief (JArr (map JStr cs)) meta round_num (JStr text) st
    = (Ok (code_part, readme_part), st)
    /\ forall a b, partition "---README.md---" text = Some (a, b) ->
         code_part = _strip_code_block a /\ readme_part = _strip_code_block b.
Proof.
  unfold split_text.
  destruct (partition "---README.md---" text) as [[a b]|].
  - eexists _, _. split; [reflexivity|]. by intros ? ? [= <- <-].
  - unfold bind, lift, generate_readme_fallback. rewrite join_checks_strs. cbn.
    eexists _, _. split; [reflexivity|]. done.
Qed.

(** The two documents, for attachments and checks of the expected types
    and a generator outcome that is a failure or a string. *)
Lemma generate_documents_run brief atts cs round_num prev_readme st :
  attachments_ok atts = true ->
  (forall h p, usable (w_generate w h p) = true) ->
  exists saved_list code readme st1,
    generate_documents rt w brief atts (JArr (map JStr cs)) round_num prev_readme st
    = (Ok (saved_list, (code, readme)), st1)
    /\ ((forall h p, failed (w_generate w h p) = true) ->
        forall doc,
          fallback_text rt brief (JArr (map JStr cs)) (attachment_summary rt w atts st) round_num
          = Ok doc ->
          contains "```" doc = false ->
          code <> EmptyString /\ readme <> EmptyString).
Proof.
  intros Hatts Huse.
  destruct (decode_attachments_total atts st Hatts) as (saved_list & st1 & Hdec).
  destruct (summarize_total saved_list st1) as (meta & Hsum).
  assert (Hmeta : attachment_summary rt w atts st = meta)
    by (unfold attachment_summary; by rewrite Hdec, Hsum).
  unfold generate_documents. unfold bind at 1. rewrite Hdec.
  unfold bind at 1. rewrite Hsum. cbv zeta.
  set (prompt := prompt_template _ _ _ _ _).
  unfold bind at 1. rewrite generated_text_run.
  set (doc0 := fallback_template _ _).
  set (st2 := then_called st1 _).
  assert (Htext : exists text,
             match w_generate w (trace st1) prompt with
             | Some resp_json =>
                 match extract_text resp_json with
                 | Ok text => if Py.truthy text then text else JStr doc0
                 | Raise _ => JStr doc0
                 end
             | None => JStr doc0
             end = JStr text
             /\ (failed (w_generate w (trace st1) prompt) = true -> text = doc0)).
  { specialize (Huse (trace st1) prompt). unfold usable, failed in *.
    destruct (w_generate w (trace st1) prompt) as [resp_json|]; [|by eexists].
    destruct (extract_text resp_json) as [text|e]; [|by eexists].
    destruct (Py.truthy text) eqn:E; [|by eexists].
    destruct text; try discriminate. eexists. split; [reflexivity|]. discriminate. }
  destruct Htext as (text & -> & Hfail).
  destruct (split_text_run brief cs meta round_num text st2)
    as (code_part & readme_part & Hsplit & Hparts).
  unfold bind, ret. rewrite Hsplit.
  eexists _, _, _, _. split; [reflexivity|].
  intros Hfailed doc Hdoc Hfence.
  rewrite Hmeta, fallback_text_strs in Hdoc. injection Hdoc as <-.
  fold doc0 in Hfence.
  specialize (Hfail (Hfailed _ _)). subst text.
  destruct (partition "---README.md---" doc0) as [[a b]|] eqn:Hpart.
  - destruct (Hparts a b eq_refl) as [-> ->].
    by destruct (fallback_documents _ _ _ _ a b Hfence Hpart) as [Ha Hb].
  - exfalso. unfold doc0 in Hpart. rewrite fallback_template_split in Hpart.
    by apply partition_found in Hpart.
Qed.

(** C4, amended. For attachments that are a list of objects whose url,
    when present, is a string, checks that are a list of strings, a
    writable output directory and a generator outcome that is a failure or
    whose text is a string, generate_app_code computes its two documents,
    and it returns exactly when both can be written as UTF-8, that is when
    neither holds a lone surrogate; its files are then index.html and
    README.md with these documents. Otherwise it raises UnicodeEncodeError
    at the write. When the generator fails and the fallback text holds no
    code fence, both documents are non-empty. *)
Theorem generate_app_code_total brief atts cs round_num prev_readme st :
  attachments_ok atts = true ->
  w_writable w "generated_app/index.html" = true ->
  w_writable w "generated_app/README.md" = true ->
  (forall h p, usable (w_generate w h p) = true) ->
  exists saved_list code readme st1 st',
    generate_documents rt w brief atts (JArr (map JStr cs)) round_num prev_readme st
    = (Ok (saved_list, (code, readme)), st1)
    /\ generate_app_code rt w brief atts (JArr (map JStr cs)) round_num prev_readme st
       = (if surrogate_free code && surrogate_free readme
          then Ok {| gen_files := [("index.html", code); ("README.md", readme)];
                     gen_attachments := saved_list |}
          else Raise UnicodeEncodeError,
          st')
    /\ ((forall h p, failed (w_generate w h p) = true) ->
        forall doc,
          fallback_text rt brief (JArr (map JStr cs)) (attachment_summary rt w atts st) round_num
          = Ok doc ->
          contains "```" doc = false ->
          code <> EmptyString /\ readme <> EmptyString).
Proof.
  intros Hatts Hw1 Hw2 Huse.
  destruct (generate_documents_run brief atts cs round_num prev_readme st Hatts Huse)
    as (saved_list & code & readme & st1 & Hdocs & Hfilled).
  exists saved_list, code, readme, st1.
  unfold generate_app_code. unfold bind at 1. rewrite Hdocs. cbv zeta. cbn [fst snd].
  unfold bind, write_text, ret. rewrite Hw1.
  destruct (surrogate_free code); cbn [andb]; [rewrite Hw2; destruct (surrogate_free readme)|];
    eexists; (split; [reflexivity|]); (split; [reflexivity|exact Hfilled]).
Qed.
End Fallback.

(** C4 as stated fails. A generator text that is the README marker alone
    gives two empty documents; a generator text that is a number makes the
    function raise; with the generator down, a brief made of two code
    fences gives two empty documents, and a brief that holds a lone
    surrogate (here U+D800) makes the write of index.html raise. *)
Lemma generated_content_can_be_empty :
  let run answer brief :=
    fst (generate_app_code Example.rt (Example.world_with 201 (Done Example.demo1) answer)
           brief (JArr []) (JArr [JStr "has add button"]) (JInt 1) None Example.start) in
  let empty := {| gen_files := [("index.html", EmptyString); ("README.md", EmptyString)];
                  gen_attachments := [] |} in
  run (Some (Example.answer (JStr "---README.md---"))) (JStr "a todo app") = Ok empty
  /\ run (Some (Example.answer (JInt 5))) (JStr "a todo app") = Raise TypeError
  /\ run None (JStr "``````") = Ok empty
  /\ run None (JStr (String "237" (String "160" (String "128" EmptyString))))
     = Raise UnicodeEncodeError.
Proof. cbv zeta. repeat split; vm_compute; reflexivity. Qed.

(** C4, amended, at the example request with the generator down. *)
Lemma generate_app_code_total_witness :
  exists code readme st',
    generate_app_code Example.rt Example.w (JStr "a todo app") (JArr [])
      (JArr (map JStr ["has add button"])) (JInt 1) None Example.start
    = (Ok {| gen_files := [("index.html", code); ("README.md", readme)];
             gen_attachments := [] |}, st')
    /\ code <> EmptyString /\ readme <> EmptyString.
Proof.
  destruct (generate_app_code_total Example.rt Example.w (JStr "a todo app") (JArr [])
              ["has add button"] (JInt 1) None Example.start)
    as (saved_list & code & readme & st1 & st' & Hdocs & Hrun & Hfilled);
    [reflexivity | reflexivity | reflexivity | intros; reflexivity |].
  exists code, readme, st'.
  assert (Hsaved : saved_list = []).
  { revert Hdocs. vm_compute. by intros [= <- _ _ _]. }
  assert (Hfree : surrogate_free code && surrogate_free readme = true).
  { revert Hdocs. vm_compute. by intros [= _ <- <- _]. }
  rewrite Hfree, Hsaved in Hrun.
  split; [exact Hrun|].
  eapply Hfilled; [intros; reflexivity | apply fallback_text_strs | vm_compute; reflexivity].
Defined.

(** * The repository host *)

Local Set Warnings "-clear-no-such-hyp".

Section Host.
Context (rt : runtime) (w : world).

(** X1. create_repo first looks the repository up. It asks for a creation
    only when the lookup was answered 404, and then once; a repository that
    exists is returned without any creation request. It returns normally
    exactly when its last call returned a repository, which is then its
    result. *)
Theorem create_repo_creates_only_when_missing name description st r st' :
  create_repo w name description st = (r, st') ->
  exists found rest,
    trace st' = trace st ++ GetRepo name found :: rest
    /\ (rest = [] \/ exists created, found = Github 404
                                   /\ rest = [CreateRepo name description created])
    /\ (forall rp, found = Done rp -> rest = [] /\ r = Ok rp)
    /\ (forall rp, r = Ok rp <-> (last (GetRepo name found :: rest) ≫= returned_repo) = Some rp).
Proof.
  unfold create_repo, bind, call, expect, ret, raise. cbv beta iota zeta.
  destruct (w_get_repo w (trace st) name) as [rp0|status|] eqn:E1; cbv beta iota zeta.
  - intros [= <- <-]. exists (Done rp0), []. cbn.
    split; [done|]. split; [by left|]. split; [by intros ? [= <-]|].
    intros rp. split; by intros [= <-].
  - destruct (Z.eqb_spec status 404) as [->|Hne]; cbn [negb]; cbv beta iota zeta.
    + match goal with
      | |- context [w_create_repo w ?h name description] =>
          destruct (w_create_repo w h name description) as [rp1|status1|] eqn:E2
      end; cbv beta iota zeta; intros [= <- <-]; cbn [trace];
        rewrite <- app_assoc; eexists (Github 404), [_];
        (split; [reflexivity|]); (split; [right; eexists; split; reflexivity|]);
        (split; [done|]); intros rp; cbn; split; intros [= <-]; done.
    + intros [= <- <-]. exists (Github status), []. cbn.
      split; [done|]. split; [by left|]. split; [done|]. intros rp. by split.
  - intros [= <- <-]. exists Failed, []. cbn.
    split; [done|]. split; [by left|]. split; [done|]. intros rp. by split.
Qed.

Ltac host_case :=
  intros [= <- <-]; cbn [trace]; rewrite <- ?app_assoc; cbn [app];
  eexists; (split; [reflexivity|]).

(** X2. create_or_update_file makes calls about its own path only. It
    returns normally exactly when its last call is an update or a creation
    of the file with the given content that the host accepted; no call
    follows an accepted write. It asks for a creation only after a lookup
    or an update was answered 404. *)
Theorem create_or_update_file_upserts rp path c message st r st' :
  create_or_update_file w rp path c message st = (r, st') ->
  exists evs,
    trace st' = trace st ++ evs
    /\ Forall (fun e => call_path e = Some path) evs
    /\ (r = Ok tt <-> (last evs ≫= written) = Some (path, c))
    /\ (forall e, e ∈ evs -> written e <> None -> last evs = Some e)
    /\ (forall m c' x, CreateFile path m c' x ∈ evs -> exists e, e ∈ evs /\ not_found e = true).
Proof.
  unfold create_or_update_file, bind, call, expect, ret, raise. cbv beta iota zeta.
  destruct (w_get_contents w (trace st) rp path) as [[sha b]|status|] eqn:E1;
    cbv beta iota zeta.
  - match goal with
    | |- context [w_update_file w ?h rp path message c sha] =>
        destruct (w_update_file w h rp path message c sha) as [[]|status|] eqn:E2
    end; cbv beta iota zeta.
    + host_case. split; [by repeat constructor|]. split; [done|].
      split; intros *; rewrite !elem_of_cons, elem_of_nil; naive_solver.
    + destruct (Z.eqb_spec status 404) as [->|Hne]; cbv beta iota zeta.
      * match goal with
        | |- context [w_create_file w ?h rp path message c] =>
            destruct (w_create_file w h rp path message c) as [[]|status1|] eqn:E3
        end; cbv beta iota zeta; host_case;
          (split; [by repeat constructor|]); (split; [done|]);
          split; intros *; rewrite !elem_of_cons, elem_of_nil; try naive_solver.
        all: intros _; exists (UpdateFile path message c sha (Github 404));
          rewrite !elem_of_cons; naive_solver.
      * host_case. split; [by repeat constructor|]. split; [done|].
        split; intros *; rewrite !elem_of_cons, elem_of_nil; naive_solver.
    + host_case. split; [by repeat constructor|]. split; [done|].
      split; intros *; rewrite !elem_of_cons, elem_of_nil; naive_solver.
  - destruct (Z.eqb_spec status 404) as [->|Hne]; cbv beta iota zeta.
    + match goal with
      | |- context [w_create_file w ?h rp path message c] =>
          destruct (w_create_file w h rp path message c) as [[]|status1|] eqn:E3
      end; cbv beta iota zeta; host_case;
        (split; [by repeat constructor|]); (split; [done|]);
        split; intros *; rewrite !elem_of_cons, elem_of_nil; try naive_solver.
      all: intros _; exists (GetContents path (Github 404));
        rewrite !elem_of_cons; naive_solver.
    + host_case. split; [by repeat constructor|]. split; [done|].
      split; intros *; rewrite !elem_of_cons, elem_of_nil; naive_solver.
  - host_case. split; [by repeat constructor|]. split; [done|].
    split; intros *; rewrite !elem_of_cons, elem_of_nil; naive_solver.
Qed.

Ltac calls_case :=
  intros [= <- <-]; cbn [trace fs]; rewrite <- ?app_assoc; cbn [app];
  (split; [done|]); eexists; (split; [reflexivity|]).

Lemma create_or_update_file_calls rp path c message st r st' :
  create_or_update_file w rp path c message st = (r, st') ->
  fs st' = fs st
  /\ exists evs, trace st' = trace st ++ evs /\ upsert_calls path message c false evs r.
Proof.
  unfold create_or_update_file, bind, call, expect, ret, raise. cbv beta iota zeta.
  destruct (w_get_contents w (trace st) rp path) as [[sha b]|status|] eqn:E1;
    cbv beta iota zeta.
  - match goal with
    | |- context [w_update_file w ?h rp path message c sha] =>
        destruct (w_update_file w h rp path message c sha) as [[]|status|] eqn:E2
    end; cbv beta iota zeta.
    + calls_case. constructor.
    + destruct (Z.eqb_spec status 404) as [->|Hne]; cbv beta iota zeta.
      * match goal with
        | |- context [w_create_file w ?h rp path message c] =>
            destruct (w_create_file w h rp path message c) as [[]|status1|] eqn:E3
        end; cbv beta iota zeta; calls_case.
        -- apply (upsert_update_missing _ _ _ _ _ _ (Done tt)).
        -- apply (upsert_update_missing _ _ _ _ _ _ (Github status1)).
        -- apply (upsert_update_missing _ _ _ _ _ _ Failed).
      * calls_case. by apply (upsert_update_refused _ _ _ false).
    + calls_case. constructor.
  - destruct (Z.eqb_spec status 404) as [->|Hne]; cbv beta iota zeta.
    + match goal with
      | |- context [w_create_file w ?h rp path message c] =>
          destruct (w_create_file w h rp path message c) as [[]|status1|] eqn:E3
      end; cbv beta iota zeta; calls_case.
      * apply (upsert_created _ _ _ _ (Done tt)).
      * apply (upsert_created _ _ _ _ (Github status1)).
      * apply (upsert_created _ _ _ _ Failed).
    + calls_case. by apply (upsert_lookup_refused _ _ _ false).
  - calls_case. constructor.
Qed.

Lemma create_or_update_binary_file_calls rp path b message st r st' :
  create_or_update_binary_file rt w rp path b message st = (r, st') ->
  fs st' = fs st
  /\ exists evs1 evs2,
       trace st' = trace st ++ evs1 ++ evs2
       /\ ((exists e, r = Raise e /\ evs2 = []
                     /\ upsert_calls path message (Binary b) false evs1 (Raise e))
           \/ (upsert_calls path message (Binary b) false evs1 (Ok tt)
               /\ upsert_calls ("attachments/" +:+ basename path +:+ ".b64")
                    ("Backup " +:+ path) (Text (b64encode rt b)) true evs2 r)).
Proof.
  unfold create_or_update_binary_file. cbv zeta. intros H.
  apply bind_inv in H as [([] & st1 & E & H) | (e & E & ->)];
    apply create_or_update_file_calls in E as (Hfs & evs1 & Ht & Hup).
  2:{ split; [done|]. exists evs1, []. rewrite app_nil_r.
      split; [done|]. left. by exists e. }
  set (bp := "attachments/" +:+ basename path +:+ ".b64") in *.
  set (msg := "Backup " +:+ path) in *.
  set (c := Text (b64encode rt b)) in *.
  assert (Hgoal : fs st' = fs st1
                  /\ exists evs2, trace st' = trace st1 ++ evs2
                                  /\ upsert_calls bp msg c true evs2 r).
  { revert H. unfold bind, call, expect, ret, raise. cbv beta iota zeta.
    destruct (w_get_contents w (trace st1) rp bp) as [[sha b0]|status|] eqn:E1;
      cbv beta iota zeta.
    - match goal with
      | |- context [w_update_file w ?h rp bp msg c sha] =>
          destruct (w_update_file w h rp bp msg c sha) as [[]|status|] eqn:E2
      end; cbv beta iota zeta.
      + calls_case. constructor.
      + destruct (Z.eqb_spec status 404) as [->|Hne]; cbv beta iota zeta.
        * match goal with
          | |- context [w_create_file w ?h rp bp msg c] =>
              destruct (w_create_file w h rp bp msg c) as [[]|status1|] eqn:E3
          end; cbv beta iota zeta; calls_case.
          -- apply (upsert_update_missing _ _ _ _ _ _ (Done tt)).
          -- apply (upsert_update_missing _ _ _ _ _ _ (Github status1)).
          -- apply (upsert_update_missing _ _ _ _ _ _ Failed).
        * calls_case. by apply (upsert_update_refused _ _ _ true).
      + calls_case. constructor.
    - destruct (Z.eqb_spec status 404) as [->|Hne]; cbv beta iota zeta.
      + match goal with
        | |- context [w_create_file w ?h rp bp msg c] =>
            destruct (w_create_file w h rp bp msg c) as [[]|status1|] eqn:E3
        end; cbv beta iota zeta; calls_case.
        * apply (upsert_created _ _ _ _ (Done tt)).
        * apply (upsert_created _ _ _ _ (Github status1)).
        * apply (upsert_created _ _ _ _ Failed).
      + calls_case. by apply (upsert_lookup_refused _ _ _ true).
    - calls_case. constructor. }
  destruct Hgoal as (Hfs2 & evs2 & Ht2 & Hup2).
  split; [congruence|]. exists evs1, evs2.
  split; [by rewrite Ht2, Ht, app_assoc|]. by right.
Qed.

(** X3. In create_or_update_binary_file a lookup or an update of the
    base64 backup that the host refuses with a status other than 404 is
    passed over: once the binary file itself was written, such a refusal
    ends the function normally, with the binary file as its only write. *)
Theorem backup_refusal_passed_over rp path b message st r st' evs e :
  create_or_update_binary_file rt w rp path b message st = (r, st') ->
  trace st' = trace st ++ evs ->
  (path, Binary b) ∈ writes evs ->
  last evs = Some e ->
  refused e = true ->
  r = Ok tt /\ writes evs = [(path, Binary b)].
Proof.
  intros H Ht Hmain Hlast Href.
  apply create_or_update_binary_file_calls in H
    as (_ & evs1 & evs2 & Ht' & [(x & -> & -> & Hup) | [Hup1 Hup2]]);
    rewrite Ht in Ht'; apply app_inv_head in Ht' as ->.
  - exfalso. rewrite app_nil_r in Hmain.
    inversion Hup as [| ? ? y Hy | | | y Hy | |]; subst; cbn in Hmain;
      try (by apply elem_of_nil in Hmain);
      destruct y as [[]| |]; cbn in *; try discriminate;
      by apply elem_of_nil in Hmain.
  - assert (Hw1 : writes evs1 = [(path, Binary b)]).
    { inversion Hup1 as [| ? ? y Hy | | | y Hy | |]; subst; try done;
        destruct y as [[]| |]; cbn in *; done. }
    unfold writes in *. rewrite omap_app, Hw1.
    inversion Hup2 as [| ? ? y Hy | | | y Hy | |]; subst;
      rewrite last_app in Hlast; cbn in Hlast; injection Hlast as <-;
      cbn in Href; try discriminate; done.
Qed.

Lemma contains_found sep x y : contains sep (x +:+ sep +:+ y) = true.
Proof.
  unfold contains. pose proof (partition_found sep x y).
  by destruct (partition sep (x +:+ sep +:+ y)).
Qed.

(** The last component of a path whose last component holds no slash. *)
Lemma basename_last dir name :
  contains "/" name = false -> basename (dir +:+ "/" +:+ name) = name.
Proof.
  intros Hname. induction dir as [|c dir IH].
  - change (EmptyString +:+ "/" +:+ name) with (String "/" name). cbn [basename].
    by rewrite Hname.
  - rewrite append_cons. cbn [basename]. by rewrite contains_found.
Qed.

Lemma upsert_calls_clean path message c lenient evs r :
  upsert_calls path message c lenient evs r ->
  Forall (fun e => failing e = false) evs ->
  r = Ok tt /\ writes evs = [(path, c)].
Proof.
  intros Hup Hclean.
  inversion Hup as [| ? ? y | ? ? status Hs | | y | status Hs |]; subst; try done.
  - by apply Forall_cons_1 in Hclean as [_ [? _]%Forall_cons_1].
  - apply Forall_cons_1 in Hclean as [_ [? _]%Forall_cons_1]. done.
  - by apply Forall_cons_1 in Hclean as [_ [? _]%Forall_cons_1].
  - apply Forall_cons_1 in Hclean as [_ [Hy _]%Forall_cons_1].
    by destruct y as [[]| |].
  - apply Forall_cons_1 in Hclean as [Hf _]. cbn in Hf.
    apply negb_false_iff, Z.eqb_eq in Hf. done.
  - by apply Forall_cons_1 in Hclean as [? _].
Qed.

(** X4. The commit of a binary attachment whose name holds no slash, when
    none of its calls fails, writes three files: the binary under
    attachments/, then its base64 text under the same path with .b64
    appended, twice: once by create_or_update_binary_file and once more by
    process_request itself. *)
Theorem binary_attachment_backed_up_twice rp att content_bytes st r st' evs :
  file_bytes rt <$> fs st !! w_file w (att_path att) = Some content_bytes ->
  startswith (att_mime att) "text" = false ->
  endswith (att_name att) ".md" || endswith (att_name att) ".csv"
    || endswith (att_name att) ".json" || endswith (att_name att) ".txt" = false ->
  contains "/" (att_name att) = false ->
  commit_attachment rt w rp att st = (r, st') ->
  trace st' = trace st ++ evs ->
  Forall (fun e => failing e = false) evs ->
  let path := "attachments/" +:+ att_name att in
  let b64 := Text (b64encode rt content_bytes) in
  writes evs = [(path, Binary content_bytes); (path +:+ ".b64", b64); (path +:+ ".b64", b64)].
Proof.
  intros Hfile Hmime Hname Hslash H Ht Hclean path b64.
  unfold commit_attachment, catch, bind at 1, read_file in H.
  rewrite Hfile in H. cbv beta iota zeta in H.
  rewrite Hmime in H. cbn [orb] in H.
  replace (endswith (att_name att) ".md" || endswith (att_name att) ".csv"
           || endswith (att_name att) ".json" || endswith (att_name att) ".txt")
    with false in H.
  set (m := bind _ _) in H.
  destruct (m st) as [r0 st0] eqn:E. subst m.
  assert (st0 = st') as ->.
  { destruct r0; by injection H as _ <-. }
  clear H.
  apply bind_inv in E as [([] & st1 & E1 & E) | (e & E1 & ->)];
    apply create_or_update_binary_file_calls in E1
      as (_ & evs1 & evs2 & Ht1 & [(x & Hx & -> & Hup) | [Hup1 Hup2]]).
  - discriminate.
  - apply create_or_update_file_calls in E as (_ & evs3 & Ht3 & Hup3).
    rewrite Ht3, Ht1, <- !app_assoc in Ht. apply app_inv_head in Ht as <-.
    apply Forall_app in Hclean as [Hc1 [Hc2 Hc3]%Forall_app].
    destruct (upsert_calls_clean _ _ _ _ _ _ Hup1 Hc1) as [_ Hw1].
    destruct (upsert_calls_clean _ _ _ _ _ _ Hup2 Hc2) as [_ Hw2].
    destruct (upsert_calls_clean _ _ _ _ _ _ Hup3 Hc3) as [_ Hw3].
    unfold writes in *. rewrite !omap_app, Hw1, Hw2, Hw3. cbn.
    change ("attachments/" +:+ att_name att) with ("attachments" +:+ "/" +:+ att_name att).
    rewrite (basename_last "attachments" _ Hslash).
    unfold path. by rewrite append_assoc.
  - exfalso. injection Hx as <-.
    rewrite Ht1, app_nil_r in Ht. apply app_inv_head in Ht as <-.
    destruct (upsert_calls_clean _ _ _ _ _ _ Hup Hclean) as [? _]. done.
  - exfalso. rewrite Ht1 in Ht. apply app_inv_head in Ht as <-.
    apply Forall_app in Hclean as [_ Hc2].
    destruct (upsert_calls_clean _ _ _ _ _ _ Hup2 Hc2) as [? _]. done.
Qed.
End Host.

(** * Attachments, summaries and generated documents *)

(** ** Facts on single characters in strings *)

Lemma char_free_append c a b : char_free c (a +:+ b) = char_free c a && char_free c b.
Proof.
  induction a as [|x a IH]; [done|]. rewrite append_cons. cbn.
  by rewrite IH, andb_assoc.
Qed.

(** A prefix that holds [c] is no prefix of a string without [c]. *)
Lemma strip_prefix_char_free c p q s :
  char_free c s = true -> strip_prefix (p +:+ String c q) s = None.
Proof.
  intros Hs. destruct (strip_prefix _ s) as [r|] eqn:E; [|done].
  apply strip_prefix_spec in E. subst s.
  rewrite !char_free_append in Hs. cbn in Hs. rewrite Ascii.eqb_refl in Hs.
  cbn in Hs. by rewrite andb_false_r in Hs.
Qed.

Lemma partition_char c x y :
  char_free c x = true ->
  partition (String c EmptyString) (x +:+ String c y) = Some (x, y).
Proof.
  induction x as [|a x IH]; intros Hx.
  - change (EmptyString +:+ String c y) with (String c y). rewrite partition_unfold. cbn.
    by rewrite Ascii.eqb_refl.
  - cbn in Hx. apply andb_prop in Hx as [Ha Hx]. apply negb_true_iff in Ha.
    rewrite append_cons, partition_unfold. cbn [strip_prefix].
    rewrite Ascii.eqb_sym, Ha. by rewrite IH.
Qed.

Lemma rev_app_rev_app x y z :
  String.rev_app (String.rev_app x y) z = String.rev_app y (x +:+ z).
Proof.
  revert y z. induction x as [|c x IH]; intros y z; [done|].
  cbn [String.rev_app]. rewrite IH. by rewrite append_cons.
Qed.

Lemma rev_rev_app x : String.rev (String.rev_app x EmptyString) = x.
Proof.
  unfold String.rev. rewrite rev_app_rev_app. cbn.
  induction x as [|c x IH]; [done|]. by rewrite append_cons, IH.
Qed.

Lemma split_go_char c cur x y :
  char_free c x = true ->
  split_go (String c EmptyString) 0 cur (x +:+ String c y)
  = String.rev (String.rev_app x cur) :: split_go (String c EmptyString) 0 EmptyString y.
Proof.
  revert cur. induction x as [|a x IH]; intros cur Hx.
  - change (EmptyString +:+ String c y) with (String c y). cbn [split_go strip_prefix].
    by rewrite Ascii.eqb_refl.
  - cbn in Hx. apply andb_prop in Hx as [Ha Hx]. apply negb_true_iff in Ha.
    rewrite append_cons. cbn [split_go strip_prefix].
    rewrite Ascii.eqb_sym, Ha. by rewrite IH.
Qed.

Lemma split_char_head c x y :
  char_free c x = true ->
  hd EmptyString (split (String c EmptyString) (x +:+ String c y)) = x.
Proof.
  intros Hx. unfold split. rewrite split_go_char by done. cbn [hd].
  apply rev_rev_app.
Qed.

Lemma replace_go_char_free c p q new s :
  char_free c s = true -> replace_go (p +:+ String c q) new 0 s = s.
Proof.
  induction s as [|a s IH]; [done|]. intros Hs.
  cbn [replace_go]. rewrite (strip_prefix_char_free c p q _ Hs).
  cbn in Hs. apply andb_prop in Hs as [_ Hs]. by rewrite IH.
Qed.

(** The MIME type is recovered from the header of a data URI. *)
Lemma mime_of_header mime :
  char_free ";" mime = true -> char_free ":" mime = true ->
  replace "data:" EmptyString
    (hd EmptyString (split ";" ("data:" +:+ mime +:+ ";base64"))) = mime.
Proof.
  intros Hsemi Hcolon.
  change ("data:" +:+ mime +:+ ";base64") with ("data:" +:+ (mime +:+ String ";" "base64")).
  rewrite <- append_assoc. rewrite split_char_head.
  2:{ rewrite char_free_append. by rewrite Hsemi. }
  unfold replace. cbn [replace_go strip_prefix Ascii.eqb]. cbn.
  apply (replace_go_char_free ":" "data" EmptyString EmptyString mime Hcolon).
Qed.

(** ** Decoding inline attachments *)

Section Decoding.
Context (rt : runtime) (w : world).

Lemma data_uri_parts mime payload :
  char_free "," mime = true ->
  startswith (data_uri mime payload) "data:" = true
  /\ partition "," (data_uri mime payload) = Some ("data:" +:+ mime +:+ ";base64", payload).
Proof.
  intros Hcomma. split; [reflexivity|]. unfold data_uri.
  change ("data:" +:+ mime +:+ ";base64," +:+ payload)
    with ("data:" +:+ (mime +:+ (";base64" +:+ String "," payload))).
  rewrite <- !append_assoc. rewrite partition_char; [by rewrite !append_assoc|].
  rewrite !char_free_append. by rewrite Hcomma.
Qed.

(** What the loop body does with a well-formed inline entry. *)
Lemma decode_attachment_inline att mime payload data name st :
  Py.get att "url" (JStr EmptyString) = Ok (JStr (data_uri mime payload)) ->
  entry_name att = JStr name ->
  char_free ";" mime = true -> char_free "," mime = true -> char_free ":" mime = true ->
  b64decode rt payload = Some data ->
  w_writable w (tmp_path rt name) = true ->
  decode_attachment rt w att st
  = (Ok [ {| att_name := name; att_path := tmp_path rt name; att_mime := mime;
             att_size := List.length data |} ],
     {| fs := <[w_file w (tmp_path rt name) := Raw data]> (fs st); trace := trace st |}).
Proof.
  intros Hurl Hname Hsemi Hcomma Hcolon Hdata Hw.
  destruct (data_uri_parts mime payload Hcomma) as [Hstart Hpart].
  unfold decode_attachment, bind, lift.
  destruct att as [| | | | | |kv]; try discriminate.
  unfold entry_name, field_or in Hname. cbn [Py.get] in *.
  rewrite Hname. injection Hurl as ->.
  rewrite Hstart. cbn [negb]. unfold catch. rewrite Hpart.
  rewrite (mime_of_header mime Hsemi Hcolon), Hdata.
  unfold bind, write_file. by rewrite Hw.
Qed.

(** X5. An attachment given as [data:<mime>;base64,<payload>] with a
    decodable payload is saved under its name, or under [attachment] when
    it has none: decode_attachments returns one entry with that name, the
    MIME type of the URI and the number of decoded bytes, and the file at
    the entry's path holds the decoded bytes. *)
Theorem inline_attachment_saved att mime payload data name st :
  Py.get att "url" (JStr EmptyString) = Ok (JStr (data_uri mime payload)) ->
  entry_name att = JStr name ->
  char_free ";" mime = true -> char_free "," mime = true -> char_free ":" mime = true ->
  b64decode rt payload = Some data ->
  w_writable w (tmp_path rt name) = true ->
  exists entry st',
    decode_attachments rt w (JArr [att]) st = (Ok [entry], st')
    /\ att_name entry = name /\ att_mime entry = mime
    /\ att_size entry = List.length data
    /\ read_file rt w (att_path entry) st' = (Ok (Some data), st').
Proof.
  intros Hurl Hname Hsemi Hcomma Hcolon Hdata Hw.
  unfold decode_attachments. cbn [Py.or_else Py.truthy decode_loop]. unfold bind at 1.
  rewrite (decode_attachment_inline att mime payload data name st) by done.
  cbn. eexists _, _. split; [reflexivity|]. cbn. do 3 (split; [done|]).
  unfold read_file. cbn. by rewrite lookup_insert_eq.
Qed.

(** X6. Two inline attachments with the same name are both returned, with
    the same path; the file at that path holds the bytes of the second one
    only. *)
Theorem same_name_overwrites att1 att2 mime1 payload1 data1 mime2 payload2 data2 name st :
  Py.get att1 "url" (JStr EmptyString) = Ok (JStr (data_uri mime1 payload1)) ->
  Py.get att2 "url" (JStr EmptyString) = Ok (JStr (data_uri mime2 payload2)) ->
  entry_name att1 = JStr name -> entry_name att2 = JStr name ->
  char_free ";" mime1 = true -> char_free "," mime1 = true -> char_free ":" mime1 = true ->
  char_free ";" mime2 = true -> char_free "," mime2 = true -> char_free ":" mime2 = true ->
  b64decode rt payload1 = Some data1 -> b64decode rt payload2 = Some data2 ->
  w_writable w (tmp_path rt name) = true ->
  exists entry1 entry2 st',
    decode_attachments rt w (JArr [att1; att2]) st = (Ok [entry1; entry2], st')
    /\ att_path entry1 = att_path entry2
    /\ att_size entry1 = List.length data1 /\ att_size entry2 = List.length data2
    /\ fs st' !! w_file w (att_path entry1) = Some (Raw data2).
Proof.
  intros Hu1 Hu2 Hn1 Hn2 ? ? ? ? ? ? Hd1 Hd2 Hw.
  unfold decode_attachments. cbn [Py.or_else Py.truthy decode_loop]. unfold bind at 1.
  rewrite (decode_attachment_inline att1 mime1 payload1 data1 name st) by done.
  unfold bind.
  rewrite (decode_attachment_inline att2 mime2 payload2 data2 name) by done.
  cbn. eexists _, _, _. split; [reflexivity|]. cbn. do 3 (split; [done|]).
  by rewrite lookup_insert_eq.
Qed.

(** One entry writes at most one file, named after the entry. *)
Lemma decode_attachment_writes att st r st' :
  decode_attachment rt w att st = (r, st') ->
  trace st' = trace st
  /\ (fs st' = fs st
      \/ exists name data, entry_name att = JStr name
                          /\ fs st' = <[w_file w (tmp_path rt name) := Raw data]> (fs st)).
Proof.
  unfold decode_attachment, bind, lift, entry_name, field_or.
  destruct att as [| | | | | |kv]; cbn [Py.get]; try (intros [= <- <-]; by auto).
  set (name := Py.or_else _ _).
  destruct (match Py.lookup kv "url" with Some v => v | None => JStr EmptyString end)
    as [| | | |url| |]; try (intros [= <- <-]; by auto).
  destruct (negb (startswith url "data:")); [intros [= <- <-]; by auto|].
  unfold catch.
  destruct (partition "," url) as [[header b64data]|]; [|intros [= <- <-]; by auto].
  destruct (b64decode rt b64data) as [data|]; [|intros [= <- <-]; by auto].
  destruct name as [| | | |n| |] eqn:En; try (intros [= <- <-]; by auto).
  unfold bind, write_file. destruct (w_writable w (tmp_path rt n)).
  - intros [= <- <-]. cbn. split; [done|]. right. by exists n, data.
  - intros [= <- <-]. by auto.
Qed.

(** X7. decode_attachments makes no call to the outside world, whatever
    it is given and also when it raises; the only files it changes are
    those that the path of an entry of the list names. The ledger file is
    one of them when the name of an entry leads to it; when none does, the
    ledger is as it was. *)
Theorem decode_attachments_frame atts st r st' q :
  decode_attachments rt w atts st = (r, st') ->
  trace st' = trace st
  /\ (fs st' !! q <> fs st !! q ->
      exists l att name,
        Py.or_else atts (JArr []) = JArr l /\ att ∈ l
        /\ entry_name att = JStr name /\ q = w_file w (tmp_path rt name))
  /\ (off_ledger w (attachment_paths rt atts) -> ledger rt w st' = ledger rt w st).
Proof.
  intros H.
  assert (Hledger : off_ledger w (attachment_paths rt atts) ->
                    ledger rt w st' = ledger rt w st).
  { intros Hoff. apply ledger_kept. eapply decode_attachments_keeps; [exact Hoff|exact H]. }
  revert H. unfold decode_attachments.
  destruct (Py.or_else atts (JArr [])) as [| | | | |l|];
    try (intros [= <- <-]; by split_and!).
  intros H. cut (trace st' = trace st
                 /\ (fs st' !! q <> fs st !! q ->
                     exists l' att name, JArr l = JArr l' /\ att ∈ l'
                                         /\ entry_name att = JStr name
                                         /\ q = w_file w (tmp_path rt name))).
  { intros [? ?]. by split_and!. }
  clear Hledger.
  assert (Hstep : forall att l st st1 st2,
             (fs st1 = fs st
              \/ exists name data, entry_name att = JStr name
                                  /\ fs st1 = <[w_file w (tmp_path rt name) := Raw data]> (fs st)) ->
             (fs st2 !! q <> fs st1 !! q ->
              exists l' att' name, JArr l = JArr l' /\ att' ∈ l'
                                   /\ entry_name att' = JStr name
                                   /\ q = w_file w (tmp_path rt name)) ->
             fs st2 !! q <> fs st !! q ->
             exists l' att' name, JArr (att :: l) = JArr l' /\ att' ∈ l'
                                  /\ entry_name att' = JStr name
                                  /\ q = w_file w (tmp_path rt name)).
  { intros att l0 s0 s1 s2 Hfs1 Hfs2 Hp.
    assert (Hrest : fs s2 !! q <> fs s1 !! q ->
                    exists l' att' name, JArr (att :: l0) = JArr l' /\ att' ∈ l'
                                         /\ entry_name att' = JStr name
                                         /\ q = w_file w (tmp_path rt name)).
    { intros Hne. destruct (Hfs2 Hne) as (l' & att' & name & [= <-] & Hin & Hname & ->).
      exists (att :: l0), att', name. split; [done|]. split; [by right|]. done. }
    destruct Hfs1 as [Hfs1|(name & data & Hname & Hfs1)].
    - apply Hrest. by rewrite Hfs1.
    - destruct (decide (q = w_file w (tmp_path rt name))) as [->|Hpn].
      + exists (att :: l0), att, name. split; [done|]. split; [by left|]. done.
      + apply Hrest. by rewrite Hfs1, lookup_insert_ne. }
  revert st r st' H. induction l as [|att l IH]; intros st r st'; cbn [decode_loop].
  - intros [= <- <-]. by split_and!.
  - intros H.
    apply bind_inv in H as [(s & st1 & E & H) | (e & E & ->)];
      apply decode_attachment_writes in E as (Ht1 & Hfs1).
    + apply bind_inv in H as [(rest & st2 & E2 & H) | (e & E2 & ->)];
        [injection H as <- <-|];
        apply IH in E2 as (Ht2 & Hfs2);
        (split; [congruence|]); by eapply Hstep.
    + split; [done|].
      apply (Hstep att l st st' st'); [done|]. by intros [].
Qed.

Lemma decode_attachment_bad att st :
  entry_ok att = false -> decode_attachment rt w att st = (Raise AttributeError, st).
Proof.
  unfold entry_ok, decode_attachment, bind, lift.
  destruct att as [| | | | | |kv]; try done. cbn [Py.get].
  by destruct (Py.lookup kv "url") as [[| | | |url| |]|].
Qed.

End Decoding.

(** ** The attachment summary *)

Lemma char_count_cons c s :
  char_count (String c s) = ((if continuation c then 0 else 1) + char_count s)%nat.
Proof. unfold char_count. cbn. by destruct (continuation c). Qed.

Lemma take_chars_count n s : (char_count (take_chars n s) <= n)%nat.
Proof.
  revert n. induction s as [|c s IH]; intros n; [cbn; lia|].
  cbn [take_chars]. destruct (continuation c) eqn:Ec.
  - rewrite char_count_cons, Ec. apply IH.
  - destruct n as [|n]; [cbn; lia|].
    rewrite char_count_cons, Ec. specialize (IH n). lia.
Qed.

Lemma take_chars_char_free c n s :
  char_free c s = true -> char_free c (take_chars n s) = true.
Proof.
  revert n. induction s as [|x s IH]; intros n; [done|]. cbn.
  intros [Hx Hs]%andb_prop.
  destruct (continuation x); [cbn; by rewrite Hx, IH|].
  destruct n; [done|]. cbn. by rewrite Hx, IH.
Qed.

(** Replacing the newline leaves none. *)
Lemma replace_newline_free s : char_free "010" (replace nl "\n" s) = true.
Proof.
  unfold replace. induction s as [|c s IH]; [done|].
  cbn [replace_go nl strip_prefix String.length Nat.sub].
  destruct (Ascii.eqb_spec "010" c) as [<-|Hne].
  - cbn [strip_prefix]. rewrite !append_cons. cbn. exact IH.
  - cbn. rewrite IH.
    destruct (Ascii.eqb_spec c "010") as [->|]; [done|]. done.
Qed.

Section Summaries.
Context (rt : runtime) (w : world).

(** X8. The summary of an attachment that counts as text and whose file
    can be read is made of the name and the MIME type of the attachment,
    as they are, followed by a preview of the file: the preview holds no
    newline and at most 1000 characters. Nothing is written and no call is
    made. *)
Theorem text_preview_bounded s content_bytes st :
  text_like (att_mime s) (att_name s) = true ->
  file_bytes rt <$> fs st !! w_file w (att_path s) = Some content_bytes ->
  exists preview,
    summarize_attachment rt w s st
    = (Ok ("- " +:+ att_name s +:+ " (" +:+ att_mime s +:+ "): preview: " +:+ preview), st)
    /\ (char_count preview <= 1000)%nat
    /\ char_free "010" preview = true.
Proof.
  intros Htext Hfile. unfold summarize_attachment. cbv zeta. rewrite Htext.
  unfold bind, read_file, ret. rewrite Hfile.
  eexists. split; [reflexivity|]. split.
  - apply take_chars_count.
  - apply take_chars_char_free, replace_newline_free.
Qed.
End Summaries.

(** ** Code fences *)

Lemma split_go_skip sep cur x y :
  split_go sep (String.length x) cur (x +:+ y) = split_go sep 0 cur y.
Proof.
  induction x as [|c x IH]; [done|]. rewrite append_cons. cbn [String.length split_go].
  exact IH.
Qed.

(** [split] cuts at the first occurrence of the separator and goes on
    with what follows it. *)
Lemma split_go_partition sep cur s :
  sep <> EmptyString ->
  split_go sep 0 cur s
  = match partition sep s with
    | Some (a, b) => String.rev (String.rev_app a cur) :: split_go sep 0 EmptyString b
    | None => [String.rev (String.rev_app s cur)]
    end.
Proof.
  intros Hsep. revert cur. induction s as [|c s IH]; intros cur.
  - cbn. destruct sep; [done|]. reflexivity.
  - rewrite partition_unfold. cbn [split_go].
    destruct (strip_prefix sep (String c s)) as [rest|] eqn:E.
    + cbn [String.rev_app]. f_equal.
      destruct sep as [|x sep']; [done|]. cbn [strip_prefix] in E.
      destruct (Ascii.eqb x c); [|done].
      apply strip_prefix_spec in E. subst s.
      replace (String.length (String x sep') - 1)%nat with (String.length sep')
        by (cbn; lia).
      apply split_go_skip.
    + rewrite IH. destruct (partition sep s) as [[a b]|]; reflexivity.
Qed.

(** The text before the first occurrence of a separator holds none. *)
Lemma partition_first_free sep s a b :
  sep <> EmptyString -> partition sep s = Some (a, b) -> partition sep a = None.
Proof.
  intros Hsep. revert a. induction s as [|c s IH]; intros a.
  - cbn. destruct (strip_prefix sep EmptyString) eqn:E; [|done].
    intros [= <- _]. cbn. by rewrite E in *; destruct sep.
  - rewrite partition_unfold.
    destruct (strip_prefix sep (String c s)) as [rest|] eqn:E.
    + intros [= <- _]. cbn. by destruct sep.
    + destruct (partition sep s) as [[a' b']|] eqn:Ep; [|done].
      intros [= <- <-]. rewrite partition_unfold.
      pose proof (partition_spec _ _ _ _ Ep) as Hs. rewrite Hs, <- append_cons in E.
      rewrite (strip_prefix_none_l _ _ _ E). by rewrite (IH a' eq_refl).
Qed.

Lemma partition_none_middle t a m b :
  partition t (a +:+ m +:+ b) = None -> partition t m = None.
Proof. intros H. by apply partition_none_r, partition_none_l in H. Qed.

Lemma lstrip_go_suffix n s : exists p, s = p +:+ lstrip_go n s.
Proof.
  revert s. induction n as [|n IH]; intros s; [by exists EmptyString|].
  cbn [lstrip_go]. destruct (drop_space whitespace s) as [r|] eqn:E;
    [|by exists EmptyString].
  apply drop_space_spec in E as (t & _ & ->).
  destruct (IH r) as [p Hp]. exists (t +:+ p). by rewrite append_assoc, <- Hp.
Qed.

Lemma rstrip_prefix s : exists q, s = rstrip s +:+ q.
Proof.
  induction s as [|c s [q IH]]; [by exists EmptyString|]. cbn [rstrip].
  destruct (lstrip (String c s)); [by eexists|].
  exists q. by rewrite append_cons, <- IH.
Qed.

(** What [strip] leaves is a part of the string. *)
Lemma strip_part s : exists p q, s = p +:+ strip s +:+ q.
Proof.
  unfold strip. destruct (lstrip_go_suffix (String.length s) s) as [p Hp].
  fold (lstrip s) in Hp. destruct (rstrip_prefix (lstrip s)) as [q Hq].
  exists p, q. by rewrite <- Hq.
Qed.

Lemma strip_free t s : partition t s = None -> partition t (strip s) = None.
Proof.
  intros H. destruct (strip_part s) as (p & q & Hs). rewrite Hs in H.
  by apply partition_none_middle in H.
Qed.

(** X9. What _strip_code_block returns never holds a code fence: it is
    the trimmed text between the first two fences (or after the only one),
    or the trimmed text itself when there is no fence. *)
Theorem strip_code_block_fence_free text :
  contains "```" (_strip_code_block text) = false
  /\ _strip_code_block text
     = strip (match partition "```" text with
              | Some (_, rest) =>
                  match partition "```" rest with
                  | Some (block, _) => block
                  | None => rest
                  end
              | None => text
              end).
Proof.
  assert (Hsep : "```" <> EmptyString) by done.
  unfold _strip_code_block, contains, split.
  rewrite (split_go_partition "```" EmptyString text Hsep).
  destruct (partition "```" text) as [[a rest]|] eqn:E.
  - rewrite (split_go_partition "```" EmptyString rest Hsep).
    destruct (partition "```" rest) as [[block b]|] eqn:E2.
    + rewrite rev_rev_app. split; [|done].
      by rewrite (strip_free _ _ (partition_first_free _ _ _ _ Hsep E2)).
    + rewrite rev_rev_app. split; [|done]. by rewrite (strip_free _ _ E2).
  - split; [|done]. by rewrite (strip_free _ _ E).
Qed.

(** ** One run of the generator adapter *)

Section Adapter2.
Context (rt : runtime) (w : world).

Lemma generated_text_calls brief checks meta round_num prompt st r st' :
  generated_text rt w brief checks meta round_num prompt st = (r, st') ->
  st' = then_called st (Generate prompt (w_generate w (trace st) prompt)).
Proof.
  unfold generated_text, catch, bind, call, lift, ret, raise, then_called.
  cbv beta iota zeta.
  destruct (w_generate w (trace st) prompt) as [resp_json|]; cbv beta iota zeta.
  - destruct (extract_text resp_json) as [text|e]; cbv beta iota zeta.
    + destruct (Py.truthy text); cbv beta iota zeta.
      * by intros [= _ <-].
      * destruct (fallback_text _ _ _ _ _); by intros [= _ <-].
    + destruct (fallback_text _ _ _ _ _); by intros [= _ <-].
  - destruct (fallback_text _ _ _ _ _); by intros [= _ <-].
Qed.

Lemma decode_attachments_quiet atts st r st' :
  decode_attachments rt w atts st = (r, st') -> trace st' = trace st.
Proof.
  intros E. apply (decode_attachments_emits rt w (fun _ => False)) in E
    as (evs & Ht & Hno).
  destruct Hno; [|done]. by rewrite app_nil_r in Ht.
Qed.

Lemma generate_documents_calls brief atts checks round_num prev_readme st r st' :
  generate_documents rt w brief atts checks round_num prev_readme st = (r, st') ->
  (trace st' = trace st /\ exists e, r = Raise e)
  \/ exists prompt answer, trace st' = trace st ++ [Generate prompt answer].
Proof.
  unfold generate_documents. intros H.
  apply bind_inv in H as [(saved_list & st1 & E & H) | (e & E & ->)];
    apply decode_attachments_quiet in E; rename E into Ht1; [|left; eauto].
  destruct (summarize_total rt w saved_list st1) as [meta Hsum].
  unfold bind at 1 in H. rewrite Hsum in H. cbv zeta in H.
  apply bind_inv in H as [(text & st2 & E & H) | (e & E & ->)];
    apply generated_text_calls in E as ->.
  2:{ right. eexists _, _. cbn. by rewrite Ht1. }
  right. eexists _, _.
  match type of H with
  | ?m ?s = _ =>
      assert (Hem : emits (fun _ => False) m) by (unfold split_text; emits_auto);
      destruct (Hem _ _ _ H) as (evs & Ht & Hno)
  end.
  destruct Hno; [|done]. rewrite app_nil_r in Ht. rewrite Ht. cbn. by rewrite Ht1.
Qed.

(** X10. generate_app_code sends at most one request to the generator and
    never repeats it; it sends none only when decoding the attachments
    raised. It makes no other call. *)
Theorem generator_called_at_most_once brief atts checks round_num prev_readme st r st' :
  generate_app_code rt w brief atts checks round_num prev_readme st = (r, st') ->
  (trace st' = trace st /\ exists e, r = Raise e)
  \/ exists prompt answer, trace st' = trace st ++ [Generate prompt answer].
Proof.
  unfold generate_app_code. intros H.
  apply bind_inv in H as [(documents & st1 & E & H) | (e & E & ->)];
    apply generate_documents_calls in E.
  2:{ destruct E as [[Ht _] | E]; [left; eauto | by right]. }
  destruct E as [[_ [e [=]]] | (prompt & answer & Ht1)].
  right. exists prompt, answer.
  match type of H with
  | ?m ?s = _ =>
      assert (Hem : emits (fun _ => False) m) by emits_auto;
      destruct (Hem _ _ _ H) as (evs & Ht & Hno)
  end.
  destruct Hno; [|done]. rewrite app_nil_r in Ht. by rewrite Ht.
Qed.

(** X11. When generate_app_code returns, the two files under
    ./generated_app hold exactly the contents that it returns, the two
    paths naming two files. *)
Theorem generated_files_saved_locally brief atts checks round_num prev_readme st g st' :
  w_file w "generated_app/index.html" <> w_file w "generated_app/README.md" ->
  generate_app_code rt w brief atts checks round_num prev_readme st = (Ok g, st') ->
  forall name text,
    (name, text) ∈ gen_files g ->
    fs st' !! w_file w ("generated_app/" +:+ name) = Some (Raw (utf8_encode text)).
Proof.
  unfold generate_app_code. intros Hne H.
  apply bind_inv in H as [(documents & st1 & _ & H) | (? & _ & ?)]; [|discriminate].
  cbv zeta in H.
  apply bind_inv in H as [([] & st3 & E1 & H) | (? & _ & ?)]; [|discriminate].
  apply bind_inv in H as [([] & st4 & E2 & H) | (? & _ & ?)]; [|discriminate].
  injection H as <- <-.
  unfold write_text in E1, E2.
  destruct (w_writable w "generated_app/index.html"); [|discriminate].
  destruct (w_writable w "generated_app/README.md"); [|discriminate].
  destruct (surrogate_free (fst (snd documents))); [|discriminate].
  destruct (surrogate_free (snd (snd documents))); [|discriminate].
  injection E1 as <-. injection E2 as <-. cbn.
  intros name text. rewrite !elem_of_cons, elem_of_nil.
  intros [[= -> ->]|[[= -> ->]|[]]].
  - change ("generated_app/" +:+ "index.html") with "generated_app/index.html".
    rewrite lookup_insert_ne by done. apply lookup_insert_eq.
  - apply lookup_insert_eq.
Qed.

Lemma join_checks_not_strings l :
  all_str l = None -> join_checks (JArr l) = Raise TypeError.
Proof.
  intros H. unfold join_checks. rewrite or_else_list. by rewrite H.
Qed.

(** X12. With the generator failing and a check that is no string among
    the checks, generate_app_code raises TypeError: the fallback README
    cannot be built, so there is no fallback. *)
Theorem fallback_needs_string_checks brief atts l round_num prev_readme st :
  attachments_ok atts = true ->
  (forall h p, failed (w_generate w h p) = true) ->
  all_str l = None ->
  exists st',
    generate_app_code rt w brief atts (JArr l) round_num prev_readme st = (Raise TypeError, st').
Proof.
  intros Hatts Hfail Hl.
  destruct (decode_attachments_total rt w atts st Hatts) as (saved_list & st1 & Hdec).
  destruct (summarize_total rt w saved_list st1) as (meta & Hsum).
  unfold generate_app_code, generate_documents. unfold bind at 1 2. rewrite Hdec.
  unfold bind at 1. rewrite Hsum. cbv zeta.
  set (prompt := prompt_template _ _ _ _ _).
  unfold bind at 1.
  assert (Hgen : exists st2,
             generated_text rt w brief (JArr l) meta round_num prompt st1
             = (Raise TypeError, st2)).
  { unfold generated_text, catch, bind, call, lift, fallback_text, generate_readme_fallback.
    rewrite (join_checks_not_strings l Hl). cbv beta iota zeta. cbn [and_then].
    specialize (Hfail (trace st1) prompt). unfold failed in Hfail.
    destruct (w_generate w (trace st1) prompt) as [resp_json|];
      cbv beta iota zeta; [|by eexists].
    destruct (extract_text resp_json) as [text|e]; cbv beta iota zeta; [|by eexists].
    apply negb_true_iff in Hfail. rewrite Hfail. by eexists. }
  destruct Hgen as [st2 ->]. by eexists.
Qed.

(** X13. When the generator answers with a non-empty string, the part
    before the first README marker becomes index.html and the part after
    it README.md; without a marker the whole text becomes index.html and
    README.md is the README built locally from the brief, the attachment
    summary and the checks. What is taken from the generator's text goes
    through _strip_code_block. generate_app_code returns these two
    documents when both can be written as UTF-8, that is when neither
    holds a lone surrogate, and raises UnicodeEncodeError otherwise. *)
Theorem generated_documents brief atts cs round_num prev_readme text st :
  attachments_ok atts = true ->
  w_writable w "generated_app/index.html" = true ->
  w_writable w "generated_app/README.md" = true ->
  (forall h p, answered_text (w_generate w h p) = Some text) ->
  let files :=
    match partition "---README.md---" text with
    | Some (code_part, readme_part) =>
        [("index.html", _strip_code_block code_part);
         ("README.md", _strip_code_block readme_part)]
    | None =>
        [("index.html", _strip_code_block text);
         ("README.md",
          readme_template (Py.str rt round_num) (Py.str rt brief)
            (attachment_summary rt w atts st) (join "\n" cs))]
    end in
  exists saved_list st',
    generate_app_code rt w brief atts (JArr (map JStr cs)) round_num prev_readme st
    = (if forallb (fun f => surrogate_free (snd f)) files
       then Ok {| gen_files := files; gen_attachments := saved_list |}
       else Raise UnicodeEncodeError,
       st').
Proof.
  intros Hatts Hw1 Hw2 Hans files.
  destruct (decode_attachments_total rt w atts st Hatts) as (saved_list & st1 & Hdec).
  destruct (summarize_total rt w saved_list st1) as (meta & Hsum).
  assert (Hmeta : attachment_summary rt w atts st = meta)
    by (unfold attachment_summary; by rewrite Hdec, Hsum).
  exists saved_list.
  unfold generate_app_code, generate_documents. unfold bind at 1 2. rewrite Hdec.
  unfold bind at 1. rewrite Hsum. cbv zeta.
  set (prompt := prompt_template _ _ _ _ _).
  unfold bind at 1. rewrite generated_text_run.
  specialize (Hans (trace st1) prompt). unfold answered_text in Hans.
  destruct (w_generate w (trace st1) prompt) as [resp_json|]; [|discriminate].
  destruct (extract_text resp_json) as [[| | | |t| |]|e]; try discriminate.
  destruct (String.eqb_spec t EmptyString) as [|Hne]; [discriminate|].
  injection Hans as ->.
  replace (Py.truthy (JStr text)) with true
    by (cbn; by destruct (String.eqb_spec text EmptyString)).
  unfold files, split_text, bind at 1.
  destruct (partition "---README.md---" text) as [[code_part readme_part]|].
  - unfold ret at 1. cbv beta iota zeta. unfold ret at 1. cbn [fst snd forallb].
    unfold bind, write_text, ret. rewrite Hw1.
    destruct (surrogate_free (_strip_code_block code_part)); cbn [andb];
      [rewrite Hw2; destruct (surrogate_free (_strip_code_block readme_part))|];
      by eexists.
  - unfold bind at 1, lift, generate_readme_fallback. rewrite join_checks_strs.
    cbn [and_then]. cbv beta iota zeta. unfold ret at 1. cbn [fst snd forallb].
    unfold bind, write_text, ret. cbn [fst snd forallb]. rewrite Hw1. rewrite Hmeta.
    destruct (surrogate_free (_strip_code_block text)); cbn [andb];
      [rewrite Hw2; destruct (surrogate_free (readme_template _ _ _ _))|];
      by eexists.
Qed.
End Adapter2.


(** * The calls and the progress of a round *)

(** ** Calls and returns of composed computations *)

Section Calls.
Context {A B : Type} (P : event -> Prop).

Lemma emits_bind_ok (m : M A) (k : A -> M B) :
  emits P m ->
  (forall a, (exists st st1, m st = (Ok a, st1)) -> emits P (k a)) ->
  emits P (bind m k).
Proof.
  intros Hm Hk st r st'. unfold bind.
  destruct (m st) as [[a|e] st1] eqn:E1; intros E2.
  - destruct (Hm _ _ _ E1) as (evs1 & Ht1 & HP1).
    destruct (Hk a (ex_intro _ st (ex_intro _ st1 E1)) _ _ _ E2) as (evs2 & Ht2 & HP2).
    exists (evs1 ++ evs2).
    split; [by rewrite Ht2, Ht1, app_assoc | by apply Forall_app].
  - injection E2 as <- <-. eapply Hm, E1.
Qed.

End Calls.

Section Returns.
Context {A B : Type}.

Lemma bind_ok (m : M A) (k : A -> M B) st a st1 :
  m st = (Ok a, st1) -> bind m k st = k a st1.
Proof. unfold bind. by intros ->. Qed.

Lemma returns_ret (a : A) : returns (ret a).
Proof. intros st. by eexists _, _. Qed.

Lemma returns_call (answer : list event -> A) (record : A -> event) :
  returns (call answer record).
Proof. intros st. by eexists _, _. Qed.

Lemma returns_bind (m : M A) (k : A -> M B) :
  returns m -> (forall a, returns (k a)) -> returns (bind m k).
Proof.
  intros Hm Hk st. destruct (Hm st) as (a & st1 & E).
  rewrite (bind_ok _ _ _ _ _ E). apply Hk.
Qed.

Lemma returns_catch (m : M A) (h : exn -> M A) :
  (forall e, returns (h e)) -> returns (catch m h).
Proof.
  intros Hh st. unfold catch. destruct (m st) as [[a|e] st1]; [by eexists _, _|].
  apply Hh.
Qed.
End Returns.

Lemma returns_for_each {A} (l : list A) (body : A -> M unit) :
  (forall x, returns (body x)) -> returns (for_each l body).
Proof.
  intros Hb. induction l as [|x l IH]; cbn; [apply returns_ret|].
  apply returns_bind; auto.
Qed.

Lemma ok_bind_inv {A B} (m : M A) (k : A -> M B) st b st' :
  bind m k st = (Ok b, st') ->
  exists a st1, m st = (Ok a, st1) /\ k a st1 = (Ok b, st').
Proof.
  intros H. apply bind_inv in H as [(a & st1 & E & H) | (e & _ & ?)]; [eauto|discriminate].
Qed.

(** ** The paths a round touches *)

Lemma startswith_append p s : startswith (p +:+ s) p = true.
Proof. unfold startswith. by rewrite strip_prefix_append. Qed.

Ltac paths_step :=
  first
    [ apply emits_ret | apply emits_raise | apply emits_lift
    | apply emits_read_file | apply emits_write_file | apply emits_write_text
    | apply emits_bind; [|intros ?]
    | apply emits_catch; [|intros ?]
    | apply emits_for_each; intros ?
    | apply emits_call; intros ?; reflexivity ].

Ltac paths_auto :=
  repeat (paths_step
          || match goal with
             | |- emits _ (match ?x with _ => _ end) => destruct x
             | |- emits _ (if ?x then _ else _) => destruct x
             | |- emits _ (let _ := _ in _) => cbv zeta
             end).

Section Paths.
Context (rt : runtime) (cfg : config) (w : world).

Lemma create_or_update_file_about rp path c message :
  emits (about path) (create_or_update_file w rp path c message).
Proof. unfold create_or_update_file, expect. paths_auto. Qed.

Lemma create_or_update_binary_file_about rp path b message :
  emits (fun e => about path e \/ about ("attachments/" +:+ basename path +:+ ".b64") e)
    (create_or_update_binary_file rt w rp path b message).
Proof.
  unfold create_or_update_binary_file.
  apply emits_bind;
    [eapply emits_weaken; [|apply create_or_update_file_about]; by left|intros _].
  eapply emits_weaken with (P := about ("attachments/" +:+ basename path +:+ ".b64"));
    [by right|].
  unfold expect. paths_auto.
Qed.

Lemma about_round_call round_num path e :
  round_path round_num path = true -> about path e -> round_call round_num e.
Proof. unfold about, round_call. by intros H ->. Qed.

Lemma pathless_round_call round_num e : pathless e -> round_call round_num e.
Proof. unfold pathless, round_call. by intros ->. Qed.

Lemma attachments_round_path round_num s :
  Py.eq_int round_num 1 = true -> round_path round_num ("attachments/" +:+ s) = true.
Proof.
  intros H. unfold round_path. rewrite H, startswith_append. cbn.
  by rewrite !orb_true_r.
Qed.

Lemma commit_attachment_paths round_num rp att :
  Py.eq_int round_num 1 = true ->
  emits (round_call round_num) (commit_attachment rt w rp att).
Proof.
  intros Hr. unfold commit_attachment.
  apply emits_catch; [|intros; apply emits_ret].
  apply emits_bind; [apply emits_read_file|intros [b|]]; [|apply emits_raise].
  cbv zeta. destruct (_ || _).
  - eapply emits_weaken; [|apply create_or_update_file_about].
    intros e. apply about_round_call. by apply attachments_round_path.
  - apply emits_bind; [|intros _].
    + eapply emits_weaken; [|apply create_or_update_binary_file_about].
      intros e [He|He]; revert He; apply about_round_call;
        by apply attachments_round_path.
    + eapply emits_weaken; [|apply create_or_update_file_about].
      intros e. apply about_round_call. by apply attachments_round_path.
Qed.

Lemma generate_app_code_pathless brief atts checks round_num prev_readme :
  emits pathless (generate_app_code rt w brief atts checks round_num prev_readme).
Proof.
  unfold generate_app_code, generate_documents.
  apply emits_bind; [|intros documents; paths_auto].
  apply emits_bind; [apply decode_attachments_emits|intros saved].
  apply emits_bind; [apply summarize_attachment_meta_emits|intros meta].
  cbv zeta. unfold generated_text, split_text. paths_auto.
Qed.

Lemma load_processed_about (P : event -> Prop) :
  (forall f, P (LoadProcessed f)) -> emits P (load_processed rt w).
Proof.
  intros HP st r st'. unfold load_processed. cbv zeta.
  destruct (ledger rt w st) eqn:Hf; intros [= <- <-]; cbn;
    (eexists; split; [reflexivity|]); by repeat constructor.
Qed.

Lemma save_processed_about (P : event -> Prop) data :
  (forall m, P (SaveProcessed m)) -> emits P (save_processed w data).
Proof.
  intros HP st r st'. unfold save_processed.
  destruct (w_writable w PROCESSED_PATH); intros [= <- <-]; cbn.
  - eexists. split; [reflexivity|]. by repeat constructor.
  - exists []. by rewrite app_nil_r.
Qed.

Lemma gen_files_names brief atts checks round_num prev_readme st g st' :
  generate_app_code rt w brief atts checks round_num prev_readme st = (Ok g, st') ->
  map fst (gen_files g) = ["index.html"; "README.md"].
Proof.
  unfold generate_app_code. intros H.
  apply ok_bind_inv in H as (? & ? & _ & H). cbv zeta in H.
  do 2 (apply ok_bind_inv in H as (? & ? & _ & H)).
  by injection H as <- <-.
Qed.

Lemma run_round_paths data round_num task_id atts rp :
  emits (round_call round_num) (run_round rt cfg w data round_num task_id atts rp).
Proof.
  unfold run_round.
  (* previous README *)
  apply emits_bind.
  { destruct (Py.eq_int round_num 2); [|apply emits_ret].
    apply emits_catch; [|intros; apply emits_ret].
    eapply emits_weaken with (P := about "README.md");
      [intros e; by apply about_round_call|].
    unfold expect. paths_auto. }
  intros prev.
  apply emits_bind; [apply emits_lift|intros brief].
  apply emits_bind; [apply emits_lift|intros checks].
  apply emits_bind_ok.
  { eapply emits_weaken; [|apply generate_app_code_pathless].
    apply pathless_round_call. }
  intros gen (s0 & s1 & Hgen). apply gen_files_names in Hgen. cbv zeta.
  (* attachments *)
  apply emits_bind.
  { destruct (Py.eq_int round_num 1) eqn:Hr; [|apply emits_ret].
    apply emits_for_each. intros att. by apply commit_attachment_paths. }
  intros _.
  (* generated files *)
  apply emits_bind.
  { destruct (gen_files gen) as [|[n1 c1] [|[n2 c2] [|]]];
      try discriminate.
    injection Hgen as -> ->. cbn [for_each].
    unfold commit_file. cbn [fst snd].
    apply emits_bind; [|intros _; apply emits_bind; [|intros _; apply emits_ret]];
      (apply emits_catch; [|intros; apply emits_ret]);
      (eapply emits_weaken; [|apply create_or_update_file_about]);
      intros e; by apply about_round_call. }
  intros _.
  (* licence *)
  apply emits_bind.
  { apply emits_catch; [|intros; apply emits_ret].
    eapply emits_weaken; [|apply create_or_update_file_about].
    intros e. by apply about_round_call. }
  intros _.
  (* pages, commit, notification *)
  apply emits_bind.
  { unfold enable_pages. paths_auto. }
  intros pages_url.
  apply emits_bind; [paths_auto|intros sha].
  apply emits_bind; [apply emits_lift|intros email].
  apply emits_bind; [apply emits_lift|intros task].
  apply emits_bind; [apply emits_lift|intros nonce].
  cbv zeta.
  apply emits_bind.
  { unfold notify_evaluation_server. paths_auto. }
  intros _.
  (* ledger *)
  apply emits_bind; [by apply load_processed_about|intros processed].
  apply emits_bind; [apply emits_lift|intros email'].
  apply emits_bind; [apply emits_lift|intros task'].
  apply emits_bind; [apply emits_lift|intros nonce'].
  cbv zeta.
  apply emits_bind; [apply emits_lift|intros processed'].
  by apply save_processed_about.
Qed.

Lemma process_request_paths data :
  emits (round_call (field_or data "round" (JInt 1))) (process_request rt cfg w data).
Proof.
  unfold process_request. set (P := round_call _).
  intros st r st' H.
  assert (Hnil : forall s, s = st -> exists evs, trace s = trace st ++ evs /\ Forall P evs).
  { intros s ->. exists []. by rewrite app_nil_r. }
  apply bind_inv in H as [(round_num & st1 & E & H) | (e & E & ->)];
    apply lift_inv in E as [Hround ->]; [|by apply Hnil].
  apply bind_inv in H as [(task_id & st1 & E & H) | (e & E & ->)];
    apply lift_inv in E as [Htask ->]; [|by apply Hnil].
  apply bind_inv in H as [(atts & st1 & E & H) | (e & E & ->)];
    apply lift_inv in E as [Hatts ->]; [|by apply Hnil].
  apply bind_inv in H as [(? & st1 & E & H) | (e & E & ->)];
    apply (decode_attachments_emits rt w P) in E as (evs1 & Ht1 & HP1);
    [|by exists evs1].
  match type of H with
  | match ?m st1 with _ => _ end = _ => destruct (m st1) as [[rp|e] st2] eqn:E
  end;
    (eapply (emits_bind P) in E as (evs2 & Ht2 & HP2);
     [|apply emits_lift
      |intros; eapply emits_weaken; [|apply create_repo_emits];
       intros e' He'; apply pathless_round_call; by destruct e']).
  - rewrite (field_or_round _ _ (eq_sym Hround)) in H.
    apply run_round_paths in H as (evs3 & Ht3 & HP3).
    exists (evs1 ++ evs2 ++ evs3). rewrite Ht3, Ht2, Ht1, <- !app_assoc.
    split; [done|]. by rewrite !Forall_app.
  - injection H as <- <-. exists (evs1 ++ evs2). rewrite Ht2, Ht1, <- !app_assoc.
    split; [done|]. by rewrite !Forall_app.
Qed.

(** X15. Whatever the request and the answers of the outside world, the
    calls of process_request to the repository are about index.html,
    README.md, LICENSE or a path under attachments/, and the last only
    on round 1: a later round never touches the attachments. *)
Theorem round_touches_known_paths data st r st' evs e path :
  process_request rt cfg w data st = (r, st') ->
  trace st' = trace st ++ evs ->
  e ∈ evs ->
  call_path e = Some path ->
  path ∈ ["index.html"; "README.md"; "LICENSE"]
  \/ (Py.eq_int (field_or data "round" (JInt 1)) 1 = true
      /\ startswith path "attachments/" = true).
Proof.
  intros H Ht Hin Hpath.
  apply process_request_paths in H as (evs' & Ht' & HP).
  rewrite Ht in Ht'. apply app_inv_head in Ht' as <-.
  rewrite Forall_forall in HP. specialize (HP e Hin).
  unfold round_call in HP. rewrite Hpath in HP. unfold round_path in HP.
  apply orb_prop in HP as [HP|HP].
  - left. repeat (apply orb_prop in HP as [HP|HP]);
      apply String.eqb_eq in HP as ->; set_solver.
  - right. by apply andb_prop in HP.
Qed.
End Paths.

(** ** A round that has its repository is reported *)

Lemma bind_lift_ok {A B} (x : result A) (k : A -> M B) a st :
  x = Ok a -> bind (lift x) k st = k a st.
Proof. by intros ->. Qed.

Lemma emits_any {A} (P : event -> Prop) (m : M A) : emits P m -> emits (fun _ => True) m.
Proof. intros H. eapply emits_weaken; [|exact H]. done. Qed.

Lemma saves_bind {A B} (m : M A) (k : A -> M B) :
  emits (fun _ => True) m -> (forall a, saves (k a)) -> saves (bind m k).
Proof.
  intros Hm Hk st b st' H.
  apply ok_bind_inv in H as (a & st1 & E & H).
  apply Hm in E as (evs & Ht & _). apply Hk in H as (pre & data & Ht').
  exists (evs ++ pre), data. by rewrite Ht', Ht, <- !app_assoc.
Qed.

Lemma settles_bind {A B} (m : M A) (k : A -> M B) :
  emits (fun _ => True) m -> settles m -> (forall a, settles (k a)) -> settles (bind m k).
Proof.
  intros Hem Hm Hk st e st' H.
  apply bind_inv in H as [(a & st1 & E & H) | (e' & E & [= <-])].
  - destruct (Hem _ _ _ E) as (evs & Ht & _).
    destruct (Hk a _ _ _ H) as [->|(pre & f & Ht')]; [by left|right].
    exists (evs ++ pre), f. by rewrite Ht', Ht, <- !app_assoc.
  - eapply Hm, E.
Qed.

Lemma settles_returns {A} (m : M A) : returns m -> settles m.
Proof. intros Hr st e st' H. destruct (Hr st) as (a & s & E). congruence. Qed.

Lemma settles_bind_lift {A B} (a : A) (k : A -> M B) :
  settles (k a) -> settles (bind (lift (Ok a)) k).
Proof. intros Hk st. apply Hk. Qed.

Section Progress.
Context (rt : runtime) (cfg : config) (w : world).

Lemma decode_attachments_or_else atts :
  decode_attachments rt w (Py.or_else atts (JArr [])) = decode_attachments rt w atts.
Proof. unfold decode_attachments. by rewrite or_else_idem. Qed.

(** For attachments and checks of the expected types, a writable output
    directory and a usable generator outcome, [generate_app_code] raises
    only when a document cannot be written as UTF-8. *)
Lemma generate_app_code_settles brief atts cs round_num prev_readme :
  attachments_ok atts = true ->
  w_writable w "generated_app/index.html" = true ->
  w_writable w "generated_app/README.md" = true ->
  (forall h p, usable (w_generate w h p) = true) ->
  settles (generate_app_code rt w brief atts (JArr (map JStr cs)) round_num prev_readme).
Proof.
  intros Hatts Hw1 Hw2 Huse st e st'.
  destruct (generate_documents_run rt w brief atts cs round_num prev_readme st Hatts Huse)
    as (saved_list & code & readme & st1 & Hdocs & _).
  unfold generate_app_code. unfold bind at 1. rewrite Hdocs. cbv zeta. cbn [fst snd].
  unfold bind, write_text, ret. rewrite Hw1.
  destruct (surrogate_free code); [rewrite Hw2; destruct (surrogate_free readme)|];
    intros [= <- _]; by left.
Qed.

Lemma commit_attachment_returns rp att : returns (commit_attachment rt w rp att).
Proof. apply returns_catch. intros; apply returns_ret. Qed.

Lemma commit_file_returns rp round_num f : returns (commit_file rt w rp round_num f).
Proof. apply returns_catch. intros; apply returns_ret. Qed.

(** When the last step of a round raises, the read of the ledger is the
    last call made. *)
Lemma record_settles key payload :
  settles (processed <- load_processed rt w ;;
           processed <- lift (set_item processed key payload) ;;
           save_processed w processed).
Proof.
  intros st e st' H. right.
  apply record_step in H as (Ht & _ & Hr). cbv zeta in Ht, Hr.
  destruct (regular _ && _); [discriminate|].
  exists [], (ledger rt w st). by rewrite Ht.
Qed.

Lemma run_round_settles data round_num task_id atts rp email task nonce brief cs :
  Py.getitem data "email" = Ok email ->
  Py.getitem data "task" = Ok task ->
  Py.getitem data "nonce" = Ok nonce ->
  Py.getitem data "brief" = Ok brief ->
  Py.get data "checks" (JArr []) = Ok (JArr (map JStr cs)) ->
  attachments_ok atts = true ->
  w_writable w "generated_app/index.html" = true ->
  w_writable w "generated_app/README.md" = true ->
  (forall h p, usable (w_generate w h p) = true) ->
  settles (run_round rt cfg w data round_num task_id atts rp).
Proof.
  intros He Ht Hn Hb Hc Hatts Hw1 Hw2 Huse. unfold run_round.
  rewrite He, Ht, Hn, Hb, Hc.
  apply settles_bind.
  { apply (emits_any staging). unfold expect. emits_auto. }
  { apply settles_returns. destruct (Py.eq_int round_num 2); [|apply returns_ret].
    apply returns_catch. intros; apply returns_ret. }
  intros prev.
  do 2 apply settles_bind_lift.
  apply settles_bind;
    [eapply emits_any, generate_app_code_emits
    |by apply generate_app_code_settles
    |intros gen].
  cbv zeta.
  apply settles_bind.
  { apply (emits_any file_call). destruct (Py.eq_int round_num 1); [|apply emits_ret].
    apply emits_for_each. intros. apply commit_attachment_emits. }
  { apply settles_returns. destruct (Py.eq_int round_num 1); [|apply returns_ret].
    apply returns_for_each, commit_attachment_returns. }
  intros _.
  apply settles_bind.
  { apply (emits_any file_call), emits_for_each. intros. apply commit_file_emits. }
  { apply settles_returns, returns_for_each, commit_file_returns. }
  intros _.
  apply settles_bind.
  { apply (emits_any file_call), emits_catch; [|intros; apply emits_ret].
    apply create_or_update_file_emits. }
  { apply settles_returns, returns_catch. intros; apply returns_ret. }
  intros _.
  apply settles_bind.
  { apply (emits_any (fun _ => True)). unfold enable_pages. emits_auto. }
  { apply settles_returns, returns_catch. intros; apply returns_ret. }
  intros pages_url.
  apply settles_bind;
    [apply (emits_any (fun _ => True)); emits_auto
    |apply settles_returns, returns_call
    |intros sha].
  do 3 apply settles_bind_lift. cbv zeta.
  apply settles_bind.
  { apply (emits_any (fun _ => True)). unfold notify_evaluation_server. emits_auto. }
  { apply settles_returns, returns_catch. intros; apply returns_ret. }
  intros _.
  intros st e st' H. eapply record_settles.
  rewrite <- H. unfold bind at 1 3.
  destruct (load_processed rt w st) as [[p|e0] s]; reflexivity.
Qed.

Lemma run_round_saves data round_num task_id atts rp :
  saves (run_round rt cfg w data round_num task_id atts rp).
Proof.
  unfold run_round.
  apply saves_bind.
  { apply (emits_any staging). unfold expect. emits_auto. }
  intros prev.
  do 2 (apply saves_bind; [apply (emits_any staging), emits_lift|intros ?]).
  apply saves_bind; [eapply emits_any, generate_app_code_emits|intros gen]. cbv zeta.
  apply saves_bind.
  { apply (emits_any file_call). destruct (Py.eq_int round_num 1); [|apply emits_ret].
    apply emits_for_each. intros. apply commit_attachment_emits. }
  intros _.
  apply saves_bind.
  { apply (emits_any file_call), emits_for_each. intros. apply commit_file_emits. }
  intros _.
  apply saves_bind.
  { apply (emits_any file_call), emits_catch; [|intros; apply emits_ret].
    apply create_or_update_file_emits. }
  intros _.
  apply saves_bind.
  { apply (emits_any (fun _ => True)). unfold enable_pages. emits_auto. }
  intros pages_url.
  apply saves_bind; [apply (emits_any (fun _ => True)); emits_auto|intros sha].
  do 3 (apply saves_bind; [apply (emits_any staging), emits_lift|intros ?]). cbv zeta.
  apply saves_bind.
  { apply (emits_any (fun _ => True)). unfold notify_evaluation_server. emits_auto. }
  intros _.
  apply saves_bind; [by apply load_processed_about|intros processed].
  do 3 (apply saves_bind; [apply (emits_any staging), emits_lift|intros ?]). cbv zeta.
  apply saves_bind; [apply (emits_any staging), emits_lift|intros processed'].
  intros st [] st'. unfold save_processed.
  destruct (w_writable w PROCESSED_PATH); [|discriminate].
  intros [= <-]. cbn. by eexists [], _.
Qed.

Lemma create_repo_not_acquired name description st e st' :
  create_repo w name description st = (Raise e, st') ->
  exists evs, trace st' = trace st ++ evs /\ repo_acquired evs = false.
Proof.
  unfold create_repo, bind, call, expect, ret, raise. cbv beta iota zeta.
  destruct (w_get_repo w (trace st) name) as [rp0|status|] eqn:E1; cbv beta iota zeta.
  - discriminate.
  - destruct (negb (status =? 404)%Z).
    { intros [= <- <-]. cbn. eexists. split; [reflexivity|]. done. }
    cbv beta iota zeta.
    match goal with
    | |- context [w_create_repo w ?h name description] =>
        destruct (w_create_repo w h name description) as [rp1|status1|] eqn:E2
    end; cbv beta iota zeta; try discriminate;
      intros [= <- <-]; cbn; eexists; (rewrite <- app_assoc; split; [reflexivity|]); done.
  - intros [= <- <-]. cbn. eexists. split; [reflexivity|]. done.
Qed.

(** A run that acquired the repository and returned ends with the write
    of the ledger. *)
Lemma process_request_saves data st st' evs :
  process_request rt cfg w data st = (Ok tt, st') ->
  trace st' = trace st ++ evs ->
  repo_acquired evs = true ->
  exists pre m, evs = pre ++ [SaveProcessed m].
Proof.
  intros H Htr Hacq. unfold process_request in H.
  apply ok_bind_inv in H as (round_num & st1 & E & H). apply lift_inv in E as [_ ->].
  apply ok_bind_inv in H as (task_id & st1 & E & H). apply lift_inv in E as [_ ->].
  apply ok_bind_inv in H as (atts & st1 & E & H). apply lift_inv in E as [_ ->].
  apply ok_bind_inv in H as (saved_list & st1 & E & H).
  apply decode_attachments_quiet in E. rename E into Ht1.
  match type of H with
  | match ?m st1 with _ => _ end = _ => destruct (m st1) as [[rp|e] st2] eqn:E
  end.
  - apply ok_bind_inv in E as (brief & s & E1 & E). apply lift_inv in E1 as [_ ->].
    apply create_repo_acquired in E as (l2 & Ht2 & _).
    apply run_round_saves in H as (pre & m & Ht3).
    rewrite Ht3, Ht2, Ht1, <- !app_assoc in Htr. apply app_inv_head in Htr as <-.
    exists (l2 ++ pre), m. by rewrite <- app_assoc.
  - exfalso. injection H as <-.
    apply bind_inv in E as [(brief & s & E1 & E) | (e' & E & _)].
    + apply lift_inv in E1 as [_ ->].
      apply create_repo_not_acquired in E as (l2 & Ht2 & Hna).
      rewrite Ht2, Ht1 in Htr. apply app_inv_head in Htr as <-. congruence.
    + apply lift_inv in E as [_ ->]. rewrite Ht1 in Htr.
      rewrite <- (app_nil_r (trace st)) in Htr at 1. apply app_inv_head in Htr as <-.
      discriminate.
Qed.

Lemma process_request_settles data email task nonce brief cs :
  Py.getitem data "email" = Ok email ->
  Py.getitem data "task" = Ok task ->
  Py.getitem data "nonce" = Ok nonce ->
  Py.getitem data "brief" = Ok brief ->
  Py.get data "checks" (JArr []) = Ok (JArr (map JStr cs)) ->
  attachments_ok (field_or data "attachments" (JArr [])) = true ->
  w_writable w "generated_app/index.html" = true ->
  w_writable w "generated_app/README.md" = true ->
  (forall h p, usable (w_generate w h p) = true) ->
  settles (process_request rt cfg w data).
Proof.
  intros He Ht Hn Hb Hc Hatts Hw1 Hw2 Huse st e st' H.
  destruct (getitem_Ok _ _ _ He) as (kv & Hdata & _).
  assert (Hround : Py.get data "round" (JInt 1) = Ok (field_or data "round" (JInt 1)))
    by (subst data; reflexivity).
  assert (Hget : Py.get data "attachments" (JArr [])
                 = Ok (field_or data "attachments" (JArr [])))
    by (subst data; reflexivity).
  clear Hdata. set (atts := field_or data "attachments" (JArr [])) in *.
  unfold process_request in H.
  rewrite (bind_lift_ok _ _ _ _ Hround), (bind_lift_ok _ _ _ _ Ht),
    (bind_lift_ok _ _ _ _ Hget) in H.
  destruct (decode_attachments_total rt w atts st Hatts) as (saved_list & st1 & Hdec).
  rewrite decode_attachments_or_else in Hdec.
  rewrite (bind_ok _ _ _ _ _ Hdec) in H.
  apply decode_attachments_quiet in Hdec. rename Hdec into Ht1.
  rewrite (bind_lift_ok _ _ _ _ Hb) in H.
  destruct (create_repo w task _ st1) as [[rp|e0] st2] eqn:Erepo; [|discriminate].
  apply create_repo_acquired in Erepo as (l2 & Ht2 & _).
  destruct (run_round_settles data (field_or data "round" (JInt 1)) task atts rp
              _ _ _ _ _ He Ht Hn Hb Hc Hatts Hw1 Hw2 Huse _ _ _ H)
    as [->|(pre & f & Ht3)]; [by left|right].
  exists (l2 ++ pre), f. by rewrite Ht3, Ht2, Ht1, <- !app_assoc.
Qed.

(** X14. With the identity fields and the brief present, the checks a
    list of strings, the attachments a list of objects whose url is a
    string when present, a writable output directory, a usable generator
    outcome, a ledger file that is absent, not decodable as JSON or a JSON
    object, that can be written and that no local path of the round
    names, process_request either returns or raises UnicodeEncodeError,
    which it does when a generated document holds a lone surrogate. If a
    call returned the repository and the run returned, the round is
    notified and recorded in the ledger under the key of its identity,
    whatever the commits of the files and the licence, the Pages request,
    the commit lookup and the notifier answered. *)
Theorem acquired_round_reported data email task nonce brief cs st :
  Py.getitem data "email" = Ok email ->
  Py.getitem data "task" = Ok task ->
  Py.getitem data "nonce" = Ok nonce ->
  Py.getitem data "brief" = Ok brief ->
  Py.get data "checks" (JArr []) = Ok (JArr (map JStr cs)) ->
  attachments_ok (field_or data "attachments" (JArr [])) = true ->
  w_writable w "generated_app/index.html" = true ->
  w_writable w "generated_app/README.md" = true ->
  (forall h p, usable (w_generate w h p) = true) ->
  regular (ledger rt w st) = true ->
  w_writable w PROCESSED_PATH = true ->
  off_ledger w (round_paths rt data) ->
  exists r st' evs,
    process_request rt cfg w data st = (r, st')
    /\ trace st' = trace st ++ evs
    /\ (r = Ok tt \/ r = Raise UnicodeEncodeError)
    /\ (repo_acquired evs = true ->
        r = Ok tt ->
        exists pre rp sha pages_url delivered,
          let round_num := field_or data "round" (JInt 1) in
          let payload := round_outcome email task round_num nonce rp sha pages_url in
          let m := <[ledger_key rt email task round_num nonce := payload]>
                     (stored (ledger rt w st)) in
          evs = pre ++ [Notify (field_or data "evaluation_url" JNull) payload delivered;
                        LoadProcessed (ledger rt w st); SaveProcessed m]
          /\ ledger rt w st' = Stored m).
Proof.
  intros He Ht Hn Hb Hc Hatts Hw1 Hw2 Huse Hreg Hwl Hoff.
  destruct (process_request rt cfg w data st) as [r st'] eqn:Hrun.
  pose proof (process_request_settles data email task nonce brief cs
                He Ht Hn Hb Hc Hatts Hw1 Hw2 Huse st) as Hset.
  pose proof (process_request_ends rt cfg w data st r st' Hrun) as Hend.
  destruct (round_end_extends rt cfg w data st r st' Hend) as [evs Htr].
  exists r, st', evs. split; [done|]. split; [done|].
  destruct Hend as [pre Hpre Ht' Hl | pre pub pages_url sha Hpre Hpub Ht' Hl
                    | pre pub pages_url sha email0 task0 nonce0 rp delivered f Hpre Hpub
                        He0 Hk0 Hn0 round_num payload m written Ht' Hf Hl Hr];
    rewrite Htr in Ht'; apply app_inv_head in Ht'.
  - split.
    + destruct r as [[]|e]; [by left|right].
      destruct (Hset e st' Hrun) as [->|(pre' & f & Ht'')]; [done|exfalso].
      rewrite Htr in Ht''. apply app_inv_head in Ht''. subst evs. rewrite Ht'' in Hpre.
      rewrite Forall_app, Forall_singleton in Hpre. by destruct Hpre.
    + intros Hacq ->. exfalso.
      destruct (process_request_saves data st st' evs Hrun Htr Hacq) as (pre' & m' & ->).
      rewrite <- Ht', Forall_app, Forall_singleton in Hpre. by destruct Hpre.
  - split.
    + destruct r as [[]|e]; [by left|right].
      destruct (Hset e st' Hrun) as [->|(pre' & f & Ht'')]; [done|exfalso].
      rewrite Htr in Ht''. apply app_inv_head in Ht''. subst evs.
      rewrite !app_assoc in Ht''. by apply app_inj_tail in Ht'' as [_ ?].
    + intros Hacq ->. exfalso.
      destruct (process_request_saves data st st' evs Hrun Htr Hacq) as (pre' & m' & ->).
      rewrite !app_assoc in Ht'. by apply app_inj_tail in Ht' as [_ ?].
  - specialize (Hf Hoff). subst f.
    assert (written = true) as Hwr by (unfold written; by rewrite Hreg, Hwl).
    rewrite Hwr in Hr, Hl, Ht'.
    split; [by left|]. intros _ _.
    rewrite He in He0. rewrite Ht in Hk0. rewrite Hn in Hn0.
    injection He0 as <-. injection Hk0 as <-. injection Hn0 as <-.
    exists (pre ++ pub ++ [GetCommits sha]), rp, sha, pages_url, delivered. cbv zeta.
    split; [|done]. rewrite Ht'. by rewrite <- !app_assoc.
Qed.

(** X16. A request whose round was notified by a run of process_request
    that returned, and that comes again with the configured secret, is not
    scheduled again: receive_request reads the ledger, sends the very
    payload of the first notification to the same URL and answers that
    the duplicate was handled, leaving the ledger as it is. *)
Theorem resubmission_renotifies data secret round_num st st' evs url payload delivered :
  Py.get data "secret" JNull = Ok secret ->
  Py.eq_optstr secret (USER_SECRET cfg) = true ->
  Py.getitem data "round" = Ok round_num ->
  process_request rt cfg w data st = (Ok tt, st') ->
  trace st' = trace st ++ evs ->
  Notify url payload delivered ∈ evs ->
  receive_request rt cfg w data st'
  = (Ok duplicate_handled,
     then_called (looked_up rt w st')
       (Notify url payload (w_notify w (trace (looked_up rt w st')) url payload))).
Proof.
  intros Hs Heq Hr H Ht Hin. apply process_request_ends in H.
  destruct H as [pre Hpre Ht' Hl | pre pub pages_url sha Hpre Hpub Ht' Hl
                 | pre pub pages_url sha email task nonce rp delivered' f Hpre Hpub
                     He Htk Hn round_num' payload' m written Ht' Hf Hl Hres];
    rewrite Ht in Ht'; apply app_inv_head in Ht' as ->.
  - exfalso. rewrite Forall_forall in Hpre. by apply Hpre in Hin.
  - exfalso. rewrite !elem_of_app in Hin. destruct Hin as [Hin|[Hin|Hin]].
    + rewrite Forall_forall in Hpre. by apply Hpre in Hin.
    + apply published_no_dispatch in Hpub. rewrite Forall_forall in Hpub.
      by apply Hpub in Hin.
    + by apply list_elem_of_singleton in Hin.
  - destruct written; [|discriminate].
    assert (url = field_or data "evaluation_url" JNull /\ payload = payload') as [-> ->].
    { rewrite !elem_of_app in Hin. destruct Hin as [Hin|[Hin|[Hin|Hin]]].
      - rewrite Forall_forall in Hpre. by apply Hpre in Hin.
      - apply published_no_dispatch in Hpub. rewrite Forall_forall in Hpub.
        by apply Hpub in Hin.
      - rewrite !elem_of_cons in Hin.
        destruct Hin as [?|[Hin|[?|Hin]]]; try discriminate.
        + by injection Hin.
        + by apply elem_of_nil in Hin.
      - by apply list_elem_of_singleton in Hin. }
    destruct (getitem_Ok _ _ _ He) as (kv & -> & Hke).
    apply getitem_Ok in Htk as (? & [= <-] & Hkt).
    apply getitem_Ok in Hn as (? & [= <-] & Hkn).
    apply getitem_Ok in Hr as (? & [= <-] & Hkr).
    rewrite (receive_request_authorised rt cfg w kv secret st' Hs Heq)
      by (by rewrite Hl).
    rewrite Hke, Hkt, Hkr, Hkn. cbv zeta.
    assert (round_num' = round_num) as Hrn
      by (unfold round_num', field_or; cbn; by rewrite Hkr).
    rewrite Hl. cbn [stored]. unfold m. rewrite Hrn, lookup_insert_eq.
    unfold field_or. cbn. reflexivity.
Qed.

(** An entry that is no object, or whose url is there but is no string,
    stops the loop where the entries before it have left it. *)
Lemma decode_loop_bad l1 bad l2 st :
  entry_ok bad = false ->
  decode_loop rt w (l1 ++ bad :: l2) st
  = (Raise AttributeError, snd (decode_loop rt w l1 st)).
Proof.
  intros Hbad. revert st. induction l1 as [|att l1 IH]; intros st; cbn [app decode_loop].
  - unfold bind. by rewrite (decode_attachment_bad rt w bad st Hbad).
  - destruct (entry_ok att) eqn:Hatt.
    + destruct (decode_attachment_total rt w att st Hatt) as (s & st1 & E).
      unfold bind at 1 3. rewrite E. unfold bind at 1. rewrite IH.
      unfold bind. by destruct (decode_loop rt w l1 st1) as [[x|e] st2].
    + unfold bind at 1 3. by rewrite (decode_attachment_bad rt w att st Hatt).
Qed.

(** X17. An attachment entry that is no object, or whose url is present
    and no string, makes process_request raise AttributeError before it
    asks for the repository: no call is made to the outside world. The
    ledger is left as it was unless one of the entries before the
    malformed one is saved onto the ledger file. *)
Theorem malformed_attachment_aborts data task l1 bad l2 st :
  Py.getitem data "task" = Ok task ->
  Py.get data "attachments" (JArr []) = Ok (JArr (l1 ++ bad :: l2)) ->
  entry_ok bad = false ->
  exists st',
    process_request rt cfg w data st = (Raise AttributeError, st')
    /\ trace st' = trace st
    /\ (off_ledger w (attachment_paths rt (JArr l1)) -> ledger rt w st' = ledger rt w st).
Proof.
  intros Ht Hatts Hbad.
  destruct (getitem_Ok _ _ _ Ht) as (kv & Hdata & _).
  assert (Hround : Py.get data "round" (JInt 1) = Ok (field_or data "round" (JInt 1)))
    by (subst data; reflexivity).
  clear Hdata. unfold process_request.
  rewrite (bind_lift_ok _ _ _ _ Hround), (bind_lift_ok _ _ _ _ Ht),
    (bind_lift_ok _ _ _ _ Hatts).
  assert (Hdec : decode_attachments rt w (JArr (l1 ++ bad :: l2)) st
                 = (Raise AttributeError, snd (decode_loop rt w l1 st))).
  { unfold decode_attachments. rewrite or_else_list. by apply decode_loop_bad. }
  unfold bind at 1. rewrite Hdec. eexists. split; [reflexivity|].
  destruct (decode_loop rt w l1 st) as [r1 st1] eqn:E1. cbn [snd]. split.
  - apply (decode_attachments_quiet rt w (JArr (l1 ++ bad :: l2)) st _ _ Hdec).
  - intros Hoff. apply ledger_kept.
    eapply (decode_loop_keeps rt w); [exact Hoff|exact E1].
Qed.
End Progress.

(** ** The properties at concrete runs *)

(** X1 on a host without the repository: the lookup is answered 404 and
    the creation returns the repository. *)
Lemma create_repo_creates_only_when_missing_witness :
  let name := JStr "demo1" in
  let description := "Auto-generated app for task: a todo app" in
  let X := create_repo (Scenario.fresh_host None) name description Example.start in
  trace (snd X) = [GetRepo name (Github 404); CreateRepo name description (Done Example.demo1)]
  /\ exists found rest,
       trace (snd X) = trace Example.start ++ GetRepo name found :: rest
       /\ (rest = [] \/ exists created, found = Github 404
                                      /\ rest = [CreateRepo name description created])
       /\ (forall rp, found = Done rp -> rest = [] /\ fst X = Ok rp)
       /\ (forall rp, fst X = Ok rp
                      <-> (last (GetRepo name found :: rest) ≫= returned_repo) = Some rp).
Proof.
  cbv zeta. set (X := create_repo _ _ _ _). split; [vm_compute; reflexivity|].
  exact (create_repo_creates_only_when_missing (Scenario.fresh_host None) (JStr "demo1")
           "Auto-generated app for task: a todo app" Example.start (fst X) (snd X)
           (surjective_pairing X)).
Defined.

(** X2 on a repository that holds no index.html yet: the lookup is
    answered 404 and the file is created. *)
Lemma create_or_update_file_upserts_witness :
  let c := Text "<h1>todo</h1>" in
  let X := create_or_update_file (Scenario.fresh_host None) Example.demo1 "index.html" c
             "Add/Update index.html for round 1" Example.start in
  exists evs,
    trace (snd X) = trace Example.start ++ evs
    /\ Forall (fun e => call_path e = Some "index.html") evs
    /\ (fst X = Ok tt <-> (last evs ≫= written) = Some ("index.html", c))
    /\ (forall e, e ∈ evs -> written e <> None -> last evs = Some e)
    /\ (forall m c' x, CreateFile "index.html" m c' x ∈ evs ->
                       exists e, e ∈ evs /\ not_found e = true).
Proof.
  cbv zeta. set (X := create_or_update_file _ _ _ _ _ _).
  exact (create_or_update_file_upserts (Scenario.fresh_host None) Example.demo1 "index.html"
           (Text "<h1>todo</h1>") "Add/Update index.html for round 1" Example.start
           (fst X) (snd X) (surjective_pairing X)).
Defined.

(** X3 on a host that refuses the lookup of the backup with status 500. *)
Lemma backup_refusal_passed_over_witness :
  let X := create_or_update_binary_file Scenario.rt Scenario.no_backups Example.demo1
             "attachments/logo.png" (utf8_encode "hi") "Add binary logo.png" Example.start in
  fst X = Ok tt
  /\ writes (trace (snd X)) = [("attachments/logo.png", Binary (utf8_encode "hi"))].
Proof.
  cbv zeta. set (X := create_or_update_binary_file _ _ _ _ _ _ _).
  apply (backup_refusal_passed_over Scenario.rt Scenario.no_backups Example.demo1
           "attachments/logo.png" (utf8_encode "hi") "Add binary logo.png" Example.start
           (fst X) (snd X) (trace (snd X))
           (GetContents "attachments/logo.png.b64" (Github 500))).
  - apply surjective_pairing.
  - reflexivity.
  - apply (list_elem_of_lookup_2 _ 0%nat). vm_compute. reflexivity.
  - vm_compute. reflexivity.
  - reflexivity.
Defined.

(** X4 at the picture of the scenario, on the host that accepts every
    write. *)
Lemma binary_attachment_backed_up_twice_witness :
  let X := commit_attachment Scenario.rt (Scenario.fresh_host None) Example.demo1
             Scenario.saved_logo Scenario.decoded in
  writes (trace (snd X))
  = [("attachments/logo.png", Binary (utf8_encode "hi"));
     ("attachments/logo.png.b64", Text "aGk=");
     ("attachments/logo.png.b64", Text "aGk=")].
Proof.
  cbv zeta. set (X := commit_attachment _ _ _ _ _).
  assert (Hclean : Forall (fun e => failing e = false) (trace (snd X))).
  { assert (Hlen : List.length (trace (snd X)) = 6%nat) by (vm_compute; reflexivity).
    apply Forall_lookup. intros i e Hi.
    assert (i < 6)%nat as Hlt by (rewrite <- Hlen; by eapply lookup_lt_Some).
    revert Hi. do 6 (destruct i as [|i]; [vm_compute; by intros [= <-]|]). lia. }
  exact (binary_attachment_backed_up_twice Scenario.rt (Scenario.fresh_host None)
           Example.demo1 Scenario.saved_logo (utf8_encode "hi") Scenario.decoded
           (fst X) (snd X) (trace (snd X)) ltac:(vm_compute; reflexivity) eq_refl eq_refl
           eq_refl (surjective_pairing X) eq_refl Hclean).
Defined.

(** X5 at the picture of the scenario. *)
Lemma inline_attachment_saved_witness :
  exists entry st',
    decode_attachments Scenario.rt Example.w (JArr [Scenario.logo]) Example.start
    = (Ok [entry], st')
    /\ att_name entry = "logo.png" /\ att_mime entry = "image/png"
    /\ att_size entry = List.length (utf8_encode "hi")
    /\ read_file Scenario.rt Example.w (att_path entry) st'
       = (Ok (Some (utf8_encode "hi")), st').
Proof.
  apply (inline_attachment_saved Scenario.rt Example.w Scenario.logo "image/png" "aGk="
           (utf8_encode "hi") "logo.png" Example.start); reflexivity.
Defined.

(** X6 at two notes of the same name: the file holds the second one. *)
Lemma same_name_overwrites_witness :
  exists entry1 entry2 st',
    decode_attachments Scenario.rt Example.w
      (JArr [Scenario.note "aGk="; Scenario.note "aG8="]) Example.start
    = (Ok [entry1; entry2], st')
    /\ att_path entry1 = att_path entry2
    /\ att_size entry1 = List.length (utf8_encode "hi")
    /\ att_size entry2 = List.length (utf8_encode "ho")
    /\ fs st' !! w_file Example.w (att_path entry1) = Some (Raw (utf8_encode "ho")).
Proof.
  apply (same_name_overwrites Scenario.rt Example.w (Scenario.note "aGk=")
           (Scenario.note "aG8=") "text/plain" "aGk=" (utf8_encode "hi")
           "text/plain" "aG8=" (utf8_encode "ho") "note.txt" Example.start); reflexivity.
Defined.

(** X7 at the two attachments of the scenario and the path of the
    picture. *)
Lemma decode_attachments_frame_witness :
  let atts := JArr [Scenario.logo; Scenario.note "aG8="] in
  let q := "/tmp/llm_attachments/logo.png" in
  let X := decode_attachments Scenario.rt Example.w atts Example.start in
  trace (snd X) = trace Example.start
  /\ (fs (snd X) !! q <> fs Example.start !! q ->
      exists l att name,
        Py.or_else atts (JArr []) = JArr l /\ att ∈ l
        /\ entry_name att = JStr name
        /\ q = w_file Example.w (tmp_path Scenario.rt name))
  /\ (off_ledger Example.w (attachment_paths Scenario.rt atts) ->
      ledger Scenario.rt Example.w (snd X) = ledger Scenario.rt Example.w Example.start).
Proof.
  cbv zeta. set (X := decode_attachments _ _ _ _).
  exact (decode_attachments_frame Scenario.rt Example.w
           (JArr [Scenario.logo; Scenario.note "aG8="]) Example.start (fst X) (snd X)
           "/tmp/llm_attachments/logo.png" (surjective_pairing X)).
Defined.

(** X8 at the note of the scenario. *)
Lemma text_preview_bounded_witness :
  exists preview,
    summarize_attachment Scenario.rt Example.w Scenario.saved_note Scenario.decoded
    = (Ok ("- note.txt (text/plain): preview: " +:+ preview), Scenario.decoded)
    /\ (char_count preview <= 1000)%nat
    /\ char_free "010" preview = true.
Proof.
  exact (text_preview_bounded Scenario.rt Example.w Scenario.saved_note (utf8_encode "hi")
           Scenario.decoded eq_refl ltac:(vm_compute; reflexivity)).
Defined.

(** X10 at the example request, with the generator down. *)
Lemma generator_called_at_most_once_witness :
  let X := generate_app_code Scenario.rt (Scenario.fresh_host None) (JStr "a todo app")
             (JArr [Scenario.logo]) (JArr [JStr "has add button"]) (JInt 1) None
             Example.start in
  (trace (snd X) = trace Example.start /\ exists e, fst X = Raise e)
  \/ exists prompt answer, trace (snd X) = trace Example.start ++ [Generate prompt answer].
Proof.
  cbv zeta. set (X := generate_app_code _ _ _ _ _ _ _ _).
  exact (generator_called_at_most_once Scenario.rt (Scenario.fresh_host None)
           (JStr "a todo app") (JArr [Scenario.logo]) (JArr [JStr "has add button"])
           (JInt 1) None Example.start (fst X) (snd X) (surjective_pairing X)).
Defined.

(** X11 at the example request, with the generator down. *)
Lemma generated_files_saved_locally_witness :
  exists g st',
    generate_app_code Scenario.rt (Scenario.fresh_host None) (JStr "a todo app")
      (JArr []) (JArr [JStr "has add button"]) (JInt 1) None Example.start = (Ok g, st')
    /\ forall name text,
         (name, text) ∈ gen_files g ->
         fs st' !! w_file (Scenario.fresh_host None) ("generated_app/" +:+ name)
         = Some (Raw (utf8_encode text)).
Proof.
  eexists _, _. split; [vm_compute; reflexivity|].
  apply (generated_files_saved_locally Scenario.rt (Scenario.fresh_host None)
           (JStr "a todo app") (JArr []) (JArr [JStr "has add button"]) (JInt 1) None
           Example.start).
  - vm_compute. discriminate.
  - vm_compute. reflexivity.
Defined.

(** X12 with the generator down and a number among the checks. *)
Lemma fallback_needs_string_checks_witness :
  exists st',
    generate_app_code Scenario.rt (Scenario.fresh_host None) (JStr "a todo app")
      (JArr [Scenario.logo]) (JArr [JStr "has add button"; JInt 5]) (JInt 1) None
      Example.start
    = (Raise TypeError, st').
Proof.
  apply (fallback_needs_string_checks Scenario.rt (Scenario.fresh_host None)
           (JStr "a todo app") (JArr [Scenario.logo]) [JStr "has add button"; JInt 5]
           (JInt 1) None Example.start); [reflexivity | intros; reflexivity | reflexivity].
Defined.

(** X13 with a generator that answers a page and a README. *)
Lemma generated_documents_witness :
  let text := "<h1>todo</h1>---README.md---# Todo" in
  exists saved_list st',
    generate_app_code Scenario.rt (Scenario.fresh_host (Some (Example.answer (JStr text))))
      (JStr "a todo app") (JArr []) (JArr (map JStr ["has add button"])) (JInt 1) None
      Example.start
    = (Ok {| gen_files := [("index.html", "<h1>todo</h1>"); ("README.md", "# Todo")];
             gen_attachments := saved_list |}, st').
Proof.
  cbv zeta.
  pose proof (generated_documents Scenario.rt
                (Scenario.fresh_host
                   (Some (Example.answer (JStr "<h1>todo</h1>---README.md---# Todo"))))
                (JStr "a todo app") (JArr []) ["has add button"] (JInt 1) None
                "<h1>todo</h1>---README.md---# Todo" Example.start
                eq_refl eq_refl eq_refl (fun _ _ => eq_refl)) as H.
  cbv zeta in H. destruct H as (saved_list & st' & Hrun).
  exists saved_list, st'. rewrite Hrun. vm_compute. reflexivity.
Defined.

(** X15 at round 1 of the scenario: the update of the backup of the
    picture. *)
Lemma round_touches_known_paths_witness :
  let data := Scenario.request 1 in
  let path := "attachments/logo.png.b64" in
  path ∈ ["index.html"; "README.md"; "LICENSE"]
  \/ (Py.eq_int (field_or data "round" (JInt 1)) 1 = true
      /\ startswith path "attachments/" = true).
Proof.
  cbv zeta.
  set (X := process_request Scenario.rt Example.cfg (Scenario.fresh_host None)
              (Scenario.request 1) Example.start).
  apply (round_touches_known_paths Scenario.rt Example.cfg (Scenario.fresh_host None)
           (Scenario.request 1) Example.start (fst X) (snd X) (trace (snd X))
           (UpdateFile "attachments/logo.png.b64" "Backup logo.png.b64" (Text "aGk=") "sha1"
              (Done tt))).
  - apply surjective_pairing.
  - reflexivity.
  - apply (list_elem_of_lookup_2 _ 8%nat). vm_compute. reflexivity.
  - reflexivity.
Defined.

(** X14 at round 1 of the scenario, on the host that creates the
    repository. *)
Lemma acquired_round_reported_witness :
  let data := Scenario.request 1 in
  let w := Scenario.fresh_host None in
  exists r st' evs,
    process_request Scenario.rt Example.cfg w data Example.start = (r, st')
    /\ trace st' = trace Example.start ++ evs
    /\ (r = Ok tt \/ r = Raise UnicodeEncodeError)
    /\ (repo_acquired evs = true ->
        r = Ok tt ->
        exists pre rp sha pages_url delivered,
          let round_num := field_or data "round" (JInt 1) in
          let payload :=
            round_outcome (JStr "a@b.c") (JStr "demo1") round_num (JStr "abc") rp sha
              pages_url in
          let m := <[ledger_key Scenario.rt (JStr "a@b.c") (JStr "demo1") round_num
                       (JStr "abc") := payload]>
                     (stored (ledger Scenario.rt w Example.start)) in
          evs = pre ++ [Notify (field_or data "evaluation_url" JNull) payload delivered;
                        LoadProcessed (ledger Scenario.rt w Example.start);
                        SaveProcessed m]
          /\ ledger Scenario.rt w st' = Stored m).
Proof.
  cbv zeta.
  apply (acquired_round_reported Scenario.rt Example.cfg (Scenario.fresh_host None)
           (Scenario.request 1) (JStr "a@b.c") (JStr "demo1") (JStr "abc")
           (JStr "a todo app") ["has add button"] Example.start);
    first [reflexivity | intros; reflexivity
          | vm_compute; repeat (constructor; [discriminate|]); constructor].
Defined.

(** X16 at round 1 of the scenario: the request comes again after it was
    processed. *)
Lemma resubmission_renotifies_witness :
  let data := Scenario.request 1 in
  let st' := snd (process_request Scenario.rt Example.cfg (Scenario.fresh_host None) data
                    Example.start) in
  receive_request Scenario.rt Example.cfg (Scenario.fresh_host None) data st'
  = (Ok duplicate_handled,
     then_called (looked_up Scenario.rt (Scenario.fresh_host None) st')
       (Notify (JStr "http://eval") Example.outcome1
          (w_notify (Scenario.fresh_host None)
             (trace (looked_up Scenario.rt (Scenario.fresh_host None) st'))
             (JStr "http://eval") Example.outcome1))).
Proof.
  cbv zeta.
  set (X := process_request Scenario.rt Example.cfg (Scenario.fresh_host None)
              (Scenario.request 1) Example.start).
  apply (resubmission_renotifies Scenario.rt Example.cfg (Scenario.fresh_host None)
           (Scenario.request 1) (JStr "s3cret") (JInt 1) Example.start (snd X)
           (trace (snd X)) (JStr "http://eval") Example.outcome1 true).
  - reflexivity.
  - reflexivity.
  - reflexivity.
  - vm_compute. reflexivity.
  - reflexivity.
  - apply (list_elem_of_lookup_2 _ 17%nat). vm_compute. reflexivity.
Defined.

(** X17 at a request whose second attachment is a number. *)
Lemma malformed_attachment_aborts_witness :
  let data := JObj [("task", JStr "demo1"); ("brief", JStr "a todo app");
                    ("attachments", JArr [Scenario.logo; JInt 5])] in
  exists st',
    process_request Scenario.rt Example.cfg (Scenario.fresh_host None) data Example.start
    = (Raise AttributeError, st')
    /\ trace st' = trace Example.start
    /\ (off_ledger (Scenario.fresh_host None)
          (attachment_paths Scenario.rt (JArr [Scenario.logo])) ->
        ledger Scenario.rt (Scenario.fresh_host None) st'
        = ledger Scenario.rt (Scenario.fresh_host None) Example.start).
Proof.
  cbv zeta.
  apply (malformed_attachment_aborts Scenario.rt Example.cfg (Scenario.fresh_host None)
           _ (JStr "demo1") [Scenario.logo] (JInt 5) [] Example.start); reflexivity.
Defined.

(** ** Text attachments *)

Section TextAttachments.
Context (rt : runtime) (w : world).

Lemma upsert_calls_writes path message c lenient evs r :
  upsert_calls path message c lenient evs r ->
  Forall (fun e => call_path e = Some path) evs
  /\ forall x, x ∈ writes evs -> x = (path, c).
Proof.
  intros Hup.
  inversion Hup as [| ? ? y | | | y | |]; subst;
    (split; [by repeat constructor|]); intros x; unfold writes; cbn;
    try (destruct y as [[]| |]; cbn); rewrite ?elem_of_cons, ?elem_of_nil; naive_solver.
Qed.

(** X18. The commit of an attachment that counts as text (by its MIME
    type or by the end of its name) and whose file can be read makes
    calls about attachments/<name> only and returns normally whatever
    the host answers; what it writes there is the decoded text of the
    file, and it writes it when no call fails. Unlike a binary
    attachment, it gets no base64 copy. *)
Theorem text_attachment_committed_as_text rp att content_bytes st r st' evs :
  file_bytes rt <$> fs st !! w_file w (att_path att) = Some content_bytes ->
  startswith (att_mime att) "text"
    || endswith (att_name att) ".md" || endswith (att_name att) ".csv"
    || endswith (att_name att) ".json" || endswith (att_name att) ".txt" = true ->
  commit_attachment rt w rp att st = (r, st') ->
  trace st' = trace st ++ evs ->
  let path := "attachments/" +:+ att_name att in
  let text := Text (utf8_ignore rt content_bytes) in
  r = Ok tt
  /\ Forall (fun e => call_path e = Some path) evs
  /\ (forall x, x ∈ writes evs -> x = (path, text))
  /\ (Forall (fun e => failing e = false) evs -> writes evs = [(path, text)]).
Proof.
  intros Hfile Htext H Ht path text.
  unfold commit_attachment, catch, bind at 1, read_file in H.
  rewrite Hfile in H. cbv beta iota zeta in H. rewrite Htext in H.
  match type of H with
  | match ?m st with _ => _ end = _ => destruct (m st) as [r0 st0] eqn:E
  end.
  assert (r = Ok tt /\ st0 = st') as [-> ->].
  { destruct r0 as [[]|e]; by injection H as <- <-. }
  clear H. split; [done|].
  apply create_or_update_file_calls in E as (_ & evs0 & Ht0 & Hup).
  rewrite Ht in Ht0. apply app_inv_head in Ht0 as <-.
  destruct (upsert_calls_writes _ _ _ _ _ _ Hup) as [Hpaths Hwrites].
  split; [done|]. split; [done|]. intros Hclean.
  by destruct (upsert_calls_clean _ _ _ _ _ _ Hup Hclean) as [_ ?].
Qed.
End TextAttachments.

(** X18 at the note of the scenario. *)
Lemma text_attachment_committed_as_text_witness :
  let X := commit_attachment Scenario.rt (Scenario.fresh_host None) Example.demo1
             Scenario.saved_note Scenario.decoded in
  let path := "attachments/note.txt" in
  let text := Text "hi" in
  fst X = Ok tt
  /\ Forall (fun e => call_path e = Some path) (trace (snd X))
  /\ (forall x, x ∈ writes (trace (snd X)) -> x = (path, text))
  /\ (Forall (fun e => failing e = false) (trace (snd X)) ->
      writes (trace (snd X)) = [(path, text)]).
Proof.
  cbv zeta. set (X := commit_attachment _ _ _ _ _).
  exact (text_attachment_committed_as_text Scenario.rt (Scenario.fresh_host None)
           Example.demo1 Scenario.saved_note (utf8_encode "hi") Scenario.decoded
           (fst X) (snd X) (trace (snd X)) ltac:(vm_compute; reflexivity) eq_refl
           (surjective_pairing X) eq_refl).
Defined.
